(** * Psiphon dial pipeline: obfuscator, server-entry store and iterator,
      custom TLS dialer and randomized ClientHello assembly.

    Shallow embedding of

    - [psiphon/common/obfuscator] (the OSSH seed message, key derivation and
      stream ciphers);
    - [psiphon/dataStore.go] (server entries, affinity, the ranked iterator);
    - [psiphon/tlsDialer.go] ([CustomTLSDial]);
    - [utls/u_parrots.go] (the randomized ClientHello parrots).

    Go's [int] is modelled by [Z]; byte slices by [list Z] with every element
    in [0, 256); strings used as bucket keys by [string].  The functions of
    Go's standard library the code calls ([crypto/sha1], [crypto/rc4],
    [io.ReadFull], [encoding/hex]) are written out so that the model runs. *)

From Stdlib Require Import ZArith List QArith Uint63.
From stdpp Require Import base gmap strings list sorting pretty.
From Equations Require Import Equations.
Import ListNotations.
Open Scope Z_scope.

(** ** Errors

    [common.ContextError] only prefixes a message with the caller's name and
    line; the model keeps the message. *)

Inductive result (A : Type) : Type :=
| Ok (a : A)
| Err (msg : string).
Arguments Ok {A} a.
Arguments Err {A} msg.

Definition is_Ok {A} (r : result A) : bool :=
  match r with Ok _ => true | Err _ => false end.

Definition ContextError {A} (msg : string) : result A := Err msg.

(** ** Byte helpers *)

Definition bytes := list Z.

Definition byte_ok (b : Z) : Prop := 0 <= b < 256.

Definition bytes_of_string (s : string) : bytes :=
  map (fun a => Z.of_N (Ascii.N_of_ascii a)) (String.list_ascii_of_string s).

(** [binary.Write(buffer, binary.BigEndian, uint32(x))] *)
Definition put_uint32_be (x : Z) : bytes :=
  [ Z.land (Z.shiftr x 24) 255; Z.land (Z.shiftr x 16) 255;
    Z.land (Z.shiftr x 8) 255; Z.land x 255 ].

Definition uint32_be (bs : bytes) : Z :=
  match bs with
  | b0 :: b1 :: b2 :: b3 :: _ =>
      Z.lor (Z.shiftl b0 24) (Z.lor (Z.shiftl b1 16) (Z.lor (Z.shiftl b2 8) b3))
  | _ => 0
  end.

(** Conversion [uint32 -> int32]: two's complement wrap-around. *)
Definition to_int32 (u : Z) : Z :=
  if Z.ltb u (2 ^ 31) then u else u - 2 ^ 32.

(** [binary.Read(buffer, binary.BigEndian, &v)] for [v : int32]. *)
Definition int32_be (bs : bytes) : Z := to_int32 (uint32_be bs).

(** ** The pseudo-random generator interface ([psiphon/common/prng])

    The package is not part of the sources at hand; the code under study only
    relies on the operations below.  [Intn g n] is [PRNG.Intn(n)] and returns
    the advanced generator; the same type also stands for the package-level
    default generator behind [prng.Intn] and [prng.FlipCoin], whose state the
    model threads explicitly. *)

Class PRNGInterface (PRNG : Type) := {
  SEED_LENGTH : Z;
  NewPRNGWithSeed : bytes -> PRNG;
  Intn : PRNG -> Z -> Z * PRNG;
  Perm : PRNG -> nat -> list nat * PRNG;
  Padding : PRNG -> Z -> Z -> bytes * PRNG;
  FlipCoin : PRNG -> bool * PRNG;
  SEED_LENGTH_pos : 0 < SEED_LENGTH;
  Intn_range : forall g n, 0 < n -> 0 <= fst (Intn g n) < n;
  Perm_length : forall g n, length (fst (Perm g n)) = n;
  Perm_range : forall g n i, In i (fst (Perm g n)) -> (i < n)%nat;
  Padding_length : forall g lo hi, 0 <= lo <= hi ->
    lo <= Z.of_nat (length (fst (Padding g lo hi))) <= hi;
}.

(** ** [crypto/sha1]

    FIPS 180-4 SHA-1.  The 32-bit working variables are kept in 63-bit machine
    integers and truncated with [mask32] after every addition and rotation. *)

Module SHA1.

Definition mask32 : int := 0xFFFFFFFF%uint63.

Definition add32 (a b : int) : int := Uint63.land (Uint63.add a b) mask32.

Definition rotl32 (n x : int) : int :=
  Uint63.lor (Uint63.land (Uint63.lsl x n) mask32)
             (Uint63.lsr x (Uint63.sub 32 n)).

Definition f_t (t b c d : int) : int :=
  if Uint63.ltb t 20 then
    Uint63.lor (Uint63.land b c) (Uint63.land (Uint63.lxor b mask32) d)
  else if Uint63.ltb t 40 then Uint63.lxor (Uint63.lxor b c) d
  else if Uint63.ltb t 60 then
    Uint63.lor (Uint63.lor (Uint63.land b c) (Uint63.land b d)) (Uint63.land c d)
  else Uint63.lxor (Uint63.lxor b c) d.

Definition k_t (t : int) : int :=
  (if Uint63.ltb t 20 then 0x5A827999
   else if Uint63.ltb t 40 then 0x6ED9EBA1
   else if Uint63.ltb t 60 then 0x8F1BBCDC
   else 0xCA62C1D6)%uint63.

Fixpoint be_words (bs : list int) : list int :=
  match bs with
  | b0 :: b1 :: b2 :: b3 :: rest =>
      Uint63.lor (Uint63.lsl b0 24)
        (Uint63.lor (Uint63.lsl b1 16) (Uint63.lor (Uint63.lsl b2 8) b3))
      :: be_words rest
  | _ => []
  end.

(** The message schedule: [n] words [W_t], from a window of the 16 previous. *)
Fixpoint schedule (n : nat) (w : list int) : list int :=
  match n with
  | O => []
  | S n' =>
      match w with
      | w0 :: ((_ :: w2 :: _ :: _ :: _ :: _ :: _ :: w8 :: _ :: _ :: _ :: _
                 :: w13 :: _ :: _ :: _) as rest) =>
          let x := rotl32 1 (Uint63.lxor (Uint63.lxor w13 w8) (Uint63.lxor w2 w0)) in
          w0 :: schedule n' (rest ++ [x])
      | _ => w
      end
  end.

Record regs := { ra : int; rb : int; rc : int; rd : int; re : int }.

Fixpoint rounds (ws : list int) (t a b c d e : int) : regs :=
  match ws with
  | [] => {| ra := a; rb := b; rc := c; rd := d; re := e |}
  | w :: ws' =>
      let tmp :=
        add32 (add32 (add32 (add32 (rotl32 5 a) (f_t t b c d)) e) w) (k_t t) in
      rounds ws' (Uint63.add t 1) tmp a (rotl32 30 b) c d
  end.

Definition block (s : regs) (blk : list int) : regs :=
  let r := rounds (schedule 80 (be_words blk)) 0 (ra s) (rb s) (rc s) (rd s) (re s) in
  {| ra := add32 (ra s) (ra r); rb := add32 (rb s) (rb r);
     rc := add32 (rc s) (rc r); rd := add32 (rd s) (rd r);
     re := add32 (re s) (re r) |}.

Fixpoint blocks (fuel : nat) (s : regs) (bs : list int) : regs :=
  match fuel with
  | O => s
  | S f =>
      match bs with
      | [] => s
      | _ => blocks f (block s (firstn 64 bs)) (skipn 64 bs)
      end
  end.

Definition be_bytes4 (x : int) : list int :=
  [ Uint63.land (Uint63.lsr x 24) 255; Uint63.land (Uint63.lsr x 16) 255;
    Uint63.land (Uint63.lsr x 8) 255; Uint63.land x 255 ]%uint63.

Definition pad (msg : list int) : list int :=
  let l := Z.of_nat (length msg) in
  let z := Z.to_nat ((55 - l) mod 64) in
  let bits := Uint63.mul 8 (Uint63.of_Z l) in
  msg ++ [128%uint63] ++ repeat 0%uint63 z
      ++ be_bytes4 (Uint63.lsr bits 32) ++ be_bytes4 (Uint63.land bits mask32).

Definition init : regs :=
  {| ra := 0x67452301; rb := 0xEFCDAB89; rc := 0x98BADCFE;
     rd := 0x10325476; re := 0xC3D2E1F0 |}%uint63.

Definition digest_words (msg : list int) : list int :=
  let p := pad msg in
  let r := blocks (length p) init p in
  be_bytes4 (ra r) ++ be_bytes4 (rb r) ++ be_bytes4 (rc r)
    ++ be_bytes4 (rd r) ++ be_bytes4 (re r).

Definition byte_of_Z (b : Z) : int := Uint63.land (Uint63.of_Z b) 255.

(** An 8-bit machine integer back to [Z], bit by bit. *)
Definition Z_of_byte (x : int) : Z :=
  fold_right
    (fun k acc =>
       if Uint63.eqb (Uint63.land (Uint63.lsr x k) 1) 0 then 2 * acc
       else 2 * acc + 1)
    0 [0; 1; 2; 3; 4; 5; 6; 7]%uint63.

(** [h := sha1.New(); h.Write(msg); h.Sum(nil)] *)
Definition Sum (msg : bytes) : bytes :=
  map Z_of_byte (digest_words (map byte_of_Z msg)).

End SHA1.

(** ** [crypto/sha256] (FIPS 180-4 SHA-256), in the same style. *)

Module SHA256.

Definition rotr32 (n x : int) : int :=
  Uint63.lor (Uint63.lsr x n)
             (Uint63.land (Uint63.lsl x (Uint63.sub 32 n)) SHA1.mask32).

(** The round constants [K_0 .. K_63], in decimal. *)
Definition K : list int :=
  [
    1116352408; 1899447441; 3049323471; 3921009573;
    961987163; 1508970993; 2453635748; 2870763221;
    3624381080; 310598401; 607225278; 1426881987;
    1925078388; 2162078206; 2614888103; 3248222580;
    3835390401; 4022224774; 264347078; 604807628;
    770255983; 1249150122; 1555081692; 1996064986;
    2554220882; 2821834349; 2952996808; 3210313671;
    3336571891; 3584528711; 113926993; 338241895;
    666307205; 773529912; 1294757372; 1396182291;
    1695183700; 1986661051; 2177026350; 2456956037;
    2730485921; 2820302411; 3259730800; 3345764771;
    3516065817; 3600352804; 4094571909; 275423344;
    430227734; 506948616; 659060556; 883997877;
    958139571; 1322822218; 1537002063; 1747873779;
    1955562222; 2024104815; 2227730452; 2361852424;
    2428436474; 2756734187; 3204031479; 3329325298 ]%uint63.

Definition ssig0 (x : int) : int :=
  Uint63.lxor (Uint63.lxor (rotr32 7 x) (rotr32 18 x)) (Uint63.lsr x 3).
Definition ssig1 (x : int) : int :=
  Uint63.lxor (Uint63.lxor (rotr32 17 x) (rotr32 19 x)) (Uint63.lsr x 10).
Definition bsig0 (x : int) : int :=
  Uint63.lxor (Uint63.lxor (rotr32 2 x) (rotr32 13 x)) (rotr32 22 x).
Definition bsig1 (x : int) : int :=
  Uint63.lxor (Uint63.lxor (rotr32 6 x) (rotr32 11 x)) (rotr32 25 x).
Definition ch (x y z : int) : int :=
  Uint63.lxor (Uint63.land x y) (Uint63.land (Uint63.lxor x SHA1.mask32) z).
Definition maj (x y z : int) : int :=
  Uint63.lxor (Uint63.lxor (Uint63.land x y) (Uint63.land x z)) (Uint63.land y z).

Fixpoint schedule (n : nat) (w : list int) : list int :=
  match n with
  | O => []
  | S n' =>
      match w with
      | w0 :: ((w1 :: _ :: _ :: _ :: _ :: _ :: _ :: _ :: w9 :: _ :: _ :: _
                 :: _ :: w14 :: _) as rest) =>
          let x := SHA1.add32 (SHA1.add32 (ssig1 w14) w9)
                              (SHA1.add32 (ssig0 w1) w0) in
          w0 :: schedule n' (rest ++ [x])
      | _ => w
      end
  end.

Fixpoint rounds (ws ks : list int) (v : list int) : list int :=
  match ws, ks, v with
  | w :: ws', k :: ks', [a; b; c; d; e; f; g; h] =>
      let t1 := SHA1.add32 (SHA1.add32 (SHA1.add32 (SHA1.add32 h (bsig1 e)) (ch e f g)) k) w in
      let t2 := SHA1.add32 (bsig0 a) (maj a b c) in
      rounds ws' ks' [SHA1.add32 t1 t2; a; b; c; SHA1.add32 d t1; e; f; g]
  | _, _, _ => v
  end.

Fixpoint add_words (xs ys : list int) : list int :=
  match xs, ys with
  | x :: xs', y :: ys' => SHA1.add32 x y :: add_words xs' ys'
  | _, _ => []
  end.

Definition block (v : list int) (blk : list int) : list int :=
  add_words v (rounds (schedule 64 (SHA1.be_words blk)) K v).

Fixpoint blocks (fuel : nat) (v : list int) (bs : list int) : list int :=
  match fuel with
  | O => v
  | S f =>
      match bs with
      | [] => v
      | _ => blocks f (block v (firstn 64 bs)) (skipn 64 bs)
      end
  end.

Definition init : list int :=
  [ 1779033703; 3144134277; 1013904242; 2773480762;
    1359893119; 2600822924; 528734635; 1541459225 ]%uint63.

(** [sha256.Sum256(msg)] *)
Definition Sum256 (msg : bytes) : bytes :=
  let p := SHA1.pad (map SHA1.byte_of_Z msg) in
  map SHA1.Z_of_byte (flat_map SHA1.be_bytes4 (blocks (length p) init p)).

End SHA256.

(** ** [crypto/rc4] *)

Module RC4.

Record Cipher := { s : list Z; i : Z; j : Z }.

Definition at_ (st : list Z) (k : Z) : Z := nth (Z.to_nat k) st 0.

Definition swap (st : list Z) (a b : Z) : list Z :=
  <[Z.to_nat a := at_ st b]> (<[Z.to_nat b := at_ st a]> st).

(** The key-scheduling loop of [NewCipher], [i] running over [is_]. *)
Fixpoint key_schedule (key : bytes) (k : Z) (is_ : list Z) (j : Z) (st : list Z)
  : list Z :=
  match is_ with
  | [] => st
  | i :: rest =>
      let j' := (j + at_ st i + at_ key (i mod k)) mod 256 in
      key_schedule key k rest j' (swap st i j')
  end.

Definition identity_state : list Z := map Z.of_nat (seq 0 256).

Definition NewCipher (key : bytes) : result Cipher :=
  let k := Z.of_nat (length key) in
  if (k <? 1) || (256 <? k) then Err "crypto/rc4: invalid key size"
  else Ok {| s := key_schedule key k identity_state 0 identity_state;
             i := 0; j := 0 |}.

(** [c.XORKeyStream(dst, src)]: the output and the advanced cipher. *)
Fixpoint XORKeyStream (c : Cipher) (src : bytes) : bytes * Cipher :=
  match src with
  | [] => ([], c)
  | v :: rest =>
      let i' := (i c + 1) mod 256 in
      let x := at_ (s c) i' in
      let j' := (j c + x) mod 256 in
      let y := at_ (s c) j' in
      let st := swap (s c) i' j' in
      let out := Z.lxor v (at_ st ((x + y) mod 256)) in
      let '(outs, c') := XORKeyStream {| s := st; i := i'; j := j' |} rest in
      (out :: outs, c')
  end.

End RC4.


(** ** A state-and-error monad

    [M S A] is a computation over a mutable world [S] that returns a value or
    an error; the world is threaded through both outcomes. *)

Definition M (S A : Type) : Type := S -> result A * S.

Definition ret {S A} (a : A) : M S A := fun w => (Ok a, w).

Definition fail {S A} (msg : string) : M S A := fun w => (Err msg, w).

Definition bind {S A B} (m : M S A) (k : A -> M S B) : M S B :=
  fun w =>
    match m w with
    | (Ok a, w') => k a w'
    | (Err e, w') => (Err e, w')
    end.

Definition lift {S A} (r : result A) : M S A := fun w => (r, w).

Notation "'let*' x ':=' m 'in' k" := (bind m (fun x => k))
  (at level 10, x pattern, m at level 200, k at level 200).

(** ** Readers

    An [io.Reader] is the list of the bytes it still holds.  The obfuscator
    talks to two of them: the client's stream and [crypto/rand.Reader]
    (a read from an exhausted random source is a failed read). *)

Record IO := { clientReader : bytes; cryptoRand : bytes }.

(** [io.ReadFull(r, buf)] with [len(buf) = n], on a reader holding [r]. *)
Definition read_full (n : nat) (r : bytes) : result bytes * bytes :=
  if (n <=? length r)%nat then (Ok (firstn n r), skipn n r)
  else (Err (if (length r =? 0)%nat then "EOF" else "unexpected EOF"), []).

Definition ReadFull_client (n : nat) : M IO bytes :=
  fun w =>
    let '(r, rest) := read_full n (clientReader w) in
    (r, {| clientReader := rest; cryptoRand := cryptoRand w |}).

(** [common.MakeSecureRandomBytes(length)] *)
Definition MakeSecureRandomBytes (n : nat) : M IO bytes :=
  fun w =>
    let '(r, rest) := read_full n (cryptoRand w) in
    (r, {| clientReader := clientReader w; cryptoRand := rest |}).

(** Modelled from the spec: [prng.NewSeed] is not among the sources; a seed is
    [SEED_LENGTH] cryptographically random bytes. *)
Definition NewSeed `{PRNGInterface PRNG} : M IO bytes :=
  MakeSecureRandomBytes (Z.to_nat SEED_LENGTH).

(** [binary.Read(buffer, binary.BigEndian, &v)] for [v : int32], on a
    [bytes.Reader]: the value and the unread rest. *)
Definition binary_Read_int32 (buffer : bytes) : result (Z * bytes) :=
  if (4 <=? length buffer)%nat then Ok (int32_be (firstn 4 buffer), skipn 4 buffer)
  else Err "unexpected EOF".

(** ** The obfuscator ([psiphon/common/obfuscator]) *)

Module Obfuscator.

Definition OBFUSCATE_SEED_LENGTH : Z := 16.
Definition OBFUSCATE_KEY_LENGTH : Z := 16.
Definition OBFUSCATE_HASH_ITERATIONS : Z := 6000.
Definition OBFUSCATE_MAX_PADDING : Z := 8192.
Definition OBFUSCATE_MAGIC_VALUE : Z := 0x0BF5CA7E.
Definition OBFUSCATE_CLIENT_TO_SERVER_IV : string := "client_to_server".
Definition OBFUSCATE_SERVER_TO_CLIENT_IV : string := "server_to_client".

Record Obfuscator (PRNG : Type) := {
  seedMessage : option bytes;
  paddingLength : Z;
  clientToServerCipher : RC4.Cipher;
  serverToClientCipher : RC4.Cipher;
  paddingPRNGSeed : bytes;
  paddingPRNG : PRNG;
}.
Arguments seedMessage {PRNG} _.
Arguments paddingLength {PRNG} _.
Arguments clientToServerCipher {PRNG} _.
Arguments serverToClientCipher {PRNG} _.
Arguments paddingPRNGSeed {PRNG} _.
Arguments paddingPRNG {PRNG} _.

Record ObfuscatorConfig := {
  Keyword : string;
  PaddingPRNGSeed : option bytes;
  MinPadding : option Z;
  MaxPadding : option Z;
}.

Definition deriveKey (obfuscatorSeed keyword iv : bytes) : result bytes :=
  let digest := SHA1.Sum (obfuscatorSeed ++ keyword ++ iv) in
  let digest := Z.iter OBFUSCATE_HASH_ITERATIONS SHA1.Sum digest in
  if Z.of_nat (length digest) <? OBFUSCATE_KEY_LENGTH then
    ContextError "insufficient bytes for obfuscation key"
  else Ok (firstn (Z.to_nat OBFUSCATE_KEY_LENGTH) digest).

Definition initObfuscatorCiphers (obfuscatorSeed : bytes) (config : ObfuscatorConfig)
  : result (RC4.Cipher * RC4.Cipher) :=
  match deriveKey obfuscatorSeed (bytes_of_string (Keyword config))
          (bytes_of_string OBFUSCATE_CLIENT_TO_SERVER_IV) with
  | Err e => Err e
  | Ok clientToServerKey =>
      match deriveKey obfuscatorSeed (bytes_of_string (Keyword config))
              (bytes_of_string OBFUSCATE_SERVER_TO_CLIENT_IV) with
      | Err e => Err e
      | Ok serverToClientKey =>
          match RC4.NewCipher clientToServerKey with
          | Err e => Err e
          | Ok clientToServerCipher =>
              match RC4.NewCipher serverToClientKey with
              | Err e => Err e
              | Ok serverToClientCipher =>
                  Ok (clientToServerCipher, serverToClientCipher)
              end
          end
      end
  end.

(** The seed message, the padding length, and the advanced cipher and
    generator (both are mutated through their pointers in the source). *)
Definition makeSeedMessage `{PRNGInterface PRNG}
    (paddingPRNG : PRNG) (minPadding maxPadding : Z)
    (obfuscatorSeed : bytes) (clientToServerCipher : RC4.Cipher)
  : result (bytes * Z * RC4.Cipher * PRNG) :=
  let '(padding, paddingPRNG') := Padding paddingPRNG minPadding maxPadding in
  let buffer := obfuscatorSeed
                ++ put_uint32_be OBFUSCATE_MAGIC_VALUE
                ++ put_uint32_be (Z.of_nat (length padding))
                ++ padding in
  let n := length obfuscatorSeed in
  let '(body, cipher') := RC4.XORKeyStream clientToServerCipher (skipn n buffer) in
  Ok (firstn n buffer ++ body, Z.of_nat (length padding), cipher', paddingPRNG').

Definition NewClientObfuscator `{PRNGInterface PRNG} (config : ObfuscatorConfig)
  : M IO (Obfuscator PRNG) :=
  match PaddingPRNGSeed config with
  | None => fail "missing padding seed"
  | Some seed =>
      let paddingPRNG := NewPRNGWithSeed seed in
      let* obfuscatorSeed := MakeSecureRandomBytes (Z.to_nat OBFUSCATE_SEED_LENGTH) in
      let* (clientToServerCipher, serverToClientCipher) :=
        lift (initObfuscatorCiphers obfuscatorSeed config) in
      let minPadding :=
        match MinPadding config with
        | Some m =>
            if (SEED_LENGTH <=? m) && (m <=? OBFUSCATE_MAX_PADDING) then m
            else SEED_LENGTH
        | None => SEED_LENGTH
        end in
      let maxPadding :=
        match MaxPadding config with
        | Some m =>
            if (SEED_LENGTH <=? m) && (m <=? OBFUSCATE_MAX_PADDING)
               && (minPadding <=? m) then m
            else OBFUSCATE_MAX_PADDING
        | None => OBFUSCATE_MAX_PADDING
        end in
      let* (seedMessage, paddingLength, cipher', paddingPRNG') :=
        lift (makeSeedMessage paddingPRNG minPadding maxPadding
                obfuscatorSeed clientToServerCipher) in
      ret {| seedMessage := Some seedMessage;
             paddingLength := paddingLength;
             clientToServerCipher := cipher';
             serverToClientCipher := serverToClientCipher;
             paddingPRNGSeed := seed;
             paddingPRNG := paddingPRNG' |}
  end.

Definition readSeedMessage `{PRNGInterface PRNG} (config : ObfuscatorConfig)
  : M IO (RC4.Cipher * RC4.Cipher * bytes) :=
  let* seed := ReadFull_client (Z.to_nat OBFUSCATE_SEED_LENGTH) in
  let* (clientToServerCipher, serverToClientCipher) :=
    lift (initObfuscatorCiphers seed config) in
  let* fixedLengthFields := ReadFull_client 8 in
  let '(fixedLengthFields, clientToServerCipher) :=
    RC4.XORKeyStream clientToServerCipher fixedLengthFields in
  let* (magicValue, buffer) := lift (binary_Read_int32 fixedLengthFields) in
  let* (paddingLength, _) := lift (binary_Read_int32 buffer) in
  if negb (magicValue =? OBFUSCATE_MAGIC_VALUE) then
    fail "invalid magic value"
  else if (paddingLength <? 0) || (OBFUSCATE_MAX_PADDING <? paddingLength) then
    fail "invalid padding length"
  else
    let* padding := ReadFull_client (Z.to_nat paddingLength) in
    let '(padding, clientToServerCipher) :=
      RC4.XORKeyStream clientToServerCipher padding in
    if SEED_LENGTH <=? Z.of_nat (length padding) then
      ret (clientToServerCipher, serverToClientCipher,
           firstn (Z.to_nat SEED_LENGTH) padding)
    else
      let* paddingPRNGSeed := NewSeed in
      ret (clientToServerCipher, serverToClientCipher, paddingPRNGSeed).

Definition NewServerObfuscator `{PRNGInterface PRNG} (config : ObfuscatorConfig)
  : M IO (Obfuscator PRNG) :=
  let* (clientToServerCipher, serverToClientCipher, paddingPRNGSeed) :=
    readSeedMessage config in
  ret {| seedMessage := None;
         paddingLength := -1;
         clientToServerCipher := clientToServerCipher;
         serverToClientCipher := serverToClientCipher;
         paddingPRNGSeed := paddingPRNGSeed;
         paddingPRNG := NewPRNGWithSeed paddingPRNGSeed |}.

Definition GetPaddingLength {PRNG} (obfuscator : Obfuscator PRNG) : Z :=
  paddingLength obfuscator.

End Obfuscator.

(** *** The methods of an obfuscator

    [SendSeedMessage] and the two [Obfuscate] methods mutate the obfuscator
    through its pointer, and the buffer in place; the model returns the
    bytes left in the buffer and the obfuscator after the call. *)

Module ObfuscatorMethods.

Import Obfuscator.

Definition SendSeedMessage {PRNG} (obfuscator : Obfuscator PRNG)
  : option bytes * Obfuscator PRNG :=
  (seedMessage obfuscator,
   {| seedMessage := None;
      paddingLength := paddingLength obfuscator;
      clientToServerCipher := clientToServerCipher obfuscator;
      serverToClientCipher := serverToClientCipher obfuscator;
      paddingPRNGSeed := paddingPRNGSeed obfuscator;
      paddingPRNG := paddingPRNG obfuscator |}).

Definition ObfuscateClientToServer {PRNG} (obfuscator : Obfuscator PRNG)
    (buffer : bytes) : bytes * Obfuscator PRNG :=
  let '(buffer, cipher) :=
    RC4.XORKeyStream (clientToServerCipher obfuscator) buffer in
  (buffer,
   {| seedMessage := seedMessage obfuscator;
      paddingLength := paddingLength obfuscator;
      clientToServerCipher := cipher;
      serverToClientCipher := serverToClientCipher obfuscator;
      paddingPRNGSeed := paddingPRNGSeed obfuscator;
      paddingPRNG := paddingPRNG obfuscator |}).

Definition ObfuscateServerToClient {PRNG} (obfuscator : Obfuscator PRNG)
    (buffer : bytes) : bytes * Obfuscator PRNG :=
  let '(buffer, cipher) :=
    RC4.XORKeyStream (serverToClientCipher obfuscator) buffer in
  (buffer,
   {| seedMessage := seedMessage obfuscator;
      paddingLength := paddingLength obfuscator;
      clientToServerCipher := clientToServerCipher obfuscator;
      serverToClientCipher := cipher;
      paddingPRNGSeed := paddingPRNGSeed obfuscator;
      paddingPRNG := paddingPRNG obfuscator |}).

End ObfuscatorMethods.

(** ** A reference generator

    A linear congruential generator that implements [PRNGInterface], used to
    run the model on concrete inputs.  [Perm] follows [math/rand.Perm]. *)

Module ReferencePRNG.

Definition next (g : Z) : Z :=
  (g * 6364136223846793005 + 1442695040888963407) mod 2 ^ 64.

Definition of_seed (seed : bytes) : Z :=
  fold_left (fun acc b => (acc * 257 + b) mod 2 ^ 64) seed 1.

Definition intn (g : Z) (n : Z) : Z * Z :=
  let g' := next g in ((g' / 2 ^ 33) mod n, g').

Fixpoint perm_loop (is_ : list nat) (m : list nat) (g : Z) : list nat * Z :=
  match is_ with
  | [] => (m, g)
  | i :: rest =>
      let '(j, g') := intn g (Z.of_nat i + 1) in
      let j := Z.to_nat j in
      perm_loop rest (<[j := i]> (<[i := nth j m 0%nat]> m)) g'
  end.

Definition perm (g : Z) (n : nat) : list nat * Z :=
  perm_loop (seq 0 n) (repeat 0%nat n) g.

Fixpoint random_bytes (n : nat) (g : Z) : bytes * Z :=
  match n with
  | O => ([], g)
  | S n' =>
      let '(b, g') := intn g 256 in
      let '(bs, g'') := random_bytes n' g' in
      (b :: bs, g'')
  end.

Definition padding (g : Z) (lo hi : Z) : bytes * Z :=
  let '(k, g') := intn g (hi - lo + 1) in
  random_bytes (Z.to_nat (lo + k)) g'.

Definition flip (g : Z) : bool * Z :=
  let '(k, g') := intn g 2 in (k =? 1, g').

Lemma intn_range g n : 0 < n -> 0 <= fst (intn g n) < n.
Proof. intros Hn. unfold intn. simpl. apply Z.mod_pos_bound. exact Hn. Qed.

Lemma perm_loop_length is_ : forall m g,
  length (fst (perm_loop is_ m g)) = length m.
Proof.
  induction is_ as [|i rest IH]; intros m g; cbn [perm_loop]; [reflexivity|].
  destruct (intn g (Z.of_nat i + 1)) as [j g'].
  rewrite IH. by rewrite !length_insert.
Qed.

Lemma perm_loop_bound n is_ : forall m g,
  Forall (fun i => (i < n)%nat) is_ ->
  Forall (fun i => (i < n)%nat) m ->
  Forall (fun i => (i < n)%nat) (fst (perm_loop is_ m g)).
Proof.
  induction is_ as [|i rest IH]; intros m g His Hm; cbn [perm_loop]; [exact Hm|].
  destruct (intn g (Z.of_nat i + 1)) as [j g'].
  inversion His as [|? ? Hi Hrest]; subst.
  apply IH; [exact Hrest|].
  assert (Hnth : (nth (Z.to_nat j) m 0 < n)%nat).
  { destruct (decide (Z.to_nat j < length m)%nat) as [Hlt|Hge].
    - rewrite Forall_forall in Hm. apply Hm.
      apply list_elem_of_In. apply nth_In. exact Hlt.
    - rewrite nth_overflow by lia. lia. }
  apply Forall_insert; [|exact Hi].
  apply Forall_insert; [exact Hm|exact Hnth].
Qed.

Lemma perm_length g n : length (fst (perm g n)) = n.
Proof. unfold perm. rewrite perm_loop_length. apply repeat_length. Qed.

Lemma perm_range g n i : In i (fst (perm g n)) -> (i < n)%nat.
Proof.
  intros Hin. unfold perm in Hin.
  assert (H : Forall (fun i => (i < n)%nat)
                (fst (perm_loop (seq 0 n) (repeat 0%nat n) g))).
  { apply perm_loop_bound.
    - apply Forall_forall. intros x Hx. apply list_elem_of_In, in_seq in Hx. lia.
    - apply Forall_forall. intros x Hx. apply list_elem_of_In, repeat_spec in Hx.
      subst x. destruct n; [inversion Hin|lia]. }
  rewrite Forall_forall in H. apply H. by apply list_elem_of_In.
Qed.

Lemma random_bytes_length n : forall g, length (fst (random_bytes n g)) = n.
Proof.
  induction n as [|n IH]; intros g; cbn [random_bytes]; [reflexivity|].
  destruct (intn g 256) as [b g'].
  specialize (IH g'). destruct (random_bytes n g') as [bs g'']. simpl in *.
  by rewrite IH.
Qed.

Lemma padding_length g lo hi :
  0 <= lo <= hi -> lo <= Z.of_nat (length (fst (padding g lo hi))) <= hi.
Proof.
  intros H. unfold padding.
  pose proof (intn_range g (hi - lo + 1)) as Hr.
  destruct (intn g (hi - lo + 1)) as [k g']. simpl in Hr.
  rewrite random_bytes_length. lia.
Qed.

#[global] Instance reference : PRNGInterface Z := {|
  SEED_LENGTH := 32;
  NewPRNGWithSeed := of_seed;
  Intn := intn;
  Perm := perm;
  Padding := padding;
  FlipCoin := flip;
  SEED_LENGTH_pos := eq_refl;
  Intn_range := intn_range;
  Perm_length := perm_length;
  Perm_range := perm_range;
  Padding_length := padding_length;
|}.

End ReferencePRNG.

(** ** Go slices indexed by [int] *)

Definition index {A} (d : A) (l : list A) (i : Z) : A :=
  default d (l !! Z.to_nat i).

(** [l[i], l[j] = l[j], l[i]].  Go panics on an index out of range; the
    callers below only pass indices inside the slice. *)
Definition swap {A} (l : list A) (i j : Z) : list A :=
  match l !! Z.to_nat i, l !! Z.to_nat j with
  | Some x, Some y => <[Z.to_nat i := y]> (<[Z.to_nat j := x]> l)
  | _, _ => l
  end.

(** ** Server entries ([psiphon/common/protocol])

    The package is not part of the sources at hand.  A server entry is kept
    with the fields the data store reads; [ServerEntryFields], the JSON object
    an entry arrives as, is seen through the same fields. *)

Record ServerEntry := {
  IpAddress : string;
  Region : string;
  ConfigurationVersion : Z;
  Capabilities : list string;
  MeekFrontingDomain : string;
  MeekFrontingAddresses : list string;
}.

Definition ServerEntryFields := ServerEntry.

Definition GetIPAddress (fields : ServerEntryFields) : string := IpAddress fields.

Definition GetConfigurationVersion (fields : ServerEntryFields) : Z :=
  ConfigurationVersion fields.

Class ProtocolInterface := {
  ValidateServerEntryFields : ServerEntryFields -> result unit;
  DecodeServerEntry : string -> result ServerEntry;
  GetSupportedTacticsProtocols : ServerEntry -> list string;
  GetSupportedProtocols : bool -> list string -> bool -> ServerEntry -> list string;
}.

(** A value of the server-entries bucket: the JSON document written by
    [json.Marshal] for an entry, or bytes that [json.Unmarshal] rejects.
    Values of other shapes (the JSON value [null], which [json.Unmarshal]
    accepts with a nil entry, or an object without some of the fields) are
    not values of this type. *)
Inductive document :=
| JSON (entry : ServerEntry)
| Malformed (raw : string).

Definition json_Marshal (fields : ServerEntryFields) : result document :=
  Ok (JSON fields).

Definition json_Unmarshal (data : document) : result ServerEntry :=
  match data with
  | JSON entry => Ok entry
  | Malformed _ => Err "invalid character looking for beginning of value"
  end.

(** ** The data store ([psiphon/dataStore.go]) *)

Module DataStore.

Definition datastoreLastServerEntryFilterKey : string := "lastServerEntryFilter".
Definition datastoreAffinityServerEntryIDKey : string := "affinityServerEntryID".

(** The buckets the code under study touches.  [bucket.get] is [!!]
    ([None] for Go's [nil]), [bucket.put] is insertion. *)
Record datastoreDB := {
  serverEntries : gmap string document;
  keyValues : gmap string string;
  dialParameters : gmap string string;
}.

(** The process-wide state: the singleton data store and the default
    generator behind the package-level [prng.Intn]. *)
Record World (PRNG : Type) := {
  activeDatastoreDB : option datastoreDB;
  defaultPRNG : PRNG;
}.
Arguments activeDatastoreDB {PRNG} _.
Arguments defaultPRNG {PRNG} _.

Record Config := {
  EgressRegion : string;
  TargetServerEntry : string;
  NetworkID : string;
  ReplayCandidateCount : Z;
  LimitTunnelProtocols : list string;
  UseUpstreamProxy : bool;
}.

(** A read-only transaction: [fn] sees a snapshot of the store. *)
Definition datastoreView {PRNG A} (fn : datastoreDB -> M (World PRNG) A)
  : M (World PRNG) A :=
  fun w =>
    match activeDatastoreDB w with
    | None => (ContextError "database not open", w)
    | Some db => fn db w
    end.

(** A read-write transaction: committed when [fn] returns no error, rolled
    back otherwise. *)
Definition datastoreUpdate {PRNG A} (fn : M datastoreDB A) : M (World PRNG) A :=
  fun w =>
    match activeDatastoreDB w with
    | None => (ContextError "database not open", w)
    | Some db =>
        match fn db with
        | (Ok a, db') =>
            (Ok a, {| activeDatastoreDB := Some db'; defaultPRNG := defaultPRNG w |})
        | (Err e, _) => (Err e, w)
        end
    end.

Definition put_serverEntry (key : string) (data : document) : M datastoreDB unit :=
  fun db =>
    (Ok tt, {| serverEntries := <[key := data]> (serverEntries db);
               keyValues := keyValues db;
               dialParameters := dialParameters db |}).

Definition put_keyValue (key value : string) : M datastoreDB unit :=
  fun db =>
    (Ok tt, {| serverEntries := serverEntries db;
               keyValues := <[key := value]> (keyValues db);
               dialParameters := dialParameters db |}).

Definition put_dialParameters (key value : string) : M datastoreDB unit :=
  fun db =>
    (Ok tt, {| serverEntries := serverEntries db;
               keyValues := keyValues db;
               dialParameters := <[key := value]> (dialParameters db) |}).

Definition StoreServerEntry `{ProtocolInterface} {PRNG}
    (serverEntryFields : ServerEntryFields) (replaceIfExists : bool)
  : M (World PRNG) unit :=
  match ValidateServerEntryFields serverEntryFields with
  | Err e => fail ("invalid server entry: " +:+ e)
  | Ok _ =>
      datastoreUpdate (fun db =>
        let ipAddress := GetIPAddress serverEntryFields in
        let existingConfigurationVersion :=
          match serverEntries db !! ipAddress with
          | Some existingData =>
              match json_Unmarshal existingData with
              | Ok existingServerEntry => ConfigurationVersion existingServerEntry
              | Err _ => -1
              end
          | None => -1
          end in
        let exists_ := -1 <? existingConfigurationVersion in
        let newer :=
          exists_ && (existingConfigurationVersion
                        <? GetConfigurationVersion serverEntryFields) in
        let update := negb exists_ || replaceIfExists || newer in
        if negb update then (Ok tt, db)
        else
          match json_Marshal serverEntryFields with
          | Err e => (Err e, db)
          | Ok data => put_serverEntry ipAddress data db
          end)
  end.

Definition makeServerEntryFilterValue (config : Config) : result string :=
  Ok (EgressRegion config).

Definition PromoteServerEntry {PRNG} (config : Config) (ipAddress : string)
  : M (World PRNG) unit :=
  datastoreUpdate (fun db =>
    let serverEntryID := ipAddress in
    match serverEntries db !! serverEntryID with
    | None => (Ok tt, db)
    | Some _ =>
        (let* _ := put_keyValue datastoreAffinityServerEntryIDKey serverEntryID in
         let* currentFilter := lift (makeServerEntryFilterValue config) in
         put_keyValue datastoreLastServerEntryFilterKey currentFilter) db
    end).

Definition hasServerEntryFilterChanged {PRNG} (config : Config)
  : M (World PRNG) bool :=
  let* currentFilter := lift (makeServerEntryFilterValue config) in
  datastoreView (fun db =>
    match keyValues db !! datastoreLastServerEntryFilterKey with
    | None => ret true
    | Some previousFilter => ret (negb (String.eqb previousFilter currentFilter))
    end).

Definition makeDialParametersKey (serverIPAddress networkID : string) : string :=
  serverIPAddress +:+ networkID.

Definition SetDialParameters {PRNG} (serverIPAddress networkID dialParams : string)
  : M (World PRNG) unit :=
  datastoreUpdate
    (put_dialParameters (makeDialParametersKey serverIPAddress networkID) dialParams).

Record ServerEntryIterator := {
  config : Config;
  applyServerAffinity : bool;
  serverEntryIDs : list string;
  serverEntryIndex : Z;
  isTacticsServerEntryIterator : bool;
  isTargetServerEntryIterator : bool;
  hasNextTargetServerEntry : bool;
  targetServerEntry : option ServerEntry;
}.

Definition set_ids (iterator : ServerEntryIterator) (ids : list string) (idx : Z)
  : ServerEntryIterator :=
  {| config := config iterator;
     applyServerAffinity := applyServerAffinity iterator;
     serverEntryIDs := ids;
     serverEntryIndex := idx;
     isTacticsServerEntryIterator := isTacticsServerEntryIterator iterator;
     isTargetServerEntryIterator := isTargetServerEntryIterator iterator;
     hasNextTargetServerEntry := hasNextTargetServerEntry iterator;
     targetServerEntry := targetServerEntry iterator |}.

Definition set_hasNext (iterator : ServerEntryIterator) (b : bool)
  : ServerEntryIterator :=
  {| config := config iterator;
     applyServerAffinity := applyServerAffinity iterator;
     serverEntryIDs := serverEntryIDs iterator;
     serverEntryIndex := serverEntryIndex iterator;
     isTacticsServerEntryIterator := isTacticsServerEntryIterator iterator;
     isTargetServerEntryIterator := isTargetServerEntryIterator iterator;
     hasNextTargetServerEntry := b;
     targetServerEntry := targetServerEntry iterator |}.

(** [iterator.Close()] *)
Definition Close (iterator : ServerEntryIterator) : ServerEntryIterator :=
  set_ids iterator [] 0.

(** The keys of a bucket in cursor order (byte-wise ascending). *)
Definition cursor_keys {V} (bucket : gmap string V) : list string :=
  merge_sort (fun a b => Is_true (String.leb a b)) (elements (dom bucket)).

(** *** [ServerEntryIterator.reset]: the three passes over the identifiers *)

(** First pass: the affinity identifier, when it applies, then every key of
    the server-entries bucket but that one.  Returns [shuffleHead] too. *)
Definition collect_ids (db : datastoreDB) (isInitialRound : bool)
    (iterator : ServerEntryIterator) : list string * Z :=
  let affinityServerEntryID :=
    if isInitialRound && applyServerAffinity iterator
    then keyValues db !! datastoreAffinityServerEntryIDKey
    else None in
  let '(serverEntryIDs, shuffleHead) :=
    match affinityServerEntryID with
    | Some id => ([id], 1)
    | None => ([], 0)
    end in
  (serverEntryIDs
     ++ filter (fun key => affinityServerEntryID <> Some key)
          (cursor_keys (serverEntries db)),
   shuffleHead).

(** Second pass: [for i := len-1; i > shuffleHead-1; i--], [i] running over
    [is_]. *)
Fixpoint shuffle_loop `{PRNGInterface PRNG} (is_ : list Z) (shuffleHead : Z)
    (serverEntryIDs : list string) (g : PRNG) : list string * PRNG :=
  match is_ with
  | [] => (serverEntryIDs, g)
  | i :: rest =>
      let '(r, g') := Intn g (i + 1 - shuffleHead) in
      let j := r + shuffleHead in
      shuffle_loop rest shuffleHead (swap serverEntryIDs i j) g'
  end.

Definition shuffle `{PRNGInterface PRNG} (shuffleHead : Z)
    (serverEntryIDs : list string) (g : PRNG) : list string * PRNG :=
  shuffle_loop
    (reverse (seqZ shuffleHead (Z.of_nat (length serverEntryIDs) - shuffleHead)))
    shuffleHead serverEntryIDs g.

(** Third pass: the two-pointer partition.  [has id] tells whether the
    dial-parameters bucket holds a record for [id] on the current network. *)
Section Partition.

Context (has : string -> bool).

Equations? skip_present (ids : list string) (i j : Z) : Z
  by wf (Z.to_nat (j - i)) lt :=
  skip_present ids i j with decide (i < j) => {
    | left _ => if has (index "" ids i) then skip_present ids (i + 1) j else i;
    | right _ => i }.
Proof. lia. Qed.

Equations? skip_absent (ids : list string) (i j : Z) : Z
  by wf (Z.to_nat (j - i)) lt :=
  skip_absent ids i j with decide (i < j) => {
    | left _ => if has (index "" ids j) then j else skip_absent ids i (j - 1);
    | right _ => j }.
Proof. lia. Qed.

Lemma skip_present_bounds ids i j :
  i <= skip_present ids i j /\ (i <= j -> skip_present ids i j <= j).
Proof.
  funelim (skip_present ids i j); [|lia].
  destruct (has (index "" ids i)); lia.
Qed.

Lemma skip_absent_bounds ids i j :
  skip_absent ids i j <= j /\ (i <= j -> i <= skip_absent ids i j).
Proof.
  funelim (skip_absent ids i j); [|lia].
  destruct (has (index "" ids j)); lia.
Qed.

Equations? partition_loop (ids : list string) (i j : Z) : list string
  by wf (Z.to_nat (j - i)) lt :=
  partition_loop ids i j with Logic.inspect (skip_present ids i j) => {
    | exist _ i' Hi with Logic.inspect (skip_absent ids i' j) => {
      | exist _ j' Hj with decide (i' < j') => {
        | left _ => partition_loop (swap ids i' j') (i' + 1) (j' - 1);
        | right _ => ids } } }.
Proof.
  pose proof (skip_present_bounds ids i j) as [H1 _].
  pose proof (skip_absent_bounds ids (skip_present ids i j) j) as [H2 _].
  lia.
Qed.

End Partition.

Definition has_dial_parameters (db : datastoreDB) (networkID : string)
    (serverEntryID : string) : bool :=
  bool_decide (is_Some (dialParameters db
                          !! makeDialParametersKey serverEntryID networkID)).

Definition move_replay_candidates (db : datastoreDB) (networkID : string)
    (shuffleHead : Z) (serverEntryIDs : list string) : list string :=
  partition_loop (has_dial_parameters db networkID) serverEntryIDs
    shuffleHead (Z.of_nat (length serverEntryIDs) - 1).

(** Methods of the iterator run over the iterator and the world. *)
Definition reset `{PRNGInterface PRNG} (isInitialRound : bool)
  : M (ServerEntryIterator * World PRNG) unit :=
  fun '(iterator, w) =>
    let iterator := Close iterator in
    if isTargetServerEntryIterator iterator then
      (Ok tt, (set_hasNext iterator true, w))
    else
      match
        datastoreView (fun db w =>
          let '(serverEntryIDs, shuffleHead) :=
            collect_ids db isInitialRound iterator in
          let '(serverEntryIDs, g) :=
            shuffle shuffleHead serverEntryIDs (defaultPRNG w) in
          let serverEntryIDs :=
            if isInitialRound && (0 <? ReplayCandidateCount (config iterator))
            then move_replay_candidates db (NetworkID (config iterator))
                   shuffleHead serverEntryIDs
            else serverEntryIDs in
          (Ok serverEntryIDs,
           {| activeDatastoreDB := activeDatastoreDB w; defaultPRNG := g |})) w
      with
      | (Err e, w') => (Err e, (iterator, w'))
      | (Ok serverEntryIDs, w') => (Ok tt, (set_ids iterator serverEntryIDs 0, w'))
      end.


Definition MakeCompatibleServerEntry (serverEntry : ServerEntry) : ServerEntry :=
  if (length (MeekFrontingAddresses serverEntry) =? 0)%nat
     && negb (String.eqb (MeekFrontingDomain serverEntry) "")
  then {| IpAddress := IpAddress serverEntry;
          Region := Region serverEntry;
          ConfigurationVersion := ConfigurationVersion serverEntry;
          Capabilities := Capabilities serverEntry;
          MeekFrontingDomain := MeekFrontingDomain serverEntry;
          MeekFrontingAddresses :=
            MeekFrontingAddresses serverEntry ++ [MeekFrontingDomain serverEntry] |}
  else serverEntry.

(** The filter [Next] applies to a decoded entry. *)
Definition passes_filter `{ProtocolInterface} (iterator : ServerEntryIterator)
    (serverEntry : ServerEntry) : bool :=
  if isTacticsServerEntryIterator iterator then
    (0 <? length (GetSupportedTacticsProtocols serverEntry))%nat
  else
    String.eqb (EgressRegion (config iterator)) ""
    || String.eqb (Region serverEntry) (EgressRegion (config iterator)).

(** The loop of [Next]; [pending] is [serverEntryIDs[serverEntryIndex:]].
    The source decodes every record into the one [serverEntry] it declares
    before the loop; here each record is decoded on its own, which is the
    same up to the first record that reaches [json.Unmarshal].

    [failed] tells whether the variable [err] holds an error.  The deferred
    function closes the iterator whenever it does: on an error of the store,
    which [Next] returns, and also when [Next] finds no next item just after
    a record that [json.Unmarshal] rejected, whose error is still in [err]. *)
Fixpoint next_loop `{ProtocolInterface} {PRNG} (pending : list string)
    (failed : bool) (iterator : ServerEntryIterator) (w : World PRNG)
  : result (option ServerEntry) * (ServerEntryIterator * World PRNG) :=
  match pending with
  | [] => (Ok None, (if failed then Close iterator else iterator, w))
  | serverEntryID :: pending' =>
      let iterator :=
        set_ids iterator (serverEntryIDs iterator) (serverEntryIndex iterator + 1) in
      match datastoreView (fun db => ret (serverEntries db !! serverEntryID)) w with
      | (Err e, w') => (Err e, (Close iterator, w'))
      | (Ok None, w') => next_loop pending' false iterator w'
      | (Ok (Some data), w') =>
          match json_Unmarshal data with
          | Err _ => next_loop pending' true iterator w'
          | Ok serverEntry =>
              if passes_filter iterator serverEntry then
                (Ok (Some (MakeCompatibleServerEntry serverEntry)), (iterator, w'))
              else next_loop pending' false iterator w'
          end
      end
  end.

Definition Next `{ProtocolInterface} {PRNG}
  : M (ServerEntryIterator * World PRNG) (option ServerEntry) :=
  fun '(iterator, w) =>
    if isTargetServerEntryIterator iterator then
      if hasNextTargetServerEntry iterator then
        (Ok (MakeCompatibleServerEntry <$> targetServerEntry iterator),
         (set_hasNext iterator false, w))
      else (Ok None, (iterator, w))
    else
      next_loop (drop (Z.to_nat (serverEntryIndex iterator)) (serverEntryIDs iterator))
        false iterator w.

Definition newTargetServerEntryIterator `{ProtocolInterface} {PRNG}
    (config : Config) (isTactics : bool)
  : M (World PRNG) (bool * ServerEntryIterator) :=
  let* serverEntry := lift (DecodeServerEntry (TargetServerEntry config)) in
  let* _ :=
    if isTactics then
      if (length (GetSupportedTacticsProtocols serverEntry) =? 0)%nat
      then fail "TargetServerEntry does not support tactics protocols"
      else ret tt
    else
      if negb (String.eqb (EgressRegion config) "")
         && negb (String.eqb (Region serverEntry) (EgressRegion config))
      then fail "TargetServerEntry does not support EgressRegion"
      else
        if (0 <? length (LimitTunnelProtocols config))%nat
           && (length (GetSupportedProtocols (UseUpstreamProxy config)
                         (LimitTunnelProtocols config) false serverEntry) =? 0)%nat
        then fail "TargetServerEntry does not support LimitTunnelProtocols"
        else ret tt in
  ret (false,
       {| config := config;
          applyServerAffinity := false;
          serverEntryIDs := [];
          serverEntryIndex := 0;
          isTacticsServerEntryIterator := isTactics;
          isTargetServerEntryIterator := true;
          hasNextTargetServerEntry := true;
          targetServerEntry := Some serverEntry |}).

Definition NewServerEntryIterator `{ProtocolInterface} `{PRNGInterface PRNG}
    (config : Config) : M (World PRNG) (bool * ServerEntryIterator) :=
  if negb (String.eqb (TargetServerEntry config) "") then
    newTargetServerEntryIterator config false
  else
    let* filterChanged := hasServerEntryFilterChanged config in
    let applyServerAffinity := negb filterChanged in
    let iterator :=
      {| config := config;
         applyServerAffinity := applyServerAffinity;
         serverEntryIDs := [];
         serverEntryIndex := 0;
         isTacticsServerEntryIterator := false;
         isTargetServerEntryIterator := false;
         hasNextTargetServerEntry := false;
         targetServerEntry := None |} in
    fun w =>
      match reset true (iterator, w) with
      | (Err e, (_, w')) => (Err e, w')
      | (Ok _, (iterator, w')) => (Ok (applyServerAffinity, iterator), w')
      end.

End DataStore.

(** *** The rest of the store's interface

    The functions of [dataStore.go] over the same three buckets that the
    iterator does not need. *)

Module DataStoreAPI.

Import DataStore.

(** [CloseDataStore]: the singleton is dropped; closing a closed store does
    nothing. *)
Definition CloseDataStore {PRNG} (w : World PRNG) : World PRNG :=
  match activeDatastoreDB w with
  | None => w
  | Some _ => {| activeDatastoreDB := None; defaultPRNG := defaultPRNG w |}
  end.

(** [StoreServerEntries]: one transaction per entry, stopping at the first
    error. *)
Fixpoint StoreServerEntries `{ProtocolInterface} {PRNG}
    (serverEntries : list ServerEntryFields) (replaceIfExists : bool)
  : M (World PRNG) unit :=
  match serverEntries with
  | [] => ret tt
  | serverEntryFields :: rest =>
      let* _ := StoreServerEntry serverEntryFields replaceIfExists in
      StoreServerEntries rest replaceIfExists
  end.

(** [scanServerEntries]: the scanner is called on every record that decodes,
    in cursor order.  The source's scanner is a closure that updates
    variables of its caller; here it takes and returns their value. *)
Definition scanServerEntries {PRNG A} (scanner : ServerEntry -> A -> A) (init : A)
  : M (World PRNG) A :=
  datastoreView (fun db =>
    ret (foldl (fun acc key =>
                  match DataStore.serverEntries db !! key with
                  | Some value =>
                      match json_Unmarshal value with
                      | Ok serverEntry => scanner serverEntry acc
                      | Err _ => acc
                      end
                  | None => acc
                  end)
               init (cursor_keys (DataStore.serverEntries db)))).

(** [CountServerEntries]: a failed scan is reported as a notice and counts
    as 0. *)
Definition CountServerEntries {PRNG} (w : World PRNG) : Z :=
  match scanServerEntries (fun _ count => count + 1) 0 w with
  | (Ok count, _) => count
  | (Err _, _) => 0
  end.

Definition NewTacticsServerEntryIterator `{ProtocolInterface} `{PRNGInterface PRNG}
    (config : Config) : M (World PRNG) ServerEntryIterator :=
  if negb (String.eqb (TargetServerEntry config) "") then
    let* (_, iterator) := newTargetServerEntryIterator config true in
    ret iterator
  else
    let iterator :=
      {| DataStore.config := config;
         applyServerAffinity := false;
         serverEntryIDs := [];
         serverEntryIndex := 0;
         isTacticsServerEntryIterator := true;
         isTargetServerEntryIterator := false;
         hasNextTargetServerEntry := false;
         targetServerEntry := None |} in
    fun w =>
      match reset true (iterator, w) with
      | (Err e, (_, w')) => (Err e, w')
      | (Ok _, (iterator, w')) => (Ok iterator, w')
      end.

(** [SetKeyValue] and [GetKeyValue]; [string(nil)] is the empty string. *)
Definition SetKeyValue {PRNG} (key value : string) : M (World PRNG) unit :=
  datastoreUpdate (put_keyValue key value).

Definition GetKeyValue {PRNG} (key : string) : M (World PRNG) string :=
  datastoreView (fun db => ret (default "" (keyValues db !! key))).

Definition delete_dialParameters (key : string) : M datastoreDB unit :=
  fun db =>
    (Ok tt, {| DataStore.serverEntries := DataStore.serverEntries db;
               keyValues := keyValues db;
               dialParameters := delete key (dialParameters db) |}).

(** [GetDialParameters]: [None] for the source's [nil, nil].  The
    [DialParameters] type and its JSON coding are not part of the sources at
    hand; [json_Unmarshal] stands for [json.Unmarshal] into it. *)
Definition GetDialParameters {PRNG DialParameters}
    (json_Unmarshal : string -> result DialParameters)
    (serverIPAddress networkID : string) : M (World PRNG) (option DialParameters) :=
  let key := makeDialParametersKey serverIPAddress networkID in
  let* data := datastoreView (fun db => ret (dialParameters db !! key)) in
  match data with
  | None => ret None
  | Some data =>
      let* dialParams := lift (json_Unmarshal data) in
      ret (Some dialParams)
  end.

Definition DeleteDialParameters {PRNG} (serverIPAddress networkID : string)
  : M (World PRNG) unit :=
  datastoreUpdate
    (delete_dialParameters (makeDialParametersKey serverIPAddress networkID)).

End DataStoreAPI.

(** A reference [ProtocolInterface]: an entry needs an identifier, decoding a
    target entry is not supported, and an entry supports the protocols it
    lists as capabilities. *)
#[global] Instance reference_protocol : ProtocolInterface := {|
  ValidateServerEntryFields fields :=
    if String.eqb (GetIPAddress fields) "" then Err "server entry has invalid ipAddress"
    else Ok tt;
  DecodeServerEntry _ := Err "unsupported";
  GetSupportedTacticsProtocols serverEntry := Capabilities serverEntry;
  GetSupportedProtocols _ limit _ serverEntry :=
    filter (fun c => c ∈ limit) (Capabilities serverEntry);
|}.

(** ** TLS profiles ([psiphon/common/protocol])

    The profile names and their classification are not part of the sources at
    hand. *)

Class TLSProfileInterface := {
  SupportedTLSProfiles : list string;
  TLS_PROFILE_IOS_1131 : string;
  TLS_PROFILE_ANDROID_60 : string;
  TLS_PROFILE_ANDROID_51 : string;
  TLS_PROFILE_CHROME_58 : string;
  TLS_PROFILE_CHROME_57 : string;
  TLS_PROFILE_FIREFOX_56 : string;
  TLS_PROFILE_RANDOMIZED : string;
  TLS_PROFILE_TLS13_RANDOMIZED : string;
  TLSProfileIsRandomized : string -> bool;
  TLSProfileIsTLS13 : string -> bool;
}.

#[global] Instance reference_profiles : TLSProfileInterface := {|
  SupportedTLSProfiles :=
    ["iOS-Safari-11.3.1"; "Android-6.0"; "Android-5.1"; "Chrome-58"; "Chrome-57";
     "Firefox-56"; "Randomized"; "TLS-1.3-Randomized"];
  TLS_PROFILE_IOS_1131 := "iOS-Safari-11.3.1";
  TLS_PROFILE_ANDROID_60 := "Android-6.0";
  TLS_PROFILE_ANDROID_51 := "Android-5.1";
  TLS_PROFILE_CHROME_58 := "Chrome-58";
  TLS_PROFILE_CHROME_57 := "Chrome-57";
  TLS_PROFILE_FIREFOX_56 := "Firefox-56";
  TLS_PROFILE_RANDOMIZED := "Randomized";
  TLS_PROFILE_TLS13_RANDOMIZED := "TLS-1.3-Randomized";
  TLSProfileIsRandomized p :=
    String.eqb p "Randomized" || String.eqb p "TLS-1.3-Randomized";
  TLSProfileIsTLS13 p := String.eqb p "TLS-1.3-Randomized";
|}.

(** [utls.ClientHelloID] *)
Inductive ClientHelloID :=
| HelloGolang
| HelloCustom
| HelloRandomized
| HelloRandomizedALPN
| HelloRandomizedNoALPN
| HelloFirefox_Auto
| HelloFirefox_55
| HelloFirefox_56
| HelloChrome_Auto
| HelloChrome_57
| HelloChrome_58
| HelloChrome_62
| HelloiOSSafari_11_3_1
| HelloAndroid_Auto
| HelloAndroid_6_0_Browser
| HelloAndroid_5_1_Browser.

(** ** [encoding/hex] *)

Definition hex_digit (a : Ascii.ascii) : option Z :=
  let n := Z.of_N (Ascii.N_of_ascii a) in
  if (48 <=? n) && (n <=? 57) then Some (n - 48)
  else if (97 <=? n) && (n <=? 102) then Some (n - 97 + 10)
  else if (65 <=? n) && (n <=? 70) then Some (n - 65 + 10)
  else None.

Fixpoint hex_decode (src : list Ascii.ascii) : result bytes :=
  match src with
  | [] => Ok []
  | [a] =>
      match hex_digit a with
      | Some _ => Err "encoding/hex: odd length hex string"
      | None => Err "encoding/hex: invalid byte"
      end
  | a :: b :: rest =>
      match hex_digit a, hex_digit b with
      | Some x, Some y =>
          match hex_decode rest with
          | Ok bs => Ok (16 * x + y :: bs)
          | Err e => Err e
          end
      | _, _ => Err "encoding/hex: invalid byte"
      end
  end.

Definition hex_DecodeString (s : string) : result bytes :=
  hex_decode (String.list_ascii_of_string s).

(** ** The custom TLS dialer ([psiphon/tlsDialer.go]) *)

Module TLSDialer.

Record Certificate := { Raw : bytes }.

(** What [ConnectionState()] reports after a handshake. *)
Record ConnectionState := {
  PeerCertificates : list Certificate;
  NegotiatedProtocol : string;
  NegotiatedProtocolIsMutual : bool;
}.

Inductive provider := utls_provider | tris_provider.

(** The [utls.Config] or [tris.Config] the dialer assembles, with what it
    passes to [utls.UClient] besides. *)
Record tlsConfig := {
  tls_provider : provider;
  RootCAs : option bytes;
  InsecureSkipVerify : bool;
  ServerName : string;
  ClientHelloPRNGSeed : option bytes;
  clientHelloID : option ClientHelloID;
  sessionState : option bytes;
}.

(** A [tlsConn]: a [net.Conn] over the raw connection with [Handshake],
    [GetPeerCertificates] and [IsHTTP2]. *)
Record tlsConn := {
  conn_config : tlsConfig;
  conn_state : ConnectionState;
}.

Definition GetPeerCertificates (conn : tlsConn) : list Certificate :=
  PeerCertificates (conn_state conn).

Definition IsHTTP2 (conn : tlsConn) : bool :=
  NegotiatedProtocolIsMutual (conn_state conn)
  && String.eqb (NegotiatedProtocol (conn_state conn)) "h2".

Record CustomTLSConfig := {
  LimitTLSProfiles : list string;
  DialAddr : string;
  UseDialAddrSNI : bool;
  SNIServerName : string;
  SkipVerify : bool;
  VerifyLegacyCertificate : option Certificate;
  TLSProfile : string;
  TrustedCACertificatesFilename : string;
  ObfuscatedSessionTicketKey : string;
  RandomizedTLSProfileSeed : option bytes;
}.

(** How the race between the handshake goroutine and [ctx.Done()] ends. *)
Inductive race :=
| HandshakeReturns
| ContextDone (err : string).

(** What the dialer's collaborators answer: the caller-supplied raw dialer,
    [net.SplitHostPort], [ioutil.ReadFile],
    [utls.NewObfuscatedClientSessionState], the peer (through [Handshake]),
    the scheduler, and [x509.Certificate.Verify]. *)
Record Environment := {
  Dial : string -> string -> result unit;
  SplitHostPort : string -> result (string * string);
  ReadFile : string -> result bytes;
  NewObfuscatedClientSessionState : bytes -> result bytes;
  Handshake : tlsConfig -> result ConnectionState;
  select : race;
  x509_Verify : string -> list Certificate -> result unit;
}.

(** The raw connection, the random source and the default generator. *)
Record World (PRNG : Type) := {
  rawConnOpen : bool;
  rawConnCloseCalls : nat;
  secureRandom : bytes;
  defaultPRNG : PRNG;
}.
Arguments rawConnOpen {PRNG} _.
Arguments rawConnCloseCalls {PRNG} _.
Arguments secureRandom {PRNG} _.
Arguments defaultPRNG {PRNG} _.

Definition rawConn_Close {PRNG} : M (World PRNG) unit :=
  fun w =>
    (Ok tt, {| rawConnOpen := false;
               rawConnCloseCalls := S (rawConnCloseCalls w);
               secureRandom := secureRandom w;
               defaultPRNG := defaultPRNG w |}).

Definition config_Dial {PRNG} (env : Environment) (network dialAddr : string)
  : M (World PRNG) unit :=
  fun w =>
    match Dial env network dialAddr with
    | Err e => (Err e, w)
    | Ok _ =>
        (Ok tt, {| rawConnOpen := true;
                   rawConnCloseCalls := rawConnCloseCalls w;
                   secureRandom := secureRandom w;
                   defaultPRNG := defaultPRNG w |})
    end.

Definition prng_Intn `{PRNGInterface PRNG} (n : Z) : M (World PRNG) Z :=
  fun w =>
    let '(r, g) := Intn (defaultPRNG w) n in
    (Ok r, {| rawConnOpen := rawConnOpen w;
              rawConnCloseCalls := rawConnCloseCalls w;
              secureRandom := secureRandom w;
              defaultPRNG := g |}).

(** [prng.NewSeed()], on this module's world. *)
Definition prng_NewSeed `{PRNGInterface PRNG} : M (World PRNG) bytes :=
  fun w =>
    let '(r, rest) := read_full (Z.to_nat SEED_LENGTH) (secureRandom w) in
    (r, {| rawConnOpen := rawConnOpen w;
           rawConnCloseCalls := rawConnCloseCalls w;
           secureRandom := rest;
           defaultPRNG := defaultPRNG w |}).

Definition SelectTLSProfile `{TLSProfileInterface} `{PRNGInterface PRNG}
    (limitTLSProfiles : list string) : M (World PRNG) string :=
  let tlsProfiles :=
    filter (fun tlsProfile =>
              ~ ((0 < length limitTLSProfiles)%nat /\ tlsProfile ∉ limitTLSProfiles))
           SupportedTLSProfiles in
  if (length tlsProfiles =? 0)%nat then ret ""
  else
    let* choice := prng_Intn (Z.of_nat (length tlsProfiles)) in
    ret (index "" tlsProfiles choice).

Definition useUTLS `{TLSProfileInterface} (tlsProfile : string) : bool :=
  negb (String.eqb tlsProfile TLS_PROFILE_TLS13_RANDOMIZED).

Definition getUTLSClientHelloID `{TLSProfileInterface} (tlsProfile : string)
  : ClientHelloID :=
  if String.eqb tlsProfile TLS_PROFILE_IOS_1131 then HelloiOSSafari_11_3_1
  else if String.eqb tlsProfile TLS_PROFILE_ANDROID_60 then HelloAndroid_6_0_Browser
  else if String.eqb tlsProfile TLS_PROFILE_ANDROID_51 then HelloAndroid_5_1_Browser
  else if String.eqb tlsProfile TLS_PROFILE_CHROME_58 then HelloChrome_58
  else if String.eqb tlsProfile TLS_PROFILE_CHROME_57 then HelloChrome_57
  else if String.eqb tlsProfile TLS_PROFILE_FIREFOX_56 then HelloFirefox_56
  else if String.eqb tlsProfile TLS_PROFILE_RANDOMIZED then HelloRandomized
  else HelloGolang.

Definition verifyLegacyCertificate (conn : tlsConn)
    (expectedCertificate : Certificate) : result unit :=
  match GetPeerCertificates conn with
  | [] => ContextError "no certificate to verify"
  | cert :: _ =>
      if bool_decide (Raw cert = Raw expectedCertificate) then Ok tt
      else ContextError "unexpected certificate"
  end.

(** [certs[0]] panics on an empty chain, and the panic leaves [CustomTLSDial]
    before it closes the raw connection; the model reports an error, which
    [CustomTLSDial] handles as any other. *)
Definition verifyServerCerts (env : Environment) (conn : tlsConn)
    (hostname : string) : result unit :=
  match GetPeerCertificates conn with
  | [] => Err "index out of range"
  | certs => x509_Verify env hostname certs
  end.

Definition CustomTLSDial `{TLSProfileInterface} `{PRNGInterface PRNG}
    (env : Environment) (network addr : string) (config : CustomTLSConfig)
  : M (World PRNG) tlsConn :=
  let dialAddr :=
    if negb (String.eqb (DialAddr config) "") then DialAddr config else addr in
  let* _ := config_Dial env network dialAddr in
  match SplitHostPort env dialAddr with
  | Err e => let* _ := rawConn_Close in fail e
  | Ok (hostname, _) =>
      let* selectedTLSProfile :=
        if String.eqb (TLSProfile config) ""
        then SelectTLSProfile (LimitTLSProfiles config)
        else ret (TLSProfile config) in
      let tlsConfigInsecureSkipVerify := SkipVerify config in
      let '(tlsConfigServerName, tlsConfigInsecureSkipVerify) :=
        if UseDialAddrSNI config then (hostname, tlsConfigInsecureSkipVerify)
        else if negb (String.eqb (SNIServerName config) "")
                && bool_decide (VerifyLegacyCertificate config = None)
        then (SNIServerName config, tlsConfigInsecureSkipVerify)
        else ("", true) in
      let* obfuscatedSessionTicketKey :=
        if negb (String.eqb (ObfuscatedSessionTicketKey config) "") then
          match hex_DecodeString (ObfuscatedSessionTicketKey config) with
          | Err e => fail e
          | Ok key =>
              if negb (length key =? 32)%nat
              then fail "invalid obfuscated session key length"
              else ret key
          end
        else ret (repeat 0 32) in
      let* tlsRootCAs :=
        if negb (SkipVerify config)
           && bool_decide (VerifyLegacyCertificate config = None)
           && negb (String.eqb (TrustedCACertificatesFilename config) "")
        then
          match ReadFile env (TrustedCACertificatesFilename config) with
          | Err e => fail e
          | Ok certData => ret (Some certData)
          end
        else ret None in
      let* randomizedTLSProfileSeed :=
        if TLSProfileIsRandomized selectedTLSProfile
           && bool_decide (RandomizedTLSProfileSeed config = None)
        then let* seed := prng_NewSeed in ret (Some seed)
        else ret (RandomizedTLSProfileSeed config) in
      let* conn_tlsConfig :=
        if useUTLS selectedTLSProfile then
          let* sessionState :=
            if negb (String.eqb (ObfuscatedSessionTicketKey config) "") then
              match NewObfuscatedClientSessionState env obfuscatedSessionTicketKey with
              | Err e => fail e
              | Ok st => ret (Some st)
              end
            else ret None in
          ret {| tls_provider := utls_provider;
                 RootCAs := tlsRootCAs;
                 InsecureSkipVerify := tlsConfigInsecureSkipVerify;
                 ServerName := tlsConfigServerName;
                 ClientHelloPRNGSeed := randomizedTLSProfileSeed;
                 clientHelloID := Some (getUTLSClientHelloID selectedTLSProfile);
                 sessionState := sessionState |}
        else
          if negb (TLSProfileIsTLS13 selectedTLSProfile)
          then fail "TLS profile is not TLS 1.3"
          else
            ret {| tls_provider := tris_provider;
                   RootCAs := tlsRootCAs;
                   InsecureSkipVerify := tlsConfigInsecureSkipVerify;
                   ServerName := tlsConfigServerName;
                   ClientHelloPRNGSeed := randomizedTLSProfileSeed;
                   clientHelloID := None;
                   sessionState := None |} in
      let* handshake :=
        match select env with
        | HandshakeReturns => ret (Handshake env conn_tlsConfig)
        | ContextDone err => let* _ := rawConn_Close in ret (Err err)
        end in
      match handshake with
      | Err e => let* _ := rawConn_Close in fail e
      | Ok state =>
          let conn := {| conn_config := conn_tlsConfig; conn_state := state |} in
          let err :=
            if negb (SkipVerify config) && tlsConfigInsecureSkipVerify then
              match VerifyLegacyCertificate config with
              | Some expected => verifyLegacyCertificate conn expected
              | None => verifyServerCerts env conn hostname
              end
            else Ok tt in
          match err with
          | Err e => let* _ := rawConn_Close in fail e
          | Ok _ => ret conn
          end
      end
  end.

End TLSDialer.

(** ** Randomized ClientHello assembly ([utls/u_parrots.go]) *)

Module UTLS.

(** TLS registry values the parrots use. *)
Definition VersionTLS12 : Z := 0x0303.
Definition compressionNone : Z := 0.
Definition pointFormatUncompressed : Z := 0.
Definition hashSHA1 : Z := 2.
Definition hashSHA256 : Z := 4.
Definition hashSHA384 : Z := 5.
Definition disabledHashSHA512 : Z := 6.
Definition signatureRSA : Z := 1.
Definition signatureECDSA : Z := 3.
Definition X25519 : Z := 29.
Definition CurveP256 : Z := 23.
Definition CurveP384 : Z := 24.
Definition CurveP521 : Z := 25.
Definition RenegotiateOnceAsClient : Z := 1.

Record cipherSuite := { suite_id : Z; suite_flags : Z }.

Record SignatureAndHash := { sah_hash : Z; sah_signature : Z }.

Record ClientSessionState := { SessionTicket : bytes }.

Inductive TLSExtension :=
| SNIExtension (ServerName : string)
| SessionTicketExtension (Session : option ClientSessionState)
| SignatureAlgorithmsExtension (SignatureAndHashes : list SignatureAndHash)
| StatusRequestExtension
| SCTExtension
| SupportedPointsExtension (SupportedPoints : bytes)
| SupportedCurvesExtension (Curves : list Z)
| utlsPaddingExtension
| RenegotiationInfoExtension (renegotiation : Z)
| ALPNExtension (AlpnProtocols : list string).

Record clientHelloMsg := {
  Vers : Z;
  Random : bytes;
  SessionId : bytes;
  CipherSuites : list Z;
  CompressionMethods : list Z;
}.

Record UConn := {
  clientHelloID : ClientHelloID;
  clientHelloPRNGSeed : option bytes;
  config_ServerName : string;
  config_NextProtos : list string;
  Hello : clientHelloMsg;
  Session : option ClientSessionState;
  Extensions : list TLSExtension;
}.

(** What lies outside the randomized parrots: the cipher suite table, the
    default suites, [float32] arithmetic ([f32_lit n d] is the literal [n/d]),
    and the hard-coded parrots ([parrotFirefox_55] and the like), which take
    the connection and [config.rand()] and are not reproduced. *)
Class UTLSInterface := {
  cipherSuites : list cipherSuite;
  suiteTLS12 : Z;
  defaultCipherSuites : list Z;
  float32 : Type;
  f32_of_int : Z -> float32;
  f32_lit : Z -> Z -> float32;
  f32_mul : float32 -> float32 -> float32;
  f32_div : float32 -> float32 -> float32;
  f32_le : float32 -> float32 -> bool;
  fixedParrot : ClientHelloID -> UConn -> bytes -> result UConn * bytes;
}.

(** The connection under construction, [config.rand()] and the default
    generator behind the package-level [prng.FlipCoin]. *)
Record State (PRNG : Type) := {
  uconn : UConn;
  config_rand : bytes;
  defaultPRNG : PRNG;
}.
Arguments uconn {PRNG} _.
Arguments config_rand {PRNG} _.
Arguments defaultPRNG {PRNG} _.

Definition get_uconn {PRNG} : M (State PRNG) UConn :=
  fun st => (Ok (uconn st), st).

Definition put_uconn {PRNG} (u : UConn) : M (State PRNG) unit :=
  fun st =>
    (Ok tt, {| uconn := u; config_rand := config_rand st;
               defaultPRNG := defaultPRNG st |}).

Definition set_Hello (u : UConn) (h : clientHelloMsg) : UConn :=
  {| clientHelloID := clientHelloID u;
     clientHelloPRNGSeed := clientHelloPRNGSeed u;
     config_ServerName := config_ServerName u;
     config_NextProtos := config_NextProtos u;
     Hello := h;
     Session := Session u;
     Extensions := Extensions u |}.

Definition set_Extensions (u : UConn) (exts : list TLSExtension) : UConn :=
  {| clientHelloID := clientHelloID u;
     clientHelloPRNGSeed := clientHelloPRNGSeed u;
     config_ServerName := config_ServerName u;
     config_NextProtos := config_NextProtos u;
     Hello := Hello u;
     Session := Session u;
     Extensions := exts |}.

Definition set_NextProtos (u : UConn) (protos : list string) : UConn :=
  {| clientHelloID := clientHelloID u;
     clientHelloPRNGSeed := clientHelloPRNGSeed u;
     config_ServerName := config_ServerName u;
     config_NextProtos := protos;
     Hello := Hello u;
     Session := Session u;
     Extensions := Extensions u |}.

Definition set_clientHelloID (u : UConn) (id : ClientHelloID) : UConn :=
  {| clientHelloID := id;
     clientHelloPRNGSeed := clientHelloPRNGSeed u;
     config_ServerName := config_ServerName u;
     config_NextProtos := config_NextProtos u;
     Hello := Hello u;
     Session := Session u;
     Extensions := Extensions u |}.

(** [io.ReadFull(uconn.config.rand(), buf)] *)
Definition rand_ReadFull {PRNG} (n : nat) : M (State PRNG) bytes :=
  fun st =>
    let '(r, rest) := read_full n (config_rand st) in
    (r, {| uconn := uconn st; config_rand := rest;
           defaultPRNG := defaultPRNG st |}).

(** The package-level [prng.FlipCoin()] *)
Definition prng_FlipCoin `{PRNGInterface PRNG} : M (State PRNG) bool :=
  fun st =>
    let '(b, g) := FlipCoin (defaultPRNG st) in
    (Ok b, {| uconn := uconn st; config_rand := config_rand st;
              defaultPRNG := g |}).

(** [hello] is a pointer: what the function has written before it fails
    stays written.  After a short read [hello.Random] is the 32-byte buffer
    with the bytes that were read at its start. *)
Definition fillClientHelloHeader `{UTLSInterface} {PRNG} : M (State PRNG) unit :=
  let* u := get_uconn in
  let hello := Hello u in
  let Vers' := if Vers hello =? 0 then VersionTLS12 else Vers hello in
  let written Random' :=
    set_Hello u {| Vers := Vers';
                   Random := Random';
                   SessionId := SessionId hello;
                   CipherSuites := CipherSuites hello;
                   CompressionMethods := CompressionMethods hello |} in
  let* Random' :=
    match length (Random hello) with
    | 0%nat =>
        fun st =>
          match rand_ReadFull 32 st with
          | (Ok r, st') => (Ok r, st')
          | (Err e, st') =>
              (Err ("tls: short read from Rand: " +:+ e),
               {| uconn := written (take 32 (config_rand st ++ repeat 0 32));
                  config_rand := config_rand st';
                  defaultPRNG := defaultPRNG st' |})
          end
    | 32%nat => ret (Random hello)
    | _ =>
        fun st =>
          (Err ("ClientHello expected length: 32 bytes. Got: "
                +:+ pretty (length (Random hello)) +:+ " bytes"),
           {| uconn := written (Random hello);
              config_rand := config_rand st;
              defaultPRNG := defaultPRNG st |})
    end in
  let CipherSuites' :=
    if (length (CipherSuites hello) =? 0)%nat then defaultCipherSuites
    else CipherSuites hello in
  let CompressionMethods' :=
    if (length (CompressionMethods hello) =? 0)%nat then [compressionNone]
    else CompressionMethods hello in
  put_uconn (set_Hello u {| Vers := Vers';
                            Random := Random';
                            SessionId := SessionId hello;
                            CipherSuites := CipherSuites';
                            CompressionMethods := CompressionMethods' |}).

Definition tossBiasedCoin `{UTLSInterface} `{PRNGInterface PRNG}
    (g : PRNG) (probability : float32) : bool * PRNG :=
  let precision := 0xffff in
  let threshold := f32_mul (f32_of_int precision) probability in
  let '(value, g') := Intn g precision in
  (f32_le (f32_of_int value) threshold, g').

Equations? removeRandomCiphers_loop `{UTLSInterface} `{PRNGInterface PRNG}
    (maxRemovalProbability floatLen : float32)
    (g : PRNG) (s : list Z) (sliceLen i : Z) : list Z * PRNG
  by wf (Z.to_nat (sliceLen - i)) lt :=
  removeRandomCiphers_loop maxRemovalProbability floatLen g s sliceLen i
    with decide (i < sliceLen) => {
    | right _ => (s, g)
    | left _ with
        Logic.inspect
          (tossBiasedCoin g
             (f32_div (f32_mul maxRemovalProbability (f32_of_int i)) floatLen)) => {
      | exist _ (true, g') _ =>
          removeRandomCiphers_loop maxRemovalProbability floatLen g'
            (take (Z.to_nat i) s ++ drop (Z.to_nat (i + 1)) s) (sliceLen - 1) i
      | exist _ (false, g') _ =>
          removeRandomCiphers_loop maxRemovalProbability floatLen g'
            s sliceLen (i + 1) } }.
Proof. all: lia. Qed.

Definition removeRandomCiphers `{UTLSInterface} `{PRNGInterface PRNG}
    (g : PRNG) (s : list Z) (maxRemovalProbability : float32) : list Z * PRNG :=
  if (length s <=? 1)%nat then (s, g)
  else
    let floatLen := f32_of_int (Z.of_nat (length s)) in
    let sliceLen := Z.of_nat (length s) in
    removeRandomCiphers_loop maxRemovalProbability floatLen g s sliceLen 1.

Record sortableCipher := {
  isObsolete : bool;
  randomTag : Z;
  suite : Z;
}.

Definition Less (a b : sortableCipher) : bool :=
  if isObsolete a && negb (isObsolete b) then false
  else if isObsolete b && negb (isObsolete a) then true
  else randomTag a <? randomTag b.

(** [sort.Sort(ciphers)].  The random tags are pairwise distinct, so [Less]
    orders the ciphers totally and every sorting algorithm returns the same
    slice; the model inserts. *)
Fixpoint sort_insert (c : sortableCipher) (l : list sortableCipher)
  : list sortableCipher :=
  match l with
  | [] => [c]
  | x :: rest => if Less x c then x :: sort_insert c rest else c :: l
  end.

Definition sort_Sort (ciphers : list sortableCipher) : list sortableCipher :=
  fold_right sort_insert [] ciphers.

Definition shuffledCiphers `{UTLSInterface} `{PRNGInterface PRNG} (g : PRNG)
  : result (list Z) * PRNG :=
  let '(perm, g') := Perm g (length cipherSuites) in
  let ciphers :=
    imap (fun i s =>
            {| suite := suite_id s;
               isObsolete := Z.land (suite_flags s) suiteTLS12 =? 0;
               randomTag := Z.of_nat (nth i perm 0%nat) |})
         cipherSuites in
  (Ok (map suite (sort_Sort ciphers)), g').

(** [for i := range s { s[i], s[perm[i]] = s[perm[i]], s[i] }], [i] running
    over [is_]. *)
Fixpoint shuffle_swaps {A} (is_ : list nat) (perm : list nat) (s : list A) : list A :=
  match is_ with
  | [] => s
  | i :: rest =>
      shuffle_swaps rest perm
        (swap s (Z.of_nat i) (Z.of_nat (nth i perm 0%nat)))
  end.

Definition shuffleTLSExtensions `{PRNGInterface PRNG} (g : PRNG)
    (s : list TLSExtension) : list TLSExtension * PRNG :=
  let '(perm, g') := Perm g (length s) in
  (shuffle_swaps (seq 0 (length s)) perm s, g').

Definition shuffleSignatures `{PRNGInterface PRNG} (g : PRNG)
    (s : list SignatureAndHash) : list SignatureAndHash * PRNG :=
  let '(perm, g') := Perm g (length s) in
  (shuffle_swaps (seq 0 (length s)) perm s, g').

Definition parrotRandomizedNoALPN `{UTLSInterface} `{PRNGInterface PRNG}
  : M (State PRNG) unit :=
  let* u := get_uconn in
  match clientHelloPRNGSeed u with
  | None => fail "missing UConn.clientHelloPRNGSeed"
  | Some seed =>
      let g := NewPRNGWithSeed seed in
      let hello := Hello u in
      let session := Session u in
      let '(shuffled, g) := shuffledCiphers g in
      match shuffled with
      | Err e => fail e
      | Ok shuffledSuites =>
          let '(suites, g) := removeRandomCiphers g shuffledSuites (f32_lit 4 10) in
          let* _ :=
            put_uconn (set_Hello u {| Vers := Vers hello;
                                      Random := Random hello;
                                      SessionId := SessionId hello;
                                      CipherSuites := suites;
                                      CompressionMethods := CompressionMethods hello |}) in
          let* _ := fillClientHelloHeader in
          let* u := get_uconn in
          let hello := Hello u in
          let sni := SNIExtension (config_ServerName u) in
          let sessionTicket := SessionTicketExtension session in
          let SessionId' :=
            match session with
            | Some sess =>
                if (0 <? length (SessionTicket sess))%nat
                then SHA256.Sum256 (SessionTicket sess)
                else SessionId hello
            | None => SessionId hello
            end in
          let sigAndHashAlgos :=
            [ {| sah_hash := hashSHA256; sah_signature := signatureECDSA |};
              {| sah_hash := hashSHA256; sah_signature := signatureRSA |};
              {| sah_hash := hashSHA384; sah_signature := signatureECDSA |};
              {| sah_hash := hashSHA384; sah_signature := signatureRSA |};
              {| sah_hash := hashSHA1; sah_signature := signatureRSA |} ] in
          let '(c, g) := tossBiasedCoin g (f32_lit 5 10) in
          let sigAndHashAlgos :=
            if c then sigAndHashAlgos
                      ++ [{| sah_hash := disabledHashSHA512; sah_signature := signatureECDSA |}]
            else sigAndHashAlgos in
          let '(c, g) := tossBiasedCoin g (f32_lit 5 10) in
          let sigAndHashAlgos :=
            if c then sigAndHashAlgos
                      ++ [{| sah_hash := disabledHashSHA512; sah_signature := signatureRSA |}]
            else sigAndHashAlgos in
          let '(c, g) := tossBiasedCoin g (f32_lit 5 10) in
          let sigAndHashAlgos :=
            if c then sigAndHashAlgos
                      ++ [{| sah_hash := hashSHA1; sah_signature := signatureECDSA |}]
            else sigAndHashAlgos in
          let '(sigAndHashAlgos, g) := shuffleSignatures g sigAndHashAlgos in
          let sigAndHash := SignatureAlgorithmsExtension sigAndHashAlgos in
          let status := StatusRequestExtension in
          let sct := SCTExtension in
          let points := SupportedPointsExtension [pointFormatUncompressed] in
          let curveIDs := [] in
          let '(c, g) := tossBiasedCoin g (f32_lit 7 10) in
          let curveIDs := if c then curveIDs ++ [X25519] else curveIDs in
          let curveIDs := curveIDs ++ [CurveP256; CurveP384] in
          let '(c, g) := tossBiasedCoin g (f32_lit 3 10) in
          let curveIDs := if c then curveIDs ++ [CurveP521] else curveIDs in
          let curves := SupportedCurvesExtension curveIDs in
          let padding := utlsPaddingExtension in
          let reneg := RenegotiationInfoExtension RenegotiateOnceAsClient in
          let exts := [sni; sessionTicket; sigAndHash; points; curves] in
          let '(c, g) := tossBiasedCoin g (f32_lit 66 100) in
          let exts := if c then exts ++ [padding] else exts in
          let '(c, g) := tossBiasedCoin g (f32_lit 66 100) in
          let exts := if c then exts ++ [status] else exts in
          let '(c, g) := tossBiasedCoin g (f32_lit 55 100) in
          let exts := if c then exts ++ [sct] else exts in
          let '(c, g) := tossBiasedCoin g (f32_lit 44 100) in
          let exts := if c then exts ++ [reneg] else exts in
          let '(exts, g) := shuffleTLSExtensions g exts in
          put_uconn
            (set_Extensions
               (set_Hello u {| Vers := Vers hello;
                               Random := Random hello;
                               SessionId := SessionId';
                               CipherSuites := CipherSuites hello;
                               CompressionMethods := CompressionMethods hello |})
               exts)
      end
  end.

(** The error of [parrotRandomizedNoALPN] is returned after the ALPN
    extension has been appended. *)
Definition parrotRandomizedALPN `{UTLSInterface} `{PRNGInterface PRNG}
  : M (State PRNG) unit :=
  fun st =>
    let '(err, st) := parrotRandomizedNoALPN st in
    let u := uconn st in
    let u :=
      if (length (config_NextProtos u) =? 0)%nat
      then set_NextProtos u ["h2"; "http/1.1"] else u in
    let alpn := ALPNExtension (config_NextProtos u) in
    let u := set_Extensions u (Extensions u ++ [alpn]) in
    (err, {| uconn := u; config_rand := config_rand st;
             defaultPRNG := defaultPRNG st |}).

Definition parrotCustom `{UTLSInterface} {PRNG} : M (State PRNG) unit :=
  fillClientHelloHeader.

Definition parrotFixed `{UTLSInterface} {PRNG} (parrot : ClientHelloID)
  : M (State PRNG) unit :=
  fun st =>
    match fixedParrot parrot (uconn st) (config_rand st) with
    | (Ok u, rest) =>
        (Ok tt, {| uconn := u; config_rand := rest; defaultPRNG := defaultPRNG st |})
    | (Err e, rest) =>
        (Err e, {| uconn := uconn st; config_rand := rest;
                   defaultPRNG := defaultPRNG st |})
    end.

Definition set_id {PRNG} (id : ClientHelloID) : M (State PRNG) unit :=
  let* u := get_uconn in put_uconn (set_clientHelloID u id).

(** [generateClientHelloConfig] on an identifier that is not an alias. *)
Definition generateClientHelloConfig_direct `{UTLSInterface} `{PRNGInterface PRNG}
    (id : ClientHelloID) : M (State PRNG) unit :=
  let* _ := set_id id in
  match id with
  | HelloFirefox_56 | HelloFirefox_55 => parrotFixed HelloFirefox_55
  | HelloAndroid_6_0_Browser => parrotFixed HelloAndroid_6_0_Browser
  | HelloAndroid_5_1_Browser => parrotFixed HelloAndroid_5_1_Browser
  | HelloChrome_62 | HelloChrome_58 => parrotFixed HelloChrome_58
  | HelloChrome_57 => parrotFixed HelloChrome_57
  | HelloiOSSafari_11_3_1 => parrotFixed HelloiOSSafari_11_3_1
  | HelloRandomizedALPN => parrotRandomizedALPN
  | HelloRandomizedNoALPN => parrotRandomizedNoALPN
  | HelloCustom => parrotCustom
  | _ => fail "Unknown ParrotID"
  end.

(** The aliases call [generateClientHelloConfig] again, once. *)
Definition generateClientHelloConfig `{UTLSInterface} `{PRNGInterface PRNG}
    (id : ClientHelloID) : M (State PRNG) unit :=
  match id with
  | HelloRandomized =>
      let* _ := set_id id in
      let* coin := prng_FlipCoin in
      if coin then generateClientHelloConfig_direct HelloRandomizedALPN
      else generateClientHelloConfig_direct HelloRandomizedNoALPN
  | HelloAndroid_Auto =>
      let* _ := set_id id in
      generateClientHelloConfig_direct HelloAndroid_6_0_Browser
  | HelloFirefox_Auto =>
      let* _ := set_id id in
      generateClientHelloConfig_direct HelloFirefox_56
  | HelloChrome_Auto =>
      let* _ := set_id id in
      generateClientHelloConfig_direct HelloChrome_62
  | _ => generateClientHelloConfig_direct id
  end.

End UTLS.

(** A reference [UTLSInterface]: the suites of [crypto/tls] with their
    flags, exact rational arithmetic for [float32], and no hard-coded
    parrot. *)
#[global] Instance reference_utls : UTLS.UTLSInterface := {|
  UTLS.cipherSuites :=
    [ {| UTLS.suite_id := 0xcca8; UTLS.suite_flags := 5 |};
      {| UTLS.suite_id := 0xcca9; UTLS.suite_flags := 7 |};
      {| UTLS.suite_id := 0xc02f; UTLS.suite_flags := 5 |};
      {| UTLS.suite_id := 0xc02b; UTLS.suite_flags := 7 |};
      {| UTLS.suite_id := 0xc030; UTLS.suite_flags := 13 |};
      {| UTLS.suite_id := 0xc02c; UTLS.suite_flags := 15 |};
      {| UTLS.suite_id := 0xc013; UTLS.suite_flags := 1 |};
      {| UTLS.suite_id := 0xc009; UTLS.suite_flags := 3 |};
      {| UTLS.suite_id := 0xc014; UTLS.suite_flags := 1 |};
      {| UTLS.suite_id := 0xc00a; UTLS.suite_flags := 3 |};
      {| UTLS.suite_id := 0x009c; UTLS.suite_flags := 4 |};
      {| UTLS.suite_id := 0x009d; UTLS.suite_flags := 12 |};
      {| UTLS.suite_id := 0x002f; UTLS.suite_flags := 0 |};
      {| UTLS.suite_id := 0x0035; UTLS.suite_flags := 0 |};
      {| UTLS.suite_id := 0xc012; UTLS.suite_flags := 1 |};
      {| UTLS.suite_id := 0x000a; UTLS.suite_flags := 0 |} ];
  UTLS.suiteTLS12 := 4;
  UTLS.defaultCipherSuites :=
    [0xcca8; 0xcca9; 0xc02f; 0xc02b; 0xc030; 0xc02c; 0xc013; 0xc009; 0xc014;
     0xc00a; 0x009c; 0x009d; 0x002f; 0x0035; 0xc012; 0x000a];
  UTLS.float32 := Q;
  UTLS.f32_of_int := inject_Z;
  UTLS.f32_lit n d := Qmake n (Z.to_pos d);
  UTLS.f32_mul := Qmult;
  UTLS.f32_div := Qdiv;
  UTLS.f32_le := Qle_bool;
  UTLS.fixedParrot _ u rand := (Err "parrot not reproduced", rand);
|}.

(** ** Concrete inputs used to run the model *)

Module Examples.

Import Obfuscator.

Definition seed : bytes := [0; 1; 2; 3; 4; 5; 6; 7; 8; 9; 10; 11; 12; 13; 14; 15].

Definition config : ObfuscatorConfig :=
  {| Keyword := "secret";
     PaddingPRNGSeed := Some (repeat 1 32);
     MinPadding := None;
     MaxPadding := None |}.

(** A configuration whose padding bounds lie just outside the range. *)
Definition out_of_range_config : ObfuscatorConfig :=
  {| Keyword := "secret";
     PaddingPRNGSeed := Some (repeat 1 32);
     MinPadding := Some 31;
     MaxPadding := Some 8193 |}.

Definition clientToServerKey : bytes :=
  [211; 234; 18; 192; 115; 117; 175; 2; 82; 177; 215; 231; 169; 247; 134; 108].

Definition serverToClientKey : bytes :=
  [26; 53; 212; 124; 233; 226; 95; 39; 54; 157; 161; 24; 82; 140; 159; 161].

Definition cipher_of (key : bytes) : RC4.Cipher :=
  match RC4.NewCipher key with
  | Ok c => c
  | Err _ => {| RC4.s := []; RC4.i := 0; RC4.j := 0 |}
  end.

(** Eight bytes that do not decrypt to the magic value. *)
Definition garbage_fields : bytes := [0; 0; 0; 0; 0; 0; 0; 0].

(** The magic value and the length 4, then four bytes of padding, as a
    legacy client encrypts them under [clientToServerKey]. *)
Definition legacy_fields : bytes := [62; 147; 100; 194; 158; 90; 60; 53].
Definition legacy_padding : bytes := [79; 239; 184; 33].

Definition server_world (stream : bytes) : IO :=
  {| clientReader := stream; cryptoRand := repeat 7 40 |}.

Definition client_world : IO :=
  {| clientReader := []; cryptoRand := seed ++ [42] |}.

End Examples.

Module StoreExamples.

Import DataStore.

Definition entry (ipAddress region : string) (version : Z) : ServerEntry :=
  {| IpAddress := ipAddress;
     Region := region;
     ConfigurationVersion := version;
     Capabilities := [];
     MeekFrontingDomain := "";
     MeekFrontingAddresses := [] |}.

Definition config_US : Config :=
  {| EgressRegion := "US";
     TargetServerEntry := "";
     NetworkID := "wifi";
     ReplayCandidateCount := 1;
     LimitTunnelProtocols := [];
     UseUpstreamProxy := false |}.

Definition empty_world : World Z :=
  {| activeDatastoreDB :=
       Some {| serverEntries := ∅; keyValues := ∅; dialParameters := ∅ |};
     defaultPRNG := 7 |}.

(** The world after a call that returns no value. *)
Definition after (m : M (World Z) unit) (w : World Z) : World Z := snd (m w).

(** Two stores of the same server with negative configuration versions. *)
Definition negative_world_1 : World Z :=
  after (StoreServerEntry (entry "10.0.0.1" "US" (-2)) false) empty_world.
Definition negative_world_2 : World Z :=
  after (StoreServerEntry (entry "10.0.0.1" "US" (-3)) false) negative_world_1.

(** Servers A and B in region US; A is promoted under the US filter and then
    replaced by a newer entry that places it in region CA. *)
Definition stale_affinity_world : World Z :=
  after (StoreServerEntry (entry "10.0.0.1" "CA" 1) false)
    (after (PromoteServerEntry config_US "10.0.0.1")
       (after (StoreServerEntry (entry "10.0.0.2" "US" 0) false)
          (after (StoreServerEntry (entry "10.0.0.1" "US" 0) false) empty_world))).

(** Servers A and B in region US, B promoted under the US filter. *)
Definition affinity_world : World Z :=
  after (PromoteServerEntry config_US "10.0.0.2")
    (after (StoreServerEntry (entry "10.0.0.2" "US" 0) false)
       (after (StoreServerEntry (entry "10.0.0.1" "US" 0) false) empty_world)).

(** Servers A and B, with a dial-parameters record for B on the current
    network only. *)
Definition replay_world : World Z :=
  after (SetDialParameters "10.0.0.2" "wifi" "{}")
    (after (StoreServerEntry (entry "10.0.0.2" "US" 0) false)
       (after (StoreServerEntry (entry "10.0.0.1" "US" 0) false) empty_world)).

Definition fresh_iterator (config : Config) : ServerEntryIterator :=
  {| DataStore.config := config;
     applyServerAffinity := false;
     serverEntryIDs := [];
     serverEntryIndex := 0;
     isTacticsServerEntryIterator := false;
     isTargetServerEntryIterator := false;
     hasNextTargetServerEntry := false;
     targetServerEntry := None |}.

Definition db_of (w : World Z) : datastoreDB :=
  default {| serverEntries := ∅; keyValues := ∅; dialParameters := ∅ |}
    (activeDatastoreDB w).

End StoreExamples.

Module DialExamples.

Import TLSDialer.

Definition certificate : Certificate := {| Raw := [48; 130; 1; 10] |}.

(** A run in which every collaborator answers well: the raw dial succeeds,
    the address splits, and the peer completes the handshake over HTTP/2. *)
Definition cooperative : Environment :=
  {| Dial := fun _ _ => Ok tt;
     SplitHostPort := fun _ => Ok ("example.org", "443");
     ReadFile := fun _ => Err "open: no such file or directory";
     NewObfuscatedClientSessionState := fun key => Ok key;
     Handshake := fun _ =>
       Ok {| PeerCertificates := [certificate];
             NegotiatedProtocol := "h2";
             NegotiatedProtocolIsMutual := true |};
     select := HandshakeReturns;
     x509_Verify := fun _ _ => Ok tt |}.

(** The same run, but the peer aborts the handshake. *)
Definition failing_handshake : Environment :=
  {| Dial := fun _ _ => Ok tt;
     SplitHostPort := fun _ => Ok ("example.org", "443");
     ReadFile := fun _ => Err "open: no such file or directory";
     NewObfuscatedClientSessionState := fun key => Ok key;
     Handshake := fun _ => Err "remote error: handshake failure";
     select := HandshakeReturns;
     x509_Verify := fun _ _ => Ok tt |}.

Definition config : CustomTLSConfig :=
  {| LimitTLSProfiles := [];
     DialAddr := "";
     UseDialAddrSNI := true;
     SNIServerName := "";
     SkipVerify := false;
     VerifyLegacyCertificate := None;
     TLSProfile := "Chrome-58";
     TrustedCACertificatesFilename := "";
     ObfuscatedSessionTicketKey := "";
     RandomizedTLSProfileSeed := None |}.

(** [config] with an obfuscated session ticket key that is valid hex of the
    wrong length. *)
Definition short_key_config : CustomTLSConfig :=
  {| LimitTLSProfiles := [];
     DialAddr := "";
     UseDialAddrSNI := true;
     SNIServerName := "";
     SkipVerify := false;
     VerifyLegacyCertificate := None;
     TLSProfile := "Chrome-58";
     TrustedCACertificatesFilename := "";
     ObfuscatedSessionTicketKey := "00ff";
     RandomizedTLSProfileSeed := None |}.

(** [config] with a trusted CA file that cannot be read. *)
Definition missing_ca_config : CustomTLSConfig :=
  {| LimitTLSProfiles := [];
     DialAddr := "";
     UseDialAddrSNI := true;
     SNIServerName := "";
     SkipVerify := false;
     VerifyLegacyCertificate := None;
     TLSProfile := "Chrome-58";
     TrustedCACertificatesFilename := "/etc/ssl/missing.pem";
     ObfuscatedSessionTicketKey := "";
     RandomizedTLSProfileSeed := None |}.

Definition world : World Z :=
  {| rawConnOpen := false;
     rawConnCloseCalls := 0;
     secureRandom := repeat 5 64;
     defaultPRNG := 11 |}.

End DialExamples.

Module HelloExamples.

Import UTLS.

Definition connection : UConn :=
  {| clientHelloID := HelloGolang;
     clientHelloPRNGSeed := Some (repeat 3 32);
     config_ServerName := "example.org";
     config_NextProtos := [];
     Hello := {| Vers := 0; Random := []; SessionId := [];
                 CipherSuites := []; CompressionMethods := [] |};
     Session := None;
     Extensions := [] |}.

(** The same connection and seed, with two different random sources and
    default generators. *)
Definition state_1 : State Z :=
  {| uconn := connection; config_rand := repeat 7 32; defaultPRNG := 1 |}.
Definition state_2 : State Z :=
  {| uconn := connection; config_rand := repeat 9 32; defaultPRNG := 3 |}.

(** The connection with a client random of [random] already set, over a
    random source that holds [source]. *)
Definition with_random (random source : bytes) : State Z :=
  {| uconn := set_Hello connection
                {| Vers := 0; Random := random; SessionId := [];
                   CipherSuites := []; CompressionMethods := [] |};
     config_rand := source;
     defaultPRNG := 1 |}.

End HelloExamples.

Module RoundTripExamples.

Import Obfuscator.

(** The magic value and the length 8193, as encrypted under
    [Examples.clientToServerKey]. *)
Definition oversize_fields : bytes := [62; 147; 100; 194; 158; 90; 28; 48].

(** A client and a server obfuscator after the seed message: the ciphers
    of each direction in the same state on both sides. *)
Definition client : Obfuscator Z :=
  {| seedMessage := None;
     paddingLength := 32;
     clientToServerCipher := Examples.cipher_of Examples.clientToServerKey;
     serverToClientCipher := Examples.cipher_of Examples.serverToClientKey;
     paddingPRNGSeed := repeat 1 32;
     paddingPRNG := 1 |}.

Definition server : Obfuscator Z :=
  {| seedMessage := None;
     paddingLength := -1;
     clientToServerCipher := Examples.cipher_of Examples.clientToServerKey;
     serverToClientCipher := Examples.cipher_of Examples.serverToClientKey;
     paddingPRNGSeed := repeat 2 32;
     paddingPRNG := 2 |}.

End RoundTripExamples.

Module StoreAPIExamples.

Import DataStore StoreExamples.

(** Three entries for two servers, the second older than the first. *)
Definition batch : list ServerEntryFields :=
  [entry "10.0.0.1" "US" 2; entry "10.0.0.1" "CA" 1; entry "10.0.0.2" "US" 0].

(** An entry without an address, which validation rejects. *)
Definition nameless : ServerEntryFields := entry "" "US" 0.

(** An iterator over servers A and B, at its start. *)
Definition listed_iterator : ServerEntryIterator :=
  set_ids (fresh_iterator config_US) ["10.0.0.1"; "10.0.0.2"] 0.

(** A store that holds server B alone. *)
Definition second_server_world : World Z :=
  after (StoreServerEntry (entry "10.0.0.2" "US" 0) false) empty_world.

(** A store in which the record of server B is cut short. *)
Definition truncated_record_world : World Z :=
  {| activeDatastoreDB :=
       Some {| serverEntries :=
                 <["10.0.0.2" := Malformed "{"]>
                   (<["10.0.0.1" := JSON (entry "10.0.0.1" "CA" 0)]> ∅);
               keyValues := ∅;
               dialParameters := ∅ |};
     defaultPRNG := 7 |}.


Definition config_target : Config :=
  {| EgressRegion := "US";
     TargetServerEntry := "10.0.0.9";
     NetworkID := "wifi";
     ReplayCandidateCount := 1;
     LimitTunnelProtocols := [];
     UseUpstreamProxy := false |}.


End StoreAPIExamples.

Module DialerExamples.

Import TLSDialer.

(** A configuration that pins the server's legacy certificate and sends no
    server name. *)
Definition legacy_config : CustomTLSConfig :=
  {| LimitTLSProfiles := [];
     DialAddr := "";
     UseDialAddrSNI := false;
     SNIServerName := "";
     SkipVerify := false;
     VerifyLegacyCertificate := Some DialExamples.certificate;
     TLSProfile := "Chrome-58";
     TrustedCACertificatesFilename := "";
     ObfuscatedSessionTicketKey := "";
     RandomizedTLSProfileSeed := None |}.

(** A run in which the context is cancelled while the handshake is under
    way. *)
Definition cancelled : Environment :=
  {| Dial := fun _ _ => Ok tt;
     SplitHostPort := fun _ => Ok ("example.org", "443");
     ReadFile := fun _ => Err "open: no such file or directory";
     NewObfuscatedClientSessionState := fun key => Ok key;
     Handshake := fun _ =>
       Ok {| PeerCertificates := [DialExamples.certificate];
             NegotiatedProtocol := "h2";
             NegotiatedProtocolIsMutual := true |};
     select := ContextDone "context canceled";
     x509_Verify := fun _ _ => Ok tt |}.

End DialerExamples.

(** ** Vocabulary of the properties

    Notions the statements below are written with; none of them is in the
    source. *)

(** The lower bound [NewClientObfuscator] hands to the padding generator: the
    configured minimum when it lies in [[SEED_LENGTH, 8192]], and
    [SEED_LENGTH] otherwise. *)
Definition effective_minPadding `{PRNGInterface PRNG}
    (config : Obfuscator.ObfuscatorConfig) : Z :=
  match Obfuscator.MinPadding config with
  | Some m =>
      if (SEED_LENGTH <=? m) && (m <=? Obfuscator.OBFUSCATE_MAX_PADDING) then m
      else SEED_LENGTH
  | None => SEED_LENGTH
  end.

(** The upper bound: the configured maximum when it lies in
    [[SEED_LENGTH, 8192]] and is not below the lower bound, and 8192
    otherwise. *)
Definition effective_maxPadding `{PRNGInterface PRNG}
    (config : Obfuscator.ObfuscatorConfig) : Z :=
  match Obfuscator.MaxPadding config with
  | Some m =>
      if (SEED_LENGTH <=? m) && (m <=? Obfuscator.OBFUSCATE_MAX_PADDING)
         && (effective_minPadding (PRNG := PRNG) config <=? m) then m
      else Obfuscator.OBFUSCATE_MAX_PADDING
  | None => Obfuscator.OBFUSCATE_MAX_PADDING
  end.

(** Slots [lo .. hi-1] hold identifiers with a record. *)
Definition all_present (has : string -> bool) (ids : list string) (lo hi : Z) : Prop :=
  forall (p : nat) (x : string),
    lo <= Z.of_nat p < hi -> ids !! p = Some x -> has x = true.

(** Slots [lo+1 ..] hold identifiers without one. *)
Definition all_absent (has : string -> bool) (ids : list string) (lo : Z) : Prop :=
  forall (q : nat) (x : string),
    lo < Z.of_nat q -> ids !! q = Some x -> has x = false.

(** From slot [head] on, every identifier with a record precedes every
    identifier without. *)
Definition partitioned (has : string -> bool) (head : Z) (ids : list string) : Prop :=
  forall (p q : nat) (x y : string),
    head <= Z.of_nat p -> head <= Z.of_nat q ->
    ids !! p = Some x -> ids !! q = Some y ->
    has x = true -> has y = false -> (p < q)%nat.

(** Slots [lo+1 .. hi] hold identifiers without a record. *)
Definition absent_between (has : string -> bool) (ids : list string) (lo hi : Z) : Prop :=
  forall (q : nat) (x : string),
    lo < Z.of_nat q <= hi -> ids !! q = Some x -> has x = false.

(** The configuration version of the record stored for [ipAddress], when
    there is one and it decodes. *)
Definition stored_version (db : DataStore.datastoreDB) (ipAddress : string) : option Z :=
  match DataStore.serverEntries db !! ipAddress with
  | Some data =>
      match json_Unmarshal data with
      | Ok serverEntry => Some (ConfigurationVersion serverEntry)
      | Err _ => None
      end
  | None => None
  end.

(** The version [StoreServerEntry] compares an incoming entry with: that of
    the stored record when it decodes to a version that is not negative. *)
Definition existing_version (db : DataStore.datastoreDB) (ipAddress : string)
  : option Z :=
  match stored_version db ipAddress with
  | Some v => if 0 <=? v then Some v else None
  | None => None
  end.



(** A connection with the 32-byte client random blanked: what is left is
    what the assembler chooses. *)
Definition erase_random (u : UTLS.UConn) : UTLS.UConn :=
  UTLS.set_Hello u {| UTLS.Vers := UTLS.Vers (UTLS.Hello u);
                 UTLS.Random := [];
                 UTLS.SessionId := UTLS.SessionId (UTLS.Hello u);
                 UTLS.CipherSuites := UTLS.CipherSuites (UTLS.Hello u);
                 UTLS.CompressionMethods := UTLS.CompressionMethods (UTLS.Hello u) |}.

(** What makes [Next] return an entry: the filter of the iterator. *)
Definition accepted `{ProtocolInterface} (iterator : DataStore.ServerEntryIterator)
    (serverEntry : ServerEntry) : Prop :=
  if DataStore.isTacticsServerEntryIterator iterator
  then GetSupportedTacticsProtocols serverEntry <> []
  else DataStore.EgressRegion (DataStore.config iterator) = ""
       \/ Region serverEntry = DataStore.EgressRegion (DataStore.config iterator).

(** Whether the record under a key decodes. *)
Definition decodes (bucket : gmap string document) (key : string) : bool :=
  match bucket !! key with
  | Some (JSON _) => true
  | _ => false
  end.

(** A list of ciphers in which no obsolete one comes before a modern one. *)
Fixpoint modern_first (l : list UTLS.sortableCipher) : Prop :=
  match l with
  | [] => True
  | c :: rest =>
      modern_first rest
      /\ (UTLS.isObsolete c = true -> Forall (fun c' => UTLS.isObsolete c' = true) rest)
  end.

(** * Properties *)

(** ** Test vectors for the primitives *)

Example SHA1_abc :
  SHA1.Sum (bytes_of_string "abc")
  = [0xa9; 0x99; 0x3e; 0x36; 0x47; 0x06; 0x81; 0x6a; 0xba; 0x3e;
     0x25; 0x71; 0x78; 0x50; 0xc2; 0x6c; 0x9c; 0xd0; 0xd8; 0x9d].
Proof. vm_compute. reflexivity. Qed.

Example SHA1_two_blocks :
  SHA1.Sum (bytes_of_string
              "abcdbcdecdefdefgefghfghighijhijkijkljklmklmnlmnomnopnopq")
  = [0x84; 0x98; 0x3e; 0x44; 0x1c; 0x3b; 0xd2; 0x6e; 0xba; 0xae;
     0x4a; 0xa1; 0xf9; 0x51; 0x29; 0xe5; 0xe5; 0x46; 0x70; 0xf1].
Proof. vm_compute. reflexivity. Qed.

Example SHA256_abc :
  SHA256.Sum256 (bytes_of_string "abc")
  = [0xba; 0x78; 0x16; 0xbf; 0x8f; 0x01; 0xcf; 0xea; 0x41; 0x41; 0x40;
     0xde; 0x5d; 0xae; 0x22; 0x23; 0xb0; 0x03; 0x61; 0xa3; 0x96; 0x17;
     0x7a; 0x9c; 0xb4; 0x10; 0xff; 0x61; 0xf2; 0x00; 0x15; 0xad].
Proof. vm_compute. reflexivity. Qed.

Example RC4_Key_Plaintext :
  (match RC4.NewCipher (bytes_of_string "Key") with
   | Ok c => fst (RC4.XORKeyStream c (bytes_of_string "Plaintext"))
   | Err _ => []
   end)
  = [0xbb; 0xf3; 0x16; 0xe8; 0xd9; 0x40; 0xaf; 0x0a; 0xd3].
Proof. vm_compute. reflexivity. Qed.

(** The digests are never unfolded in the proofs below. *)
#[global] Opaque SHA1.Sum SHA256.Sum256.

(** ** Readers and the primitives *)

Lemma read_full_app (a b : bytes) n :
  length a = n -> read_full n (a ++ b) = (Ok a, b).
Proof.
  intros Hn. unfold read_full.
  assert (Hle : (n <=? length (a ++ b))%nat = true).
  { apply Nat.leb_le. rewrite length_app. lia. }
  rewrite Hle. subst n.
  by rewrite firstn_app, Nat.sub_diag, firstn_all, firstn_O, app_nil_r,
       skipn_app, Nat.sub_diag, skipn_all, skipn_O.
Qed.

Lemma read_full_short (r : bytes) n :
  (length r < n)%nat -> exists e, read_full n r = (Err e, []).
Proof.
  intros Hn. unfold read_full.
  assert (Hle : (n <=? length r)%nat = false) by (apply Nat.leb_gt; lia).
  rewrite Hle. eauto.
Qed.

Lemma SHA1_Sum_length (msg : bytes) : length (SHA1.Sum msg) = 20%nat.
Proof.
  Local Transparent SHA1.Sum.
  unfold SHA1.Sum, SHA1.digest_words.
  rewrite length_map, !length_app. reflexivity.
  Local Opaque SHA1.Sum.
Qed.

Lemma Z_iter_invariant {A} (P : A -> Prop) (f : A -> A) (n : Z) (x : A) :
  P x -> (forall y, P y -> P (f y)) -> P (Z.iter n f x).
Proof.
  intros Hx Hf. destruct n as [|p|p]; simpl; try exact Hx.
  apply Pos.iter_invariant; [|exact Hx]. intros y Hy. by apply Hf.
Qed.

Lemma XORKeyStream_length (src : bytes) : forall c,
  length (fst (RC4.XORKeyStream c src)) = length src.
Proof.
  induction src as [|v rest IH]; intros c; [reflexivity|].
  cbn [RC4.XORKeyStream].
  match goal with |- context [RC4.XORKeyStream ?c' rest] =>
    specialize (IH c'); destruct (RC4.XORKeyStream c' rest) as [outs c''] end.
  simpl in *. by rewrite IH.
Qed.

(** ** The obfuscator *)

Section ObfuscatorFacts.

Import Obfuscator.

Lemma rehash_length (msg : bytes) :
  length (Z.iter 6000 SHA1.Sum (SHA1.Sum msg)) = 20%nat.
Proof.
  apply (Z_iter_invariant (fun d => length d = 20%nat)).
  - apply SHA1_Sum_length.
  - intros y _. apply SHA1_Sum_length.
Qed.

(** The key of a direction is the first 16 bytes of the SHA-1 digest of
    seed, keyword and direction tag, hashed again 6000 times; the derivation
    cannot fail. *)
Lemma deriveKey_spec (obfuscatorSeed keyword iv : bytes) :
  deriveKey obfuscatorSeed keyword iv
  = Ok (firstn 16 (Z.iter 6000 SHA1.Sum
                     (SHA1.Sum (obfuscatorSeed ++ keyword ++ iv)))).
Proof.
  unfold deriveKey, OBFUSCATE_HASH_ITERATIONS, OBFUSCATE_KEY_LENGTH.
  pose proof (rehash_length (obfuscatorSeed ++ keyword ++ iv)) as Hlen.
  set (d := Z.iter 6000 SHA1.Sum _) in *. clearbody d.
  rewrite Hlen. reflexivity.
Qed.

Lemma deriveKey_length (obfuscatorSeed keyword iv key : bytes) :
  deriveKey obfuscatorSeed keyword iv = Ok key -> length key = 16%nat.
Proof.
  rewrite deriveKey_spec.
  pose proof (rehash_length (obfuscatorSeed ++ keyword ++ iv)) as Hlen.
  set (d := Z.iter 6000 SHA1.Sum _) in *. clearbody d.
  intros [= <-]. rewrite length_firstn, Hlen. reflexivity.
Qed.

Lemma NewCipher_16 (key : bytes) :
  length key = 16%nat -> exists c, RC4.NewCipher key = Ok c.
Proof.
  intros Hlen. unfold RC4.NewCipher. rewrite Hlen.
  change (Z.of_nat 16 <? 1) with false.
  change (256 <? Z.of_nat 16) with false.
  cbn [orb]. eauto.
Qed.

Lemma initObfuscatorCiphers_total (obfuscatorSeed : bytes) (config : ObfuscatorConfig) :
  exists c2s s2c, initObfuscatorCiphers obfuscatorSeed config = Ok (c2s, s2c).
Proof.
  unfold initObfuscatorCiphers.
  destruct (deriveKey obfuscatorSeed (bytes_of_string (Keyword config))
              (bytes_of_string OBFUSCATE_CLIENT_TO_SERVER_IV)) as [k1|e] eqn:E1;
    [|rewrite deriveKey_spec in E1; set (d := firstn _ _) in E1; clearbody d;
      discriminate].
  destruct (deriveKey obfuscatorSeed (bytes_of_string (Keyword config))
              (bytes_of_string OBFUSCATE_SERVER_TO_CLIENT_IV)) as [k2|e] eqn:E2;
    [|rewrite deriveKey_spec in E2; set (d := firstn _ _) in E2; clearbody d;
      discriminate].
  destruct (NewCipher_16 k1 (deriveKey_length _ _ _ _ E1)) as [c1 ->].
  destruct (NewCipher_16 k2 (deriveKey_length _ _ _ _ E2)) as [c2 ->].
  eauto.
Qed.

(** The ciphers depend on the seed and the keyword alone: the padding bounds
    and the padding seed of the configuration play no part. *)
Lemma initObfuscatorCiphers_padding_independent
    (obfuscatorSeed : bytes) (config config' : ObfuscatorConfig) :
  Keyword config = Keyword config' ->
  initObfuscatorCiphers obfuscatorSeed config
  = initObfuscatorCiphers obfuscatorSeed config'.
Proof. intros Hk. unfold initObfuscatorCiphers. by rewrite Hk. Qed.

(** The two directions hash different messages. *)
Lemma direction_inputs_differ (obfuscatorSeed keyword : bytes) :
  obfuscatorSeed ++ keyword ++ bytes_of_string OBFUSCATE_CLIENT_TO_SERVER_IV
  <> obfuscatorSeed ++ keyword ++ bytes_of_string OBFUSCATE_SERVER_TO_CLIENT_IV.
Proof.
  intros H. apply app_inv_head in H. apply app_inv_head in H. discriminate H.
Qed.

End ObfuscatorFacts.

Section ObfuscatorServer.

Import Obfuscator.
Context `{PRNGInterface PRNG}.

Lemma binary_Read_int32_ok (buffer : bytes) :
  (4 <= length buffer)%nat ->
  binary_Read_int32 buffer = Ok (int32_be (firstn 4 buffer), skipn 4 buffer).
Proof.
  intros Hlen. unfold binary_Read_int32.
  assert (Hle : (4 <=? length buffer)%nat = true) by (apply Nat.leb_le; lia).
  by rewrite Hle.
Qed.

(** The first 24 bytes of the client stream: what [readSeedMessage] has done
    when it reaches the validation of the magic value. *)
Lemma readSeedMessage_header (config : ObfuscatorConfig) (w : IO)
    (seed fields rest : bytes) (c2s s2c : RC4.Cipher) :
  clientReader w = seed ++ fields ++ rest ->
  length seed = 16%nat ->
  length fields = 8%nat ->
  initObfuscatorCiphers seed config = Ok (c2s, s2c) ->
  readSeedMessage config w =
  (let '(plain, c2s') := RC4.XORKeyStream c2s fields in
   let magicValue := int32_be (firstn 4 plain) in
   let paddingLength := int32_be (firstn 4 (skipn 4 plain)) in
   if negb (magicValue =? OBFUSCATE_MAGIC_VALUE) then fail "invalid magic value"
   else if (paddingLength <? 0) || (OBFUSCATE_MAX_PADDING <? paddingLength) then
     fail "invalid padding length"
   else
     let* padding := ReadFull_client (Z.to_nat paddingLength) in
     let '(padding, c2s'') := RC4.XORKeyStream c2s' padding in
     if SEED_LENGTH <=? Z.of_nat (length padding) then
       ret (c2s'', s2c, firstn (Z.to_nat SEED_LENGTH) padding)
     else
       let* paddingPRNGSeed := NewSeed in
       ret (c2s'', s2c, paddingPRNGSeed))
    {| clientReader := rest; cryptoRand := cryptoRand w |}.
Proof.
  intros Hstream Hseed Hfields Hinit.
  unfold readSeedMessage, bind at 1. unfold ReadFull_client at 1.
  rewrite Hstream.
  change (Z.to_nat OBFUSCATE_SEED_LENGTH) with 16%nat.
  rewrite (read_full_app seed (fields ++ rest) 16 Hseed).
  unfold bind at 1, lift at 1. rewrite Hinit.
  unfold bind at 1. unfold ReadFull_client at 1. cbn [clientReader cryptoRand].
  rewrite (read_full_app fields rest 8 Hfields).
  pose proof (XORKeyStream_length fields c2s) as Hplain.
  destruct (RC4.XORKeyStream c2s fields) as [plain c2s'].
  cbn [fst] in Hplain.
  unfold bind at 1, lift at 1.
  rewrite (binary_Read_int32_ok plain) by lia.
  unfold bind at 1, lift at 1.
  rewrite (binary_Read_int32_ok (skipn 4 plain)) by (rewrite length_skipn; lia).
  reflexivity.
Qed.

(** C4.  A seed message whose decrypted magic value is not
    [OBFUSCATE_MAGIC_VALUE] is rejected with the magic error whatever its
    padding length field holds, and the stream is left just past the 24
    header bytes: no padding byte has been read. *)
Theorem readSeedMessage_rejects_bad_magic (config : ObfuscatorConfig) (w : IO)
    (seed fields rest : bytes) (c2s s2c : RC4.Cipher) :
  clientReader w = seed ++ fields ++ rest ->
  length seed = 16%nat ->
  length fields = 8%nat ->
  initObfuscatorCiphers seed config = Ok (c2s, s2c) ->
  int32_be (firstn 4 (fst (RC4.XORKeyStream c2s fields))) <> OBFUSCATE_MAGIC_VALUE ->
  readSeedMessage config w
  = (Err "invalid magic value",
     {| clientReader := rest; cryptoRand := cryptoRand w |}).
Proof.
  intros Hstream Hseed Hfields Hinit Hmagic.
  rewrite (readSeedMessage_header config w seed fields rest c2s s2c) by assumption.
  destruct (RC4.XORKeyStream c2s fields) as [plain c2s']. cbn [fst] in Hmagic.
  cbv zeta.
  assert (Hne : (int32_be (firstn 4 plain) =? OBFUSCATE_MAGIC_VALUE) = false)
    by (apply Z.eqb_neq; exact Hmagic).
  rewrite Hne. reflexivity.
Qed.

(** A seed message with a valid magic value and a padding of [n] bytes,
    [n] within the protocol maximum. *)
Lemma readSeedMessage_padding (config : ObfuscatorConfig) (w : IO)
    (seed fields padding rest : bytes) (c2s s2c : RC4.Cipher) :
  clientReader w = seed ++ fields ++ padding ++ rest ->
  length seed = 16%nat ->
  length fields = 8%nat ->
  initObfuscatorCiphers seed config = Ok (c2s, s2c) ->
  int32_be (firstn 4 (fst (RC4.XORKeyStream c2s fields))) = OBFUSCATE_MAGIC_VALUE ->
  int32_be (firstn 4 (skipn 4 (fst (RC4.XORKeyStream c2s fields))))
  = Z.of_nat (length padding) ->
  Z.of_nat (length padding) <= OBFUSCATE_MAX_PADDING ->
  readSeedMessage config w =
  (let '(plain, c2s') :=
     RC4.XORKeyStream (snd (RC4.XORKeyStream c2s fields)) padding in
   if SEED_LENGTH <=? Z.of_nat (length plain) then
     ret (c2s', s2c, firstn (Z.to_nat SEED_LENGTH) plain)
   else
     let* paddingPRNGSeed := NewSeed in
     ret (c2s', s2c, paddingPRNGSeed))
    {| clientReader := rest; cryptoRand := cryptoRand w |}.
Proof.
  intros Hstream Hseed Hfields Hinit Hmagic Hlen Hmax.
  rewrite (readSeedMessage_header config w seed fields (padding ++ rest) c2s s2c)
    by assumption.
  destruct (RC4.XORKeyStream c2s fields) as [plain c2s']. cbn [fst snd] in *.
  cbv zeta. rewrite Hmagic, Z.eqb_refl. cbn [negb].
  rewrite Hlen.
  assert (H0 : (Z.of_nat (length padding) <? 0) = false) by (apply Z.ltb_ge; lia).
  assert (H1 : (OBFUSCATE_MAX_PADDING <? Z.of_nat (length padding)) = false)
    by (apply Z.ltb_ge; lia).
  rewrite H0, H1. cbn [orb].
  unfold bind at 1. unfold ReadFull_client at 1. cbn [clientReader cryptoRand].
  rewrite Nat2Z.id.
  rewrite (read_full_app padding rest (length padding) eq_refl).
  reflexivity.
Qed.

(** C10.  A seed message with a valid magic value and fewer than
    [SEED_LENGTH] bytes of padding is accepted: the padding PRNG seed is
    [SEED_LENGTH] fresh bytes of the secure random source, whatever the
    padding holds. *)
Theorem readSeedMessage_short_padding (config : ObfuscatorConfig) (w : IO)
    (seed fields padding rest newSeed rand' : bytes) (c2s s2c : RC4.Cipher) :
  clientReader w = seed ++ fields ++ padding ++ rest ->
  length seed = 16%nat ->
  length fields = 8%nat ->
  initObfuscatorCiphers seed config = Ok (c2s, s2c) ->
  int32_be (firstn 4 (fst (RC4.XORKeyStream c2s fields))) = OBFUSCATE_MAGIC_VALUE ->
  int32_be (firstn 4 (skipn 4 (fst (RC4.XORKeyStream c2s fields))))
  = Z.of_nat (length padding) ->
  Z.of_nat (length padding) <= OBFUSCATE_MAX_PADDING ->
  Z.of_nat (length padding) < SEED_LENGTH ->
  cryptoRand w = newSeed ++ rand' ->
  Z.of_nat (length newSeed) = SEED_LENGTH ->
  readSeedMessage config w
  = (Ok (snd (RC4.XORKeyStream (snd (RC4.XORKeyStream c2s fields)) padding),
         s2c, newSeed),
     {| clientReader := rest; cryptoRand := rand' |}).
Proof.
  intros Hstream Hseed Hfields Hinit Hmagic Hlen Hmax Hshort Hrand HnewSeed.
  rewrite (readSeedMessage_padding config w seed fields padding rest c2s s2c)
    by assumption.
  pose proof (XORKeyStream_length padding (snd (RC4.XORKeyStream c2s fields)))
    as Hplain.
  destruct (RC4.XORKeyStream (snd (RC4.XORKeyStream c2s fields)) padding)
    as [plain c2s'']. cbn [fst snd] in *.
  assert (Hlt : (SEED_LENGTH <=? Z.of_nat (length plain)) = false)
    by (apply Z.leb_gt; lia).
  rewrite Hlt.
  unfold bind, NewSeed, MakeSecureRandomBytes. cbn [clientReader cryptoRand].
  rewrite Hrand.
  rewrite (read_full_app newSeed rand' (Z.to_nat SEED_LENGTH)) by lia.
  reflexivity.
Qed.

(** With at least [SEED_LENGTH] bytes of padding the seed is the first
    [SEED_LENGTH] decrypted padding bytes and the random source is not
    touched: the client directs the server's generator. *)
Lemma readSeedMessage_long_padding (config : ObfuscatorConfig) (w : IO)
    (seed fields padding rest : bytes) (c2s s2c : RC4.Cipher) :
  clientReader w = seed ++ fields ++ padding ++ rest ->
  length seed = 16%nat ->
  length fields = 8%nat ->
  initObfuscatorCiphers seed config = Ok (c2s, s2c) ->
  int32_be (firstn 4 (fst (RC4.XORKeyStream c2s fields))) = OBFUSCATE_MAGIC_VALUE ->
  int32_be (firstn 4 (skipn 4 (fst (RC4.XORKeyStream c2s fields))))
  = Z.of_nat (length padding) ->
  Z.of_nat (length padding) <= OBFUSCATE_MAX_PADDING ->
  SEED_LENGTH <= Z.of_nat (length padding) ->
  readSeedMessage config w
  = (Ok (snd (RC4.XORKeyStream (snd (RC4.XORKeyStream c2s fields)) padding),
         s2c,
         firstn (Z.to_nat SEED_LENGTH)
           (fst (RC4.XORKeyStream (snd (RC4.XORKeyStream c2s fields)) padding))),
     {| clientReader := rest; cryptoRand := cryptoRand w |}).
Proof.
  intros Hstream Hseed Hfields Hinit Hmagic Hlen Hmax Hlong.
  rewrite (readSeedMessage_padding config w seed fields padding rest c2s s2c)
    by assumption.
  pose proof (XORKeyStream_length padding (snd (RC4.XORKeyStream c2s fields)))
    as Hplain.
  destruct (RC4.XORKeyStream (snd (RC4.XORKeyStream c2s fields)) padding)
    as [plain c2s'']. cbn [fst snd] in *.
  assert (Hle : (SEED_LENGTH <=? Z.of_nat (length plain)) = true)
    by (apply Z.leb_le; lia).
  rewrite Hle. reflexivity.
Qed.

End ObfuscatorServer.

(** ** The obfuscator on concrete inputs *)

Section ObfuscatorExamples.

Import Obfuscator.

Lemma example_clientToServerKey :
  deriveKey Examples.seed (bytes_of_string (Keyword Examples.config))
    (bytes_of_string OBFUSCATE_CLIENT_TO_SERVER_IV)
  = Ok Examples.clientToServerKey.
Proof. vm_compute. reflexivity. Qed.

Lemma example_serverToClientKey :
  deriveKey Examples.seed (bytes_of_string (Keyword Examples.config))
    (bytes_of_string OBFUSCATE_SERVER_TO_CLIENT_IV)
  = Ok Examples.serverToClientKey.
Proof. vm_compute. reflexivity. Qed.

Lemma example_ciphers :
  initObfuscatorCiphers Examples.seed Examples.config
  = Ok (Examples.cipher_of Examples.clientToServerKey,
        Examples.cipher_of Examples.serverToClientKey).
Proof.
  unfold initObfuscatorCiphers.
  rewrite example_clientToServerKey, example_serverToClientKey.
  vm_compute. reflexivity.
Qed.

(** For this seed and keyword the two direction keys differ. *)
Example example_keys_differ :
  deriveKey Examples.seed (bytes_of_string (Keyword Examples.config))
    (bytes_of_string OBFUSCATE_CLIENT_TO_SERVER_IV)
  <> deriveKey Examples.seed (bytes_of_string (Keyword Examples.config))
       (bytes_of_string OBFUSCATE_SERVER_TO_CLIENT_IV).
Proof.
  rewrite example_clientToServerKey, example_serverToClientKey. discriminate.
Qed.

Lemma readSeedMessage_rejects_bad_magic_witness :
  readSeedMessage (PRNG := Z) Examples.config
    (Examples.server_world (Examples.seed ++ Examples.garbage_fields ++ [1; 2; 3]))
  = (Err "invalid magic value",
     {| clientReader := [1; 2; 3]; cryptoRand := repeat 7 40 |}).
Proof.
  apply (readSeedMessage_rejects_bad_magic Examples.config
           (Examples.server_world
              (Examples.seed ++ Examples.garbage_fields ++ [1; 2; 3]))
           Examples.seed Examples.garbage_fields [1; 2; 3]
           (Examples.cipher_of Examples.clientToServerKey)
           (Examples.cipher_of Examples.serverToClientKey)).
  - reflexivity.
  - reflexivity.
  - reflexivity.
  - exact example_ciphers.
  - vm_compute. discriminate.
Defined.

Lemma readSeedMessage_short_padding_witness :
  readSeedMessage (PRNG := Z) Examples.config
    (Examples.server_world
       (Examples.seed ++ Examples.legacy_fields ++ Examples.legacy_padding ++ []))
  = (Ok (snd (RC4.XORKeyStream
                (snd (RC4.XORKeyStream
                        (Examples.cipher_of Examples.clientToServerKey)
                        Examples.legacy_fields))
                Examples.legacy_padding),
         Examples.cipher_of Examples.serverToClientKey,
         repeat 7 32),
     {| clientReader := []; cryptoRand := repeat 7 8 |}).
Proof.
  apply (readSeedMessage_short_padding Examples.config
           (Examples.server_world
              (Examples.seed ++ Examples.legacy_fields
                 ++ Examples.legacy_padding ++ []))
           Examples.seed Examples.legacy_fields Examples.legacy_padding []
           (repeat 7 32) (repeat 7 8)
           (Examples.cipher_of Examples.clientToServerKey)
           (Examples.cipher_of Examples.serverToClientKey)).
  - reflexivity.
  - reflexivity.
  - reflexivity.
  - exact example_ciphers.
  - vm_compute. reflexivity.
  - vm_compute. reflexivity.
  - vm_compute. discriminate.
  - vm_compute. reflexivity.
  - reflexivity.
  - reflexivity.
Defined.

End ObfuscatorExamples.

(** ** The client obfuscator and its padding bounds *)

Section ObfuscatorClient.

Import Obfuscator.
Context `{PRNGInterface PRNG}.

Lemma effective_padding_bounds (config : ObfuscatorConfig) :
  SEED_LENGTH <= OBFUSCATE_MAX_PADDING ->
  SEED_LENGTH <= effective_minPadding (PRNG := PRNG) config
  /\ effective_minPadding (PRNG := PRNG) config <= effective_maxPadding (PRNG := PRNG) config
  /\ effective_maxPadding (PRNG := PRNG) config <= OBFUSCATE_MAX_PADDING.
Proof.
  intros Hle. unfold effective_maxPadding, effective_minPadding.
  destruct (MinPadding config) as [m|], (MaxPadding config) as [m'|];
    repeat case_match; lia.
Qed.

(** The boundaries are taken as configured; one step outside, the defaults
    take over. *)
Lemma effective_minPadding_boundary (config : ObfuscatorConfig) :
  SEED_LENGTH <= OBFUSCATE_MAX_PADDING ->
  (MinPadding config = Some SEED_LENGTH ->
   effective_minPadding (PRNG := PRNG) config = SEED_LENGTH)
  /\ (MinPadding config = Some (SEED_LENGTH - 1) ->
      effective_minPadding (PRNG := PRNG) config = SEED_LENGTH).
Proof.
  intros Hle. unfold effective_minPadding.
  split; intros ->; repeat case_match; lia.
Qed.

Lemma effective_maxPadding_boundary (config : ObfuscatorConfig) :
  SEED_LENGTH <= OBFUSCATE_MAX_PADDING ->
  (MaxPadding config = Some OBFUSCATE_MAX_PADDING ->
   effective_maxPadding (PRNG := PRNG) config = OBFUSCATE_MAX_PADDING)
  /\ (MaxPadding config = Some (OBFUSCATE_MAX_PADDING + 1) ->
      effective_maxPadding (PRNG := PRNG) config = OBFUSCATE_MAX_PADDING).
Proof.
  intros Hle. unfold effective_maxPadding.
  split; intros ->; repeat case_match; lia.
Qed.

(** C2, as the code has it.  Whatever padding bounds are configured,
    [NewClientObfuscator] builds an obfuscator once it has a padding seed and
    16 random bytes; the padding it stages is drawn between the effective
    bounds, so that a bound outside the range is replaced, not rejected. *)
Theorem NewClientObfuscator_padding_range (config : ObfuscatorConfig) (w : IO)
    (seed obfuscatorSeed rand' : bytes) :
  SEED_LENGTH <= OBFUSCATE_MAX_PADDING ->
  PaddingPRNGSeed config = Some seed ->
  cryptoRand w = obfuscatorSeed ++ rand' ->
  length obfuscatorSeed = 16%nat ->
  exists obfuscator : Obfuscator PRNG,
    NewClientObfuscator config w
    = (Ok obfuscator, {| clientReader := clientReader w; cryptoRand := rand' |})
    /\ paddingLength obfuscator
       = Z.of_nat (length (fst (Padding (NewPRNGWithSeed seed)
                                  (effective_minPadding (PRNG := PRNG) config)
                                  (effective_maxPadding (PRNG := PRNG) config))))
    /\ effective_minPadding (PRNG := PRNG) config <= paddingLength obfuscator
       <= effective_maxPadding (PRNG := PRNG) config.
Proof.
  intros Hle Hseed Hrand Hlen.
  pose proof (effective_padding_bounds config Hle) as (Hb1 & Hb2 & Hb3).
  pose proof SEED_LENGTH_pos as Hpos.
  assert (Hpad := Padding_length (NewPRNGWithSeed seed)
                    (effective_minPadding config) (effective_maxPadding config)).
  specialize (Hpad ltac:(lia)).
  unfold NewClientObfuscator. rewrite Hseed.
  unfold bind at 1. unfold MakeSecureRandomBytes. rewrite Hrand.
  change (Z.to_nat OBFUSCATE_SEED_LENGTH) with 16%nat.
  rewrite (read_full_app obfuscatorSeed rand' 16 Hlen).
  destruct (initObfuscatorCiphers_total obfuscatorSeed config)
    as (c2s & s2c & Hinit).
  unfold bind at 1, lift at 1. rewrite Hinit.
  fold (effective_minPadding config). fold (effective_maxPadding config).
  unfold makeSeedMessage.
  destruct (Padding (NewPRNGWithSeed seed) (effective_minPadding (PRNG := PRNG) config)
              (effective_maxPadding (PRNG := PRNG) config)) as [padding g'].
  cbn [fst] in Hpad.
  destruct (RC4.XORKeyStream c2s _) as [body c2s'].
  unfold bind, lift, ret.
  eexists. split; [reflexivity|]. cbn [paddingLength]. split; [reflexivity|lia].
Qed.

(** The only failures: no padding seed, or a random source that cannot
    deliver 16 bytes. *)
Lemma NewClientObfuscator_fails_iff (config : ObfuscatorConfig) (w : IO) :
  is_Ok (fst (NewClientObfuscator (PRNG := PRNG) config w)) = false
  <-> PaddingPRNGSeed config = None \/ (length (cryptoRand w) < 16)%nat.
Proof.
  unfold NewClientObfuscator.
  destruct (PaddingPRNGSeed config) as [seed|]; [|split; [by left|done]].
  unfold bind at 1. unfold MakeSecureRandomBytes.
  change (Z.to_nat OBFUSCATE_SEED_LENGTH) with 16%nat.
  unfold read_full.
  destruct (16 <=? length (cryptoRand w))%nat eqn:E.
  - apply Nat.leb_le in E.
    destruct (initObfuscatorCiphers_total (firstn 16 (cryptoRand w)) config)
      as (c2s & s2c & Hinit).
    unfold bind at 1, lift at 1. rewrite Hinit.
    unfold makeSeedMessage.
    destruct (Padding _ _ _) as [padding g'].
    destruct (RC4.XORKeyStream c2s _) as [body c2s'].
    unfold bind, lift, ret. cbn [fst is_Ok].
    split; [discriminate|]. intros [?|?]; [discriminate|lia].
  - apply Nat.leb_gt in E. cbn [fst is_Ok]. split; [by right|done].
Qed.

End ObfuscatorClient.

(** C2 as stated does not hold: with the minimum one below the seed length
    and the maximum one above 8192 an obfuscator is still constructed. *)
Lemma NewClientObfuscator_accepts_out_of_range :
  Obfuscator.MinPadding Examples.out_of_range_config
    = Some (SEED_LENGTH (PRNG := Z) - 1)
  /\ Obfuscator.MaxPadding Examples.out_of_range_config
     = Some (Obfuscator.OBFUSCATE_MAX_PADDING + 1)
  /\ exists obfuscator w',
       Obfuscator.NewClientObfuscator (PRNG := Z)
         Examples.out_of_range_config Examples.client_world
       = (Ok obfuscator, w').
Proof.
  split; [reflexivity|]. split; [reflexivity|].
  destruct (Obfuscator.NewClientObfuscator (PRNG := Z)
              Examples.out_of_range_config Examples.client_world)
    as [[obfuscator|msg] w'] eqn:Hrun; [by eauto|].
  assert (Hfail : is_Ok (fst (Obfuscator.NewClientObfuscator (PRNG := Z)
                    Examples.out_of_range_config Examples.client_world)) = false)
    by (by rewrite Hrun).
  apply NewClientObfuscator_fails_iff in Hfail as [Hnone|Hshort].
  - discriminate Hnone.
  - cbn in Hshort. lia.
Qed.

Lemma NewClientObfuscator_padding_range_witness :
  exists obfuscator : Obfuscator.Obfuscator Z,
    Obfuscator.NewClientObfuscator Examples.out_of_range_config Examples.client_world
    = (Ok obfuscator, {| clientReader := []; cryptoRand := [42] |})
    /\ Obfuscator.paddingLength obfuscator
       = Z.of_nat (length (fst (Padding (NewPRNGWithSeed (repeat 1 32))
                                  (effective_minPadding (PRNG := Z) Examples.out_of_range_config)
                                  (effective_maxPadding (PRNG := Z) Examples.out_of_range_config))))
    /\ effective_minPadding (PRNG := Z) Examples.out_of_range_config
       <= Obfuscator.paddingLength obfuscator
       <= effective_maxPadding (PRNG := Z) Examples.out_of_range_config.
Proof.
  apply (NewClientObfuscator_padding_range (PRNG := Z)
           Examples.out_of_range_config Examples.client_world
           (repeat 1 32) Examples.seed [42]).
  - vm_compute. discriminate.
  - reflexivity.
  - reflexivity.
  - reflexivity.
Defined.

(** ** Swapping two slots of a slice *)

Lemma swap_Permutation {A} (l : list A) (i j : Z) : swap l i j ≡ₚ l.
Proof.
  unfold swap.
  destruct (l !! Z.to_nat i) as [x|] eqn:Hi; [|reflexivity].
  destruct (l !! Z.to_nat j) as [y|] eqn:Hj; [|reflexivity].
  by apply Permutation_insert_swap.
Qed.

Lemma swap_length {A} (l : list A) (i j : Z) : length (swap l i j) = length l.
Proof.
  unfold swap. repeat case_match; rewrite ?length_insert; reflexivity.
Qed.

Lemma swap_lookup {A} (l : list A) (i j : Z) (k : nat) :
  (Z.to_nat i < length l)%nat ->
  (Z.to_nat j < length l)%nat ->
  swap l i j !! k
  = if decide (k = Z.to_nat i) then l !! Z.to_nat j
    else if decide (k = Z.to_nat j) then l !! Z.to_nat i
    else l !! k.
Proof.
  intros Hi Hj. unfold swap.
  destruct (lookup_lt_is_Some_2 l _ Hi) as [x Hx].
  destruct (lookup_lt_is_Some_2 l _ Hj) as [y Hy].
  rewrite Hx, Hy.
  destruct (decide (k = Z.to_nat i)) as [->|Hki].
  - rewrite list_lookup_insert_eq by (rewrite length_insert; lia). reflexivity.
  - rewrite list_lookup_insert_ne by congruence.
    destruct (decide (k = Z.to_nat j)) as [->|Hkj].
    + rewrite list_lookup_insert_eq by lia. reflexivity.
    + rewrite list_lookup_insert_ne by congruence. reflexivity.
Qed.

(** ** The replay partition of [reset] *)

Section PartitionFacts.

Import DataStore.
Context (has : string -> bool).

Lemma index_lookup (ids : list string) (i : Z) (x : string) :
  0 <= i -> ids !! Z.to_nat i = Some x -> index "" ids i = x.
Proof. intros _ Hx. unfold index. by rewrite Hx. Qed.

Lemma skip_present_spec (ids : list string) (i j : Z) :
  0 <= i ->
  let i' := skip_present has ids i j in
  all_present has ids i i'
  /\ (i' < j -> has (index "" ids i') = false).
Proof.
  funelim (skip_present has ids i j); intros Hi; cbv zeta.
  - destruct (has (index "" ids i)) eqn:Hhas.
    + destruct (H ltac:(lia)) as [Hall Hstop]. split; [|exact Hstop].
      intros p x Hp Hx.
      destruct (decide (Z.of_nat p = i)) as [<-|Hne].
      * unfold index in Hhas. by rewrite Nat2Z.id, Hx in Hhas.
      * apply (Hall p x); [lia|exact Hx].
    + split; [|intros _; exact Hhas]. intros p x Hp. lia.
  - split; [|lia]. intros p x Hp. lia.
Qed.

Lemma skip_absent_spec (ids : list string) (i j : Z) :
  0 <= i ->
  let j' := skip_absent has ids i j in
  absent_between has ids j' j
  /\ (i < j' -> has (index "" ids j') = true).
Proof.
  funelim (skip_absent has ids i j); intros Hi; cbv zeta.
  - destruct (has (index "" ids j)) eqn:Hhas.
    + split; [|intros _; exact Hhas]. intros q x Hq. lia.
    + destruct (H ltac:(lia)) as [Hall Hstop]. split; [|exact Hstop].
      intros q x Hq Hx.
      destruct (decide (Z.of_nat q = j)) as [<-|Hne].
      * unfold index in Hhas. by rewrite Nat2Z.id, Hx in Hhas.
      * apply (Hall q x); [lia|exact Hx].
  - split; [|lia]. intros q x Hq. lia.
Qed.

Lemma swap_take (ids : list string) (head i j : Z) :
  0 <= head <= i -> head <= j ->
  take (Z.to_nat head) (swap ids i j) = take (Z.to_nat head) ids.
Proof.
  intros Hi Hj. unfold swap. repeat case_match; try reflexivity.
  rewrite !take_insert_ge by lia. reflexivity.
Qed.

Lemma partitioned_intro (ids : list string) (head i' j' : Z) :
  j' <= i' ->
  all_present has ids head i' ->
  all_absent has ids j' ->
  partitioned has head ids.
Proof.
  intros Hle Hpre Hpost p q x y Hp Hq Hx Hy Hhx Hhy.
  destruct (decide (p < q)%nat) as [|Hge]; [assumption|exfalso].
  assert (Hne : p <> q) by (intros ->; congruence).
  assert (Hq' : i' <= Z.of_nat q).
  { destruct (decide (i' <= Z.of_nat q)) as [|Hlt]; [assumption|].
    rewrite (Hpre q y) in Hhy by (try lia; assumption). discriminate. }
  assert (Hp' : Z.of_nat p <= j').
  { destruct (decide (Z.of_nat p <= j')) as [|Hgt]; [assumption|].
    rewrite (Hpost p x) in Hhx by (try lia; assumption). discriminate. }
  lia.
Qed.

Lemma partition_loop_spec (ids : list string) (i j : Z) :
  forall head,
  0 <= head <= i ->
  j < Z.of_nat (length ids) ->
  i <= j + 1 ->
  all_present has ids head i ->
  all_absent has ids j ->
  let r := partition_loop has ids i j in
  r ≡ₚ ids
  /\ partitioned has head r
  /\ take (Z.to_nat head) r = take (Z.to_nat head) ids.
Proof.
  funelim (partition_loop has ids i j); intros head Hhead Hj Hij Hpre Hpost;
    cbv zeta;
    pose proof (skip_present_bounds has ids i j) as [Hb1 Hb2];
    pose proof (skip_present_spec ids i j ltac:(lia)) as [Hs1 Hs2];
    pose proof (skip_absent_bounds has ids (skip_present has ids i j) j) as [Hb3 Hb4];
    pose proof (skip_absent_spec ids (skip_present has ids i j) j ltac:(lia))
      as [Hs3 Hs4];
    cbv zeta in Hs1, Hs2, Hs3, Hs4;
    set (i' := skip_present has ids i j) in *;
    set (j' := skip_absent has ids i' j) in *.
  - assert (Hin_i : (Z.to_nat i' < length ids)%nat) by lia.
    assert (Hin_j : (Z.to_nat j' < length ids)%nat) by lia.
    specialize (Hs2 ltac:(lia)). specialize (Hs4 ltac:(lia)).
    destruct (H head) as (Hperm & Hpart & Htake).
    + lia.
    + rewrite swap_length. lia.
    + lia.
    + intros p x Hp Hx. rewrite swap_lookup in Hx by assumption.
      destruct (decide (p = Z.to_nat i')) as [->|Hpi].
      * unfold index in Hs4. by rewrite Hx in Hs4.
      * destruct (decide (p = Z.to_nat j')) as [->|Hpj]; [lia|].
        destruct (decide (Z.of_nat p < i)) as [Hlt|Hge].
        -- apply (Hpre p x); [lia|assumption].
        -- apply (Hs1 p x); [lia|assumption].
    + intros q x Hq Hx. rewrite swap_lookup in Hx by assumption.
      destruct (decide (q = Z.to_nat i')) as [->|Hqi]; [lia|].
      destruct (decide (q = Z.to_nat j')) as [->|Hqj].
      * unfold index in Hs2. by rewrite Hx in Hs2.
      * destruct (decide (Z.of_nat q <= j)) as [Hle|Hgt].
        -- apply (Hs3 q x); [lia|assumption].
        -- apply (Hpost q x); [lia|assumption].
    + split; [|split].
      * by rewrite Hperm, swap_Permutation.
      * exact Hpart.
      * rewrite Htake. apply swap_take; lia.
  - split; [reflexivity|]. split; [|reflexivity].
    apply (partitioned_intro ids head i' j').
    + lia.
    + intros p x Hp Hx.
      destruct (decide (Z.of_nat p < i)) as [Hlt|Hge].
      * apply (Hpre p x); [lia|assumption].
      * apply (Hs1 p x); [lia|assumption].
    + intros q x Hq Hx.
      destruct (decide (Z.of_nat q <= j)) as [Hle|Hgt].
      * apply (Hs3 q x); [lia|assumption].
      * apply (Hpost q x); [lia|assumption].
Qed.

End PartitionFacts.

(** ** [reset]: shuffle and replay partition *)

Section ResetFacts.

Import DataStore.
Context `{PRNGInterface PRNG}.

Lemma shuffle_loop_spec (is_ : list Z) (shuffleHead : Z) :
  forall (ids : list string) (g : PRNG),
  0 <= shuffleHead ->
  Forall (fun i => shuffleHead <= i) is_ ->
  let r := fst (shuffle_loop is_ shuffleHead ids g) in
  r ≡ₚ ids
  /\ length r = length ids
  /\ take (Z.to_nat shuffleHead) r = take (Z.to_nat shuffleHead) ids.
Proof.
  induction is_ as [|i rest IH]; intros ids g Hhead Hall; cbn [shuffle_loop].
  - cbn. auto.
  - inversion Hall as [|? ? Hi Hrest]; subst.
    pose proof (Intn_range g (i + 1 - shuffleHead) ltac:(lia)) as Hr.
    destruct (Intn g (i + 1 - shuffleHead)) as [r g']. cbn [fst] in Hr.
    destruct (IH (swap ids i (r + shuffleHead)) g' Hhead Hrest)
      as (Hperm & Hlen & Htake).
    cbv zeta. split; [|split].
    + by rewrite Hperm, swap_Permutation.
    + by rewrite Hlen, swap_length.
    + rewrite Htake. apply swap_take; lia.
Qed.

Lemma shuffle_spec (shuffleHead : Z) (ids : list string) (g : PRNG) :
  0 <= shuffleHead ->
  let r := fst (shuffle shuffleHead ids g) in
  r ≡ₚ ids
  /\ length r = length ids
  /\ take (Z.to_nat shuffleHead) r = take (Z.to_nat shuffleHead) ids.
Proof.
  intros Hhead. unfold shuffle. apply shuffle_loop_spec; [assumption|].
  apply Forall_forall. intros i Hi.
  apply elem_of_reverse, elem_of_seqZ in Hi. lia.
Qed.

Lemma move_replay_candidates_spec (db : datastoreDB) (networkID : string)
    (shuffleHead : Z) (ids : list string) :
  0 <= shuffleHead <= Z.of_nat (length ids) ->
  let r := move_replay_candidates db networkID shuffleHead ids in
  r ≡ₚ ids
  /\ partitioned (has_dial_parameters db networkID) shuffleHead r
  /\ take (Z.to_nat shuffleHead) r = take (Z.to_nat shuffleHead) ids.
Proof.
  intros Hhead. unfold move_replay_candidates.
  apply partition_loop_spec.
  - lia.
  - lia.
  - lia.
  - intros p x Hp. lia.
  - intros q x Hq Hx. apply lookup_lt_Some in Hx. lia.
Qed.

Lemma collect_ids_head (db : datastoreDB) (isInitialRound : bool)
    (iterator : ServerEntryIterator) :
  0 <= snd (collect_ids db isInitialRound iterator)
    <= Z.of_nat (length (fst (collect_ids db isInitialRound iterator))).
Proof.
  unfold collect_ids.
  destruct (if isInitialRound && applyServerAffinity iterator
            then keyValues db !! datastoreAffinityServerEntryIDKey
            else None) as [id|]; cbn [fst snd length app]; lia.
Qed.

(** C7.  On an initial-round reset with a positive replay candidate count,
    the identifier list is the shuffled list after the two-pointer partition:
    a permutation of it in which, from [shuffleHead] on, every identifier
    with a dial-parameters record for the current network precedes every
    identifier without one; the slots below [shuffleHead] are untouched. *)
Theorem reset_moves_replay_candidates (iterator : ServerEntryIterator)
    (w : World PRNG) (db : datastoreDB) :
  isTargetServerEntryIterator iterator = false ->
  activeDatastoreDB w = Some db ->
  0 < ReplayCandidateCount (config iterator) ->
  let shuffleHead := snd (collect_ids db true (Close iterator)) in
  let shuffled :=
    shuffle shuffleHead (fst (collect_ids db true (Close iterator)))
      (defaultPRNG w) in
  exists serverEntryIDs : list string,
    reset true (iterator, w)
    = (Ok tt,
       (set_ids (Close iterator) serverEntryIDs 0,
        {| activeDatastoreDB := Some db; defaultPRNG := snd shuffled |}))
    /\ serverEntryIDs ≡ₚ fst shuffled
    /\ partitioned (has_dial_parameters db (NetworkID (config iterator)))
         shuffleHead serverEntryIDs
    /\ take (Z.to_nat shuffleHead) serverEntryIDs
       = take (Z.to_nat shuffleHead) (fst shuffled).
Proof.
  intros Htarget Hdb Hcount. cbv zeta.
  pose proof (collect_ids_head db true (Close iterator)) as Hhead.
  unfold reset. cbn [isTargetServerEntryIterator Close set_ids].
  rewrite Htarget. unfold datastoreView. rewrite Hdb.
  fold (Close iterator).
  destruct (collect_ids db true (Close iterator)) as [collected shuffleHead].
  cbn [fst snd] in *.
  pose proof (shuffle_spec shuffleHead collected (defaultPRNG w) ltac:(lia))
    as (_ & Hlen & _). cbv zeta in Hlen.
  destruct (shuffle shuffleHead collected (defaultPRNG w)) as [shuffled g].
  cbn [fst snd] in *.
  assert (Hpos : (0 <? ReplayCandidateCount (config iterator)) = true)
    by (apply Z.ltb_lt; assumption).
  cbn [config Close set_ids andb]. rewrite Hpos.
  pose proof (move_replay_candidates_spec db (NetworkID (config iterator))
                shuffleHead shuffled ltac:(lia)) as (Hperm & Hpart & Htake).
  eexists. split; [reflexivity|]. auto.
Qed.

End ResetFacts.

(** ** The server-entry store *)

Section StoreFacts.

Import DataStore.
Context {PRNG : Type} `{ProtocolInterface}.

(** Over a stored entry whose configuration version is not negative,
    [StoreServerEntry] without [replaceIfExists] does what its documentation
    says: the record is replaced iff the incoming version is strictly
    higher, and the stored version afterwards is the greater of the two. *)
Lemma StoreServerEntry_documented_rule (serverEntryFields : ServerEntryFields)
    (w : World PRNG) (db : datastoreDB) (existing : ServerEntry) :
  activeDatastoreDB w = Some db ->
  ValidateServerEntryFields serverEntryFields = Ok tt ->
  serverEntries db !! GetIPAddress serverEntryFields = Some (JSON existing) ->
  0 <= ConfigurationVersion existing ->
  let ipAddress := GetIPAddress serverEntryFields in
  let incoming := GetConfigurationVersion serverEntryFields in
  exists db',
    StoreServerEntry serverEntryFields false w
    = (Ok tt, {| activeDatastoreDB := Some db'; defaultPRNG := defaultPRNG w |})
    /\ serverEntries db'
       = (if bool_decide (ConfigurationVersion existing < incoming)
          then <[ipAddress := JSON serverEntryFields]> (serverEntries db)
          else serverEntries db)
    /\ keyValues db' = keyValues db
    /\ dialParameters db' = dialParameters db
    /\ stored_version db' ipAddress
       = Some (Z.max (ConfigurationVersion existing) incoming).
Proof.
  intros Hdb Hvalid Hget Hnn. cbv zeta.
  unfold StoreServerEntry. rewrite Hvalid.
  unfold datastoreUpdate. rewrite Hdb.
  unfold stored_version, GetIPAddress, GetConfigurationVersion in *.
  rewrite Hget. cbn [json_Unmarshal].
  destruct (Z.ltb_spec (-1) (ConfigurationVersion existing)) as [_|Hex]; [|lia].
  destruct (Z.ltb_spec (ConfigurationVersion existing)
              (ConfigurationVersion serverEntryFields)) as [Hlt|Hge];
    cbn [negb orb andb json_Marshal put_serverEntry].
  - eexists. split; [reflexivity|].
    cbn [serverEntries keyValues dialParameters].
    rewrite bool_decide_eq_true_2 by assumption.
    rewrite lookup_insert_eq. cbn [json_Unmarshal].
    repeat split. f_equal. lia.
  - eexists. split; [reflexivity|].
    rewrite bool_decide_eq_false_2 by lia.
    rewrite Hget. cbn [json_Unmarshal].
    repeat split. f_equal. lia.
Qed.

(** C9.  Promoting an identifier without a stored entry returns no error and
    leaves the whole store as it was; promoting a stored one writes the
    affinity identifier and the filter value, and nothing else. *)
Theorem PromoteServerEntry_unknown_is_noop (config : Config) (ipAddress : string)
    (w : World PRNG) (db : datastoreDB) :
  activeDatastoreDB w = Some db ->
  (serverEntries db !! ipAddress = None ->
   PromoteServerEntry config ipAddress w = (Ok tt, w))
  /\ (is_Some (serverEntries db !! ipAddress) ->
      PromoteServerEntry config ipAddress w
      = (Ok tt,
         {| activeDatastoreDB :=
              Some {| serverEntries := serverEntries db;
                      keyValues :=
                        <[datastoreLastServerEntryFilterKey := EgressRegion config]>
                          (<[datastoreAffinityServerEntryIDKey := ipAddress]>
                             (keyValues db));
                      dialParameters := dialParameters db |};
            defaultPRNG := defaultPRNG w |})).
Proof.
  intros Hdb. unfold PromoteServerEntry, datastoreUpdate. rewrite Hdb.
  split.
  - intros ->. destruct w as [active g]. cbn in *. by subst active.
  - intros [data ->]. reflexivity.
Qed.

End StoreFacts.

(** ** The store on concrete inputs *)

Section StoreExamplesFacts.

Import DataStore StoreExamples.

(** Version 1 over version 0 is stored. *)
Example newer_version_stored :
  stored_version
    (db_of (after (StoreServerEntry (entry "10.0.0.1" "CA" 1) false)
              (after (StoreServerEntry (entry "10.0.0.1" "US" 0) false) empty_world)))
    "10.0.0.1"
  = Some 1.
Proof. vm_compute. reflexivity. Qed.

(** C5 fails on the code.  The store holds, as [StoreServerEntry] left it,
    an entry of version -2; a store of version -3 for the same address
    without [replaceIfExists] replaces it, although -3 is not strictly
    higher: the stored version afterwards is -3 and not the greater of the
    two.  The documentation of [StoreServerEntry] says that an existing
    entry is replaced only if [replaceIfExists] is set or the new version is
    strictly higher; the code takes every decoded version below 0 for its
    own mark of a missing record, -1. *)
Theorem StoreServerEntry_negative_version_replaced :
  let w := negative_world_1 in
  let incoming := entry "10.0.0.1" "US" (-3) in
  stored_version (db_of w) "10.0.0.1" = Some (-2)
  /\ fst (StoreServerEntry incoming false w) = Ok tt
  /\ stored_version (db_of (snd (StoreServerEntry incoming false w))) "10.0.0.1"
     = Some (-3)
  /\ Z.max (-2) (GetConfigurationVersion incoming) <> -3.
Proof. vm_compute. repeat split. discriminate. Qed.

Lemma PromoteServerEntry_unknown_is_noop_witness :
  let db := db_of replay_world in
  (serverEntries db !! "10.9.9.9" = None ->
   PromoteServerEntry config_US "10.9.9.9" replay_world = (Ok tt, replay_world))
  /\ (is_Some (serverEntries db !! "10.9.9.9") ->
      PromoteServerEntry config_US "10.9.9.9" replay_world
      = (Ok tt,
         {| activeDatastoreDB :=
              Some {| serverEntries := serverEntries db;
                      keyValues :=
                        <[datastoreLastServerEntryFilterKey := EgressRegion config_US]>
                          (<[datastoreAffinityServerEntryIDKey := "10.9.9.9"]>
                             (keyValues db));
                      dialParameters := dialParameters db |};
            defaultPRNG := defaultPRNG replay_world |})).
Proof.
  intros db.
  apply (PromoteServerEntry_unknown_is_noop config_US "10.9.9.9" replay_world db).
  vm_compute. reflexivity.
Defined.

Example promote_unknown_changes_nothing :
  PromoteServerEntry config_US "10.9.9.9" replay_world = (Ok tt, replay_world).
Proof.
  vm_compute. reflexivity.
Qed.

Lemma reset_moves_replay_candidates_witness :
  let iterator := fresh_iterator config_US in
  let db := db_of replay_world in
  let shuffleHead := snd (collect_ids db true (Close iterator)) in
  let shuffled :=
    shuffle shuffleHead (fst (collect_ids db true (Close iterator)))
      (defaultPRNG replay_world) in
  exists serverEntryIDs : list string,
    reset true (iterator, replay_world)
    = (Ok tt,
       (set_ids (Close iterator) serverEntryIDs 0,
        {| activeDatastoreDB := Some db; defaultPRNG := snd shuffled |}))
    /\ serverEntryIDs ≡ₚ fst shuffled
    /\ partitioned (has_dial_parameters db (NetworkID (config iterator)))
         shuffleHead serverEntryIDs
    /\ take (Z.to_nat shuffleHead) serverEntryIDs
       = take (Z.to_nat shuffleHead) (fst shuffled).
Proof.
  intros iterator db.
  apply (reset_moves_replay_candidates iterator replay_world db).
  - reflexivity.
  - vm_compute. reflexivity.
  - vm_compute. reflexivity.
Defined.

(** Scenario "Replay": B has a record on the current network, A has none;
    after the reset B comes first. *)
Example replay_candidate_first :
  serverEntryIDs (fst (snd (reset true (fresh_iterator config_US, replay_world))))
  = ["10.0.0.2"; "10.0.0.1"].
Proof. vm_compute. reflexivity. Qed.

End StoreExamplesFacts.

(** ** Affinity *)

Section AffinityFacts.

Import DataStore.
Context `{ProtocolInterface} `{PRNGInterface PRNG}.

Lemma hasServerEntryFilterChanged_spec (config : Config) (w : World PRNG)
    (db : datastoreDB) :
  activeDatastoreDB w = Some db ->
  hasServerEntryFilterChanged config w
  = (Ok (negb (bool_decide (keyValues db !! datastoreLastServerEntryFilterKey
                            = Some (EgressRegion config)))), w).
Proof.
  intros Hdb. unfold hasServerEntryFilterChanged, bind, lift, datastoreView.
  cbn [makeServerEntryFilterValue]. rewrite Hdb.
  destruct (keyValues db !! datastoreLastServerEntryFilterKey) as [previous|].
  - unfold ret. do 2 f_equal. f_equal.
    destruct (String.eqb_spec previous (EgressRegion config)) as [->|Hne].
    + by rewrite bool_decide_eq_true_2.
    + rewrite bool_decide_eq_false_2; [reflexivity|]. congruence.
  - unfold ret. by rewrite bool_decide_eq_false_2.
Qed.

Lemma filter_all {A} (P : A -> Prop) `{forall x, Decision (P x)} (l : list A) :
  (forall x, P x) -> filter P l = l.
Proof.
  intros HP. induction l as [|x l IH]; [reflexivity|].
  rewrite filter_cons_True by apply HP. by rewrite IH.
Qed.





End AffinityFacts.

(** ** Affinity on concrete inputs *)

Section AffinityExamples.

Import DataStore StoreExamples.


(** Scenario "Affinity honored": the first [Next] returns the promoted
    server. *)
Example affinity_honored_first_next :
  match NewServerEntryIterator config_US affinity_world with
  | (Ok (honored, iterator), w') =>
      honored = true
      /\ fst (Next (iterator, w')) = Ok (Some (entry "10.0.0.2" "US" 0))
  | (Err _, _) => False
  end.
Proof. vm_compute. auto. Qed.

(** Scenario "Affinity broken by filter change": under another region the
    flag is false. *)
Example affinity_ignored_after_filter_change :
  match NewServerEntryIterator
          {| EgressRegion := "CA"; TargetServerEntry := ""; NetworkID := "wifi";
             ReplayCandidateCount := 1; LimitTunnelProtocols := [];
             UseUpstreamProxy := false |} affinity_world with
  | (Ok (honored, _), _) => honored = false
  | (Err _, _) => False
  end.
Proof. vm_compute. reflexivity. Qed.


End AffinityExamples.

(** ** The custom TLS dialer *)

Section DialFacts.

Import TLSDialer.
Context `{TLSProfileInterface} `{PRNGInterface PRNG}.

(** The raw dial fails: there is no connection to close. *)
Lemma CustomTLSDial_raw_dial_fails (env : Environment) (network addr : string)
    (config : CustomTLSConfig) (w : World PRNG) (e : string) :
  Dial env network
    (if negb (String.eqb (DialAddr config) "") then DialAddr config else addr)
  = Err e ->
  CustomTLSDial env network addr config w = (Err e, w).
Proof.
  intros Hdial. unfold CustomTLSDial, bind at 1. unfold config_Dial.
  by rewrite Hdial.
Qed.

(** The address does not split: the raw connection is closed. *)
Lemma CustomTLSDial_split_fails_closes (env : Environment) (network addr : string)
    (config : CustomTLSConfig) (w : World PRNG) (e : string) :
  let dialAddr :=
    if negb (String.eqb (DialAddr config) "") then DialAddr config else addr in
  Dial env network dialAddr = Ok tt ->
  SplitHostPort env dialAddr = Err e ->
  CustomTLSDial env network addr config w
  = (Err e,
     {| rawConnOpen := false;
        rawConnCloseCalls := S (rawConnCloseCalls w);
        secureRandom := secureRandom w;
        defaultPRNG := defaultPRNG w |}).
Proof.
  intros dialAddr Hdial Hsplit. subst dialAddr.
  unfold CustomTLSDial, bind at 1. unfold config_Dial.
  rewrite Hdial, Hsplit. reflexivity.
Qed.

End DialFacts.

Section DialExamplesFacts.

Import TLSDialer DialExamples.

(** C3 fails on the code.  The raw connection is open, the obfuscated
    session ticket key does not decode to 32 bytes, and [CustomTLSDial]
    returns the error with the raw connection still open: [Close] was never
    called. *)
Theorem CustomTLSDial_bad_ticket_key_leaves_connection_open :
  CustomTLSDial cooperative "tcp" "example.org:443" short_key_config world
  = (Err "invalid obfuscated session key length",
     {| rawConnOpen := true;
        rawConnCloseCalls := 0;
        secureRandom := repeat 5 64;
        defaultPRNG := 11 |}).
Proof. vm_compute. reflexivity. Qed.

(** The same happens when the trusted CA file cannot be read. *)
Example CustomTLSDial_missing_ca_leaves_connection_open :
  CustomTLSDial cooperative "tcp" "example.org:443" missing_ca_config world
  = (Err "open: no such file or directory",
     {| rawConnOpen := true;
        rawConnCloseCalls := 0;
        secureRandom := repeat 5 64;
        defaultPRNG := 11 |}).
Proof. vm_compute. reflexivity. Qed.

(** A failed handshake, by contrast, closes the raw connection. *)
Example CustomTLSDial_handshake_failure_closes :
  CustomTLSDial failing_handshake "tcp" "example.org:443" config world
  = (Err "remote error: handshake failure",
     {| rawConnOpen := false;
        rawConnCloseCalls := 1;
        secureRandom := repeat 5 64;
        defaultPRNG := 11 |}).
Proof. vm_compute. reflexivity. Qed.

(** On success the connection is returned open, with the peer's
    certificates, and reports HTTP/2 when "h2" was negotiated by both. *)
Example CustomTLSDial_success :
  match CustomTLSDial cooperative "tcp" "example.org:443" config world with
  | (Ok conn, w) =>
      rawConnOpen w = true
      /\ rawConnCloseCalls w = 0%nat
      /\ GetPeerCertificates conn = [certificate]
      /\ IsHTTP2 conn = true
  | (Err _, _) => False
  end.
Proof. vm_compute. auto. Qed.

End DialExamplesFacts.

(** ** Randomized ClientHello assembly *)

Section HelloFacts.

Import UTLS.
Context `{UTLSInterface} `{PRNGInterface PRNG}.

Lemma match_random_length {A} (n : nat) (a b c : A) :
  match n with 0%nat => a | 32%nat => b | _ => c end
  = if decide (n = 0%nat) then a else if decide (n = 32%nat) then b else c.
Proof.
  do 33 (destruct n as [|n]; [reflexivity|]).
  destruct (decide (_ = 0%nat)) as [|_]; [lia|].
  destruct (decide (_ = 32%nat)) as [|_]; [lia|]. reflexivity.
Qed.

Lemma fillClientHelloHeader_erase (st1 st2 st1' st2' : State PRNG) :
  uconn st1 = uconn st2 ->
  fillClientHelloHeader st1 = (Ok tt, st1') ->
  fillClientHelloHeader st2 = (Ok tt, st2') ->
  erase_random (uconn st1') = erase_random (uconn st2').
Proof.
  intros Hu H1 H2.
  unfold fillClientHelloHeader, bind, get_uconn, put_uconn, ret, fail,
    rand_ReadFull in H1, H2.
  rewrite <- Hu in H2.
  rewrite match_random_length in H1, H2.
  destruct (decide (length (Random (Hello (uconn st1))) = 0%nat)).
  - destruct (read_full 32 (config_rand st1)) as [[r1|e1] rest1];
      [|discriminate].
    destruct (read_full 32 (config_rand st2)) as [[r2|e2] rest2];
      [|discriminate].
    injection H1 as <-. injection H2 as <-. reflexivity.
  - destruct (decide (length (Random (Hello (uconn st1))) = 32%nat));
      [|discriminate].
    injection H1 as <-. injection H2 as <-. reflexivity.
Qed.

Lemma parrotRandomizedNoALPN_erase (st1 st2 st1' st2' : State PRNG) :
  uconn st1 = uconn st2 ->
  parrotRandomizedNoALPN st1 = (Ok tt, st1') ->
  parrotRandomizedNoALPN st2 = (Ok tt, st2') ->
  erase_random (uconn st1') = erase_random (uconn st2').
Proof.
  intros Hu H1 H2.
  unfold parrotRandomizedNoALPN in H1, H2.
  unfold bind at 1, get_uconn at 1 in H1.
  unfold bind at 1, get_uconn at 1 in H2.
  rewrite <- Hu in H2.
  destruct (clientHelloPRNGSeed (uconn st1)) as [seed|]; [|discriminate].
  destruct (shuffledCiphers (NewPRNGWithSeed seed)) as [[suites|e] g0];
    [|discriminate].
  destruct (removeRandomCiphers g0 suites (f32_lit 4 10)) as [kept g1].
  unfold bind at 1, put_uconn at 1 in H1.
  unfold bind at 1, put_uconn at 1 in H2.
  unfold bind at 1 in H1. unfold bind at 1 in H2.
  match type of H1 with context [fillClientHelloHeader ?s] =>
    destruct (fillClientHelloHeader s) as [[[]|e1] sa] eqn:F1; [|discriminate] end.
  match type of H2 with context [fillClientHelloHeader ?s] =>
    destruct (fillClientHelloHeader s) as [[[]|e2] sb] eqn:F2; [|discriminate] end.
  pose proof (fun e => fillClientHelloHeader_erase _ _ _ _ e F1 F2) as Herase.
  specialize (Herase eq_refl).
  assert (Hname : config_ServerName (uconn sb) = config_ServerName (uconn sa))
    by (apply (f_equal config_ServerName) in Herase; symmetry; exact Herase).
  assert (Hvers : Vers (Hello (uconn sb)) = Vers (Hello (uconn sa)))
    by (apply (f_equal (fun u => Vers (Hello u))) in Herase; symmetry;
        exact Herase).
  assert (Hsid : SessionId (Hello (uconn sb)) = SessionId (Hello (uconn sa)))
    by (apply (f_equal (fun u => SessionId (Hello u))) in Herase; symmetry;
        exact Herase).
  assert (Hsuites : CipherSuites (Hello (uconn sb)) = CipherSuites (Hello (uconn sa)))
    by (apply (f_equal (fun u => CipherSuites (Hello u))) in Herase; symmetry;
        exact Herase).
  assert (Hcomp : CompressionMethods (Hello (uconn sb))
                  = CompressionMethods (Hello (uconn sa)))
    by (apply (f_equal (fun u => CompressionMethods (Hello u))) in Herase;
        symmetry; exact Herase).
  unfold bind, get_uconn, put_uconn in H1, H2.
  rewrite Hname, Hvers, Hsid, Hsuites, Hcomp in H2.
  repeat match type of H1 with
         | context [let '(_, _) := ?x in _] => destruct x
         end.
  injection H1 as <-. injection H2 as <-.
  cbn [uconn].
  destruct (uconn sa) as [id1 seed1 name1 protos1 [v1 r1 sid1 cs1 cm1] sess1 ext1].
  destruct (uconn sb) as [id2 seed2 name2 protos2 [v2 r2 sid2 cs2 cm2] sess2 ext2].
  unfold erase_random, set_Hello, set_Extensions in *. cbn in Herase |- *.
  injection Herase as -> -> -> -> -> -> -> -> -> ->. reflexivity.
Qed.

Lemma parrotRandomizedALPN_erase (st1 st2 st1' st2' : State PRNG) :
  uconn st1 = uconn st2 ->
  parrotRandomizedALPN st1 = (Ok tt, st1') ->
  parrotRandomizedALPN st2 = (Ok tt, st2') ->
  erase_random (uconn st1') = erase_random (uconn st2').
Proof.
  intros Hu H1 H2. unfold parrotRandomizedALPN in H1, H2.
  destruct (parrotRandomizedNoALPN st1) as [[[]|e1] sa] eqn:F1; [|discriminate].
  destruct (parrotRandomizedNoALPN st2) as [[[]|e2] sb] eqn:F2; [|discriminate].
  pose proof (parrotRandomizedNoALPN_erase _ _ _ _ Hu F1 F2) as Herase.
  injection H1 as <-. injection H2 as <-. cbn [uconn].
  destruct (uconn sa) as [id1 seed1 name1 protos1 [v1 r1 sid1 cs1 cm1] sess1 ext1].
  destruct (uconn sb) as [id2 seed2 name2 protos2 [v2 r2 sid2 cs2 cm2] sess2 ext2].
  unfold erase_random, set_Hello, set_Extensions, set_NextProtos in *.
  cbn in Herase. injection Herase as -> -> -> -> -> -> -> -> -> ->.
  cbn. destruct protos2; reflexivity.
Qed.

(** C1, as the code has it.  For the profiles [HelloRandomizedALPN] and
    [HelloRandomizedNoALPN], two assemblies over the same connection and seed
    that both succeed agree on everything but the client random, whatever the
    random source and the default generator hold: cipher suites, signature
    algorithms, curves, session id and the shuffled extension list are
    functions of the seed and the connection. *)
Theorem randomized_hello_determined_by_seed (id : ClientHelloID)
    (st1 st2 st1' st2' : State PRNG) :
  id = HelloRandomizedALPN \/ id = HelloRandomizedNoALPN ->
  uconn st1 = uconn st2 ->
  generateClientHelloConfig id st1 = (Ok tt, st1') ->
  generateClientHelloConfig id st2 = (Ok tt, st2') ->
  erase_random (uconn st1') = erase_random (uconn st2').
Proof.
  intros Hid Hu H1 H2.
  destruct Hid as [-> | ->];
    unfold generateClientHelloConfig, generateClientHelloConfig_direct,
      set_id, bind, get_uconn, put_uconn in H1, H2;
    rewrite <- Hu in H2.
  - eapply parrotRandomizedALPN_erase; [|exact H1|exact H2]. reflexivity.
  - eapply parrotRandomizedNoALPN_erase; [|exact H1|exact H2]. reflexivity.
Qed.

End HelloFacts.

Section HelloExamplesFacts.

Import UTLS HelloExamples.

Lemma randomized_hello_determined_by_seed_witness :
  erase_random
    (uconn (snd (generateClientHelloConfig HelloRandomizedNoALPN state_1)))
  = erase_random
      (uconn (snd (generateClientHelloConfig HelloRandomizedNoALPN state_2))).
Proof.
  apply (randomized_hello_determined_by_seed HelloRandomizedNoALPN
           state_1 state_2).
  - right. reflexivity.
  - reflexivity.
  - vm_compute. reflexivity.
  - vm_compute. reflexivity.
Defined.

(** C1 as stated does not hold: with the same profile, connection and seed
    the two ClientHello messages carry different client randoms, each read
    from the random source of its run. *)
Lemma same_seed_different_client_random :
  uconn state_1 = uconn state_2
  /\ match generateClientHelloConfig HelloRandomizedNoALPN state_1,
           generateClientHelloConfig HelloRandomizedNoALPN state_2 with
     | (Ok _, st1'), (Ok _, st2') =>
         Random (Hello (uconn st1')) = repeat 7 32
         /\ Random (Hello (uconn st2')) = repeat 9 32
         /\ uconn st1' <> uconn st2'
     | _, _ => False
     end.
Proof.
  split; [reflexivity|]. vm_compute. split; [reflexivity|]. split; [reflexivity|].
  discriminate.
Qed.

(** The alias [HelloRandomized] settles ALPN with the package-level
    generator: over the same connection and seed, one default generator
    yields the ALPN extension and another none. *)
Example randomized_alias_follows_default_generator :
  uconn state_1 = uconn state_2
  /\ clientHelloID
       (uconn (snd (generateClientHelloConfig HelloRandomized state_1)))
     = HelloRandomizedNoALPN
  /\ clientHelloID
       (uconn (snd (generateClientHelloConfig HelloRandomized state_2)))
     = HelloRandomizedALPN
  /\ In (ALPNExtension ["h2"; "http/1.1"])
       (Extensions
          (uconn (snd (generateClientHelloConfig HelloRandomized state_2))))
  /\ ~ In (ALPNExtension ["h2"; "http/1.1"])
         (Extensions
            (uconn (snd (generateClientHelloConfig HelloRandomized state_1)))).
Proof.
  split; [reflexivity|]. vm_compute.
  split; [reflexivity|]. split; [reflexivity|]. split.
  - repeat (first [left; reflexivity | right]).
  - intros Hin. repeat (destruct Hin as [Heq|Hin]; [discriminate Heq|]).
    exact Hin.
Qed.

(** A client random of the wrong length is refused; the version has been
    set by then. *)
Example fillClientHelloHeader_wrong_length :
  let '(err, st') := fillClientHelloHeader (with_random [1; 2; 3] (repeat 7 32)) in
  err = Err "ClientHello expected length: 32 bytes. Got: 3 bytes"
  /\ Vers (Hello (uconn st')) = VersionTLS12
  /\ Random (Hello (uconn st')) = [1; 2; 3]
  /\ config_rand st' = repeat 7 32.
Proof. vm_compute. repeat split. Qed.

(** A random source that runs dry leaves its two bytes at the start of the
    client random. *)
Example fillClientHelloHeader_short_read :
  let '(err, st') := fillClientHelloHeader (with_random [] [9; 8]) in
  err = Err "tls: short read from Rand: unexpected EOF"
  /\ Vers (Hello (uconn st')) = VersionTLS12
  /\ Random (Hello (uconn st')) = [9; 8] ++ repeat 0 30
  /\ config_rand st' = [].
Proof. vm_compute. repeat split. Qed.

End HelloExamplesFacts.

(** * Further properties of the code *)

(** ** The stream cipher and the 4-byte fields *)

Lemma lxor_twice (v k : Z) : Z.lxor (Z.lxor v k) k = v.
Proof. by rewrite Z.lxor_assoc, Z.lxor_nilpotent, Z.lxor_0_r. Qed.

Lemma XORKeyStream_app (a b : bytes) : forall c,
  RC4.XORKeyStream c (a ++ b)
  = (fst (RC4.XORKeyStream c a)
       ++ fst (RC4.XORKeyStream (snd (RC4.XORKeyStream c a)) b),
     snd (RC4.XORKeyStream (snd (RC4.XORKeyStream c a)) b)).
Proof.
  induction a as [|v rest IH]; intros c.
  - cbn [app RC4.XORKeyStream fst snd]. by destruct (RC4.XORKeyStream c b).
  - cbn [app RC4.XORKeyStream].
    match goal with |- context [RC4.XORKeyStream ?c' (rest ++ b)] =>
      rewrite (IH c'); destruct (RC4.XORKeyStream c' rest) as [outs c''] end.
    reflexivity.
Qed.

Lemma XORKeyStream_involutive (src : bytes) : forall c,
  RC4.XORKeyStream c (fst (RC4.XORKeyStream c src))
  = (src, snd (RC4.XORKeyStream c src)).
Proof.
  induction src as [|v rest IH]; intros c; [reflexivity|].
  cbn [RC4.XORKeyStream].
  match goal with |- context [RC4.XORKeyStream ?c' rest] =>
    specialize (IH c'); destruct (RC4.XORKeyStream c' rest) as [outs c''] end.
  cbn [fst snd RC4.XORKeyStream RC4.s RC4.i RC4.j] in *.
  rewrite IH. by rewrite lxor_twice.
Qed.

Lemma testbit_255 (n : Z) : 0 <= n -> Z.testbit 255 n = (n <? 8).
Proof.
  intros Hn. change 255 with (Z.ones 8).
  destruct (Z.ltb_spec n 8).
  - apply Z.ones_spec_low. lia.
  - apply Z.ones_spec_high. lia.
Qed.

Lemma uint32_be_put_uint32_be (x : Z) (rest : bytes) :
  0 <= x < 2 ^ 32 -> uint32_be (put_uint32_be x ++ rest) = x.
Proof.
  intros Hx. unfold put_uint32_be, uint32_be. cbn [app].
  apply Z.bits_inj'. intros n Hn.
  rewrite !Z.lor_spec.
  rewrite (Z.shiftl_spec _ 24), (Z.shiftl_spec _ 16), (Z.shiftl_spec _ 8) by lia.
  rewrite (Z.land_spec x).
  destruct (Z.ltb_spec n 8) as [H8|H8].
  { rewrite (Z.testbit_neg_r _ (n - 24)), (Z.testbit_neg_r _ (n - 16)),
      (Z.testbit_neg_r _ (n - 8)) by lia.
    rewrite testbit_255 by lia. cbn [orb].
    assert (E : (n <? 8) = true) by (apply Z.ltb_lt; lia).
    rewrite E. apply andb_true_r. }
  destruct (Z.ltb_spec n 16) as [H16|H16].
  { rewrite (Z.testbit_neg_r _ (n - 24)), (Z.testbit_neg_r _ (n - 16)) by lia.
    rewrite !Z.land_spec, Z.shiftr_spec, !testbit_255 by lia.
    assert (E1 : (n - 8 <? 8) = true) by (apply Z.ltb_lt; lia).
    assert (E2 : (n <? 8) = false) by (apply Z.ltb_ge; lia).
    rewrite E1, E2. cbn [orb]. rewrite andb_true_r, andb_false_r, orb_false_r.
    f_equal. lia. }
  destruct (Z.ltb_spec n 24) as [H24|H24].
  { rewrite (Z.testbit_neg_r _ (n - 24)) by lia.
    rewrite !Z.land_spec, !Z.shiftr_spec, !testbit_255 by lia.
    assert (E0 : (n - 16 <? 8) = true) by (apply Z.ltb_lt; lia).
    assert (E1 : (n - 8 <? 8) = false) by (apply Z.ltb_ge; lia).
    assert (E2 : (n <? 8) = false) by (apply Z.ltb_ge; lia).
    rewrite E0, E1, E2. cbn [orb].
    rewrite andb_true_r, !andb_false_r, !orb_false_r.
    f_equal. lia. }
  rewrite !Z.land_spec, !Z.shiftr_spec, !testbit_255 by lia.
  assert (E0 : (n - 16 <? 8) = false) by (apply Z.ltb_ge; lia).
  assert (E1 : (n - 8 <? 8) = false) by (apply Z.ltb_ge; lia).
  assert (E2 : (n <? 8) = false) by (apply Z.ltb_ge; lia).
  rewrite E0, E1, E2. rewrite !andb_false_r, !orb_false_r.
  destruct (Z.ltb_spec n 32) as [H32|H32].
  - assert (E3 : (n - 24 <? 8) = true) by (apply Z.ltb_lt; lia).
    rewrite E3, andb_true_r. f_equal. lia.
  - assert (E3 : (n - 24 <? 8) = false) by (apply Z.ltb_ge; lia).
    rewrite E3, andb_false_r. symmetry.
    destruct (Z.eq_dec x 0) as [->|Hnz]; [apply Z.bits_0|].
    apply Z.bits_above_log2; [lia|].
    assert (Z.log2 x < 32) by (apply Z.log2_lt_pow2; lia). lia.
Qed.

Lemma int32_be_put_uint32_be (x : Z) (rest : bytes) :
  0 <= x < 2 ^ 31 -> int32_be (put_uint32_be x ++ rest) = x.
Proof.
  intros Hx. unfold int32_be. rewrite uint32_be_put_uint32_be by lia.
  unfold to_int32. destruct (Z.ltb_spec x (2 ^ 31)); lia.
Qed.

(** ** The seed message, from the client to the server *)

Section ObfuscatorRoundTrip.

Import Obfuscator ObfuscatorMethods.
Context `{PRNGInterface PRNG}.

(** What [NewClientObfuscator] builds, in terms of the ciphers of its seed
    and of the padding its generator draws. *)
Lemma NewClientObfuscator_spec (config : ObfuscatorConfig) (w : IO)
    (seed obfuscatorSeed rand' : bytes) (c2s s2c : RC4.Cipher) :
  PaddingPRNGSeed config = Some seed ->
  cryptoRand w = obfuscatorSeed ++ rand' ->
  length obfuscatorSeed = 16%nat ->
  initObfuscatorCiphers obfuscatorSeed config = Ok (c2s, s2c) ->
  let padding :=
    Padding (NewPRNGWithSeed seed) (effective_minPadding (PRNG := PRNG) config)
      (effective_maxPadding (PRNG := PRNG) config) in
  let body :=
    (put_uint32_be OBFUSCATE_MAGIC_VALUE
       ++ put_uint32_be (Z.of_nat (length (fst padding))))
      ++ fst padding in
  NewClientObfuscator config w
  = (Ok {| seedMessage := Some (obfuscatorSeed ++ fst (RC4.XORKeyStream c2s body));
           paddingLength := Z.of_nat (length (fst padding));
           clientToServerCipher := snd (RC4.XORKeyStream c2s body);
           serverToClientCipher := s2c;
           paddingPRNGSeed := seed;
           paddingPRNG := snd padding |},
     {| clientReader := clientReader w; cryptoRand := rand' |}).
Proof.
  intros Hseed Hrand Hlen Hinit. cbv zeta.
  unfold NewClientObfuscator. rewrite Hseed.
  unfold bind at 1. unfold MakeSecureRandomBytes. rewrite Hrand.
  change (Z.to_nat OBFUSCATE_SEED_LENGTH) with 16%nat.
  rewrite (read_full_app obfuscatorSeed rand' 16 Hlen).
  unfold bind at 1, lift at 1. rewrite Hinit.
  fold (effective_minPadding config). fold (effective_maxPadding config).
  unfold makeSeedMessage.
  destruct (Padding (NewPRNGWithSeed seed) (effective_minPadding config)
              (effective_maxPadding config)) as [padding g'].
  cbn [fst snd].
  rewrite <- !app_assoc.
  rewrite firstn_app, Nat.sub_diag, firstn_all, firstn_O, app_nil_r.
  rewrite skipn_app, Nat.sub_diag, skipn_all, skipn_O. cbn [app].
  destruct (RC4.XORKeyStream c2s _) as [body c2s'].
  reflexivity.
Qed.

(** The eight header bytes before encryption. *)
Lemma seed_header_fields (n : Z) :
  0 <= n < 2 ^ 31 ->
  let header := put_uint32_be OBFUSCATE_MAGIC_VALUE ++ put_uint32_be n in
  length header = 8%nat
  /\ int32_be (firstn 4 header) = OBFUSCATE_MAGIC_VALUE
  /\ int32_be (firstn 4 (skipn 4 header)) = n.
Proof.
  intros Hn header. split; [reflexivity|]. split; [reflexivity|].
  change (firstn 4 (skipn 4 header)) with (put_uint32_be n).
  rewrite <- (app_nil_r (put_uint32_be _)).
  by apply int32_be_put_uint32_be.
Qed.

(** What the server makes of a seed, an encrypted header and at least
    [SEED_LENGTH] bytes of encrypted padding. *)
Lemma NewServerObfuscator_reads (serverConfig : ObfuscatorConfig)
    (obfuscatorSeed header padding rest random : bytes) (c2s s2c : RC4.Cipher) :
  length obfuscatorSeed = 16%nat ->
  initObfuscatorCiphers obfuscatorSeed serverConfig = Ok (c2s, s2c) ->
  length header = 8%nat ->
  int32_be (firstn 4 header) = OBFUSCATE_MAGIC_VALUE ->
  int32_be (firstn 4 (skipn 4 header)) = Z.of_nat (length padding) ->
  SEED_LENGTH <= Z.of_nat (length padding) <= OBFUSCATE_MAX_PADDING ->
  NewServerObfuscator serverConfig
    {| clientReader :=
         (obfuscatorSeed ++ fst (RC4.XORKeyStream c2s (header ++ padding))) ++ rest;
       cryptoRand := random |}
  = (Ok {| seedMessage := None;
           paddingLength := -1;
           clientToServerCipher := snd (RC4.XORKeyStream c2s (header ++ padding));
           serverToClientCipher := s2c;
           paddingPRNGSeed := take (Z.to_nat SEED_LENGTH) padding;
           paddingPRNG := NewPRNGWithSeed (take (Z.to_nat SEED_LENGTH) padding) |},
     {| clientReader := rest; cryptoRand := random |}).
Proof.
  intros Hlen Hinit Hheader Hmagic Hfield Hpad.
  unfold NewServerObfuscator, bind at 1.
  rewrite XORKeyStream_app. cbn [fst snd].
  pose proof (XORKeyStream_involutive header c2s) as Hinv1.
  pose proof (XORKeyStream_length header c2s) as Hlen1.
  set (fields := fst (RC4.XORKeyStream c2s header)) in *.
  set (c1 := snd (RC4.XORKeyStream c2s header)) in *.
  clearbody fields c1.
  pose proof (XORKeyStream_involutive padding c1) as Hinv2.
  pose proof (XORKeyStream_length padding c1) as Hlen2.
  set (wire := fst (RC4.XORKeyStream c1 padding)) in *.
  set (c2 := snd (RC4.XORKeyStream c1 padding)) in *.
  clearbody wire c2.
  rewrite (readSeedMessage_long_padding serverConfig _ obfuscatorSeed
             fields wire rest c2s s2c).
  - rewrite Hinv1. cbn [fst snd]. rewrite Hinv2. reflexivity.
  - cbn [clientReader]. by rewrite <- !app_assoc.
  - assumption.
  - lia.
  - assumption.
  - rewrite Hinv1. exact Hmagic.
  - rewrite Hinv1. cbn [fst]. rewrite Hlen2. exact Hfield.
  - lia.
  - lia.
Qed.

(** X1.  A server configured with the client's keyword accepts the seed
    message the client stages: it reads exactly the message, draws nothing
    from its random source, ends with both ciphers in the state the client's
    are in, and takes as its padding seed the first [SEED_LENGTH] bytes of the
    client's padding. *)
Theorem seed_message_round_trip (config serverConfig : ObfuscatorConfig) (w : IO)
    (seed obfuscatorSeed rand' : bytes) :
  SEED_LENGTH <= OBFUSCATE_MAX_PADDING ->
  PaddingPRNGSeed config = Some seed ->
  cryptoRand w = obfuscatorSeed ++ rand' ->
  length obfuscatorSeed = 16%nat ->
  Keyword serverConfig = Keyword config ->
  exists (client : Obfuscator PRNG) (message : bytes),
    NewClientObfuscator config w
    = (Ok client, {| clientReader := clientReader w; cryptoRand := rand' |})
    /\ fst (SendSeedMessage client) = Some message
    /\ forall rest random : bytes,
         exists server : Obfuscator PRNG,
           NewServerObfuscator serverConfig
             {| clientReader := message ++ rest; cryptoRand := random |}
           = (Ok server, {| clientReader := rest; cryptoRand := random |})
           /\ clientToServerCipher server = clientToServerCipher client
           /\ serverToClientCipher server = serverToClientCipher client
           /\ paddingPRNGSeed server
              = take (Z.to_nat SEED_LENGTH)
                  (fst (Padding (NewPRNGWithSeed seed)
                          (effective_minPadding (PRNG := PRNG) config)
                          (effective_maxPadding (PRNG := PRNG) config))).
Proof.
  intros Hle Hseed Hrand Hlen Hkey.
  destruct (initObfuscatorCiphers_total obfuscatorSeed config)
    as (c2s & s2c & Hinit).
  pose proof (effective_padding_bounds config Hle) as (Hb1 & Hb2 & Hb3).
  pose proof SEED_LENGTH_pos as Hpos.
  assert (Hpad := Padding_length (NewPRNGWithSeed seed)
                    (effective_minPadding config) (effective_maxPadding config)).
  specialize (Hpad ltac:(lia)).
  rewrite (NewClientObfuscator_spec config w seed obfuscatorSeed rand' c2s s2c)
    by assumption.
  set (padding := fst (Padding (NewPRNGWithSeed seed) _ _)) in *.
  clearbody padding.
  assert (Hrange : SEED_LENGTH <= Z.of_nat (length padding) <= OBFUSCATE_MAX_PADDING)
    by lia.
  assert (Hsmall : 0 <= Z.of_nat (length padding) < 2 ^ 31)
    by (unfold OBFUSCATE_MAX_PADDING in *; lia).
  assert (Hinit' : initObfuscatorCiphers obfuscatorSeed serverConfig = Ok (c2s, s2c))
    by (rewrite <- Hinit; by apply initObfuscatorCiphers_padding_independent).
  eexists. eexists. split; [reflexivity|]. split; [reflexivity|].
  intros rest random.
  pose proof (seed_header_fields (Z.of_nat (length padding)) Hsmall)
    as (Hheader & Hmagic & Hfield).
  eexists. split.
  - exact (NewServerObfuscator_reads serverConfig obfuscatorSeed _ padding rest
             random c2s s2c Hlen Hinit' Hheader Hmagic Hfield Hrange).
  - cbn [clientToServerCipher serverToClientCipher paddingPRNGSeed]. auto.
Qed.

(** X2.  The seed message starts with the 16-byte obfuscator seed in the clear
    and is 24 bytes longer than [GetPaddingLength] reports; [SendSeedMessage]
    hands it out once, and nothing the second time. *)
Theorem seed_message_layout (config : ObfuscatorConfig) (w : IO)
    (seed obfuscatorSeed rand' : bytes) :
  PaddingPRNGSeed config = Some seed ->
  cryptoRand w = obfuscatorSeed ++ rand' ->
  length obfuscatorSeed = 16%nat ->
  exists (client : Obfuscator PRNG) (message : bytes),
    NewClientObfuscator config w
    = (Ok client, {| clientReader := clientReader w; cryptoRand := rand' |})
    /\ fst (SendSeedMessage client) = Some message
    /\ take 16 message = obfuscatorSeed
    /\ Z.of_nat (length message) = 16 + 8 + GetPaddingLength client
    /\ fst (SendSeedMessage (snd (SendSeedMessage client))) = None.
Proof.
  intros Hseed Hrand Hlen.
  destruct (initObfuscatorCiphers_total obfuscatorSeed config)
    as (c2s & s2c & Hinit).
  rewrite (NewClientObfuscator_spec config w seed obfuscatorSeed rand' c2s s2c)
    by assumption.
  set (padding := fst (Padding (NewPRNGWithSeed seed) _ _)) in *.
  clearbody padding.
  eexists. eexists. split; [reflexivity|]. split; [reflexivity|].
  cbn [SendSeedMessage GetPaddingLength paddingLength seedMessage fst snd].
  split; [|split; [|reflexivity]].
  - by rewrite take_app_length'.
  - rewrite length_app, XORKeyStream_length, !length_app. cbn [length put_uint32_be].
    lia.
Qed.

(** X3.  A seed message with a valid magic value and a padding length field
    that is negative or above [OBFUSCATE_MAX_PADDING] is rejected, the stream
    left just past the 24 header bytes: no padding byte is read. *)
Theorem readSeedMessage_rejects_bad_length (config : ObfuscatorConfig) (w : IO)
    (seed fields rest : bytes) (c2s s2c : RC4.Cipher) :
  clientReader w = seed ++ fields ++ rest ->
  length seed = 16%nat ->
  length fields = 8%nat ->
  initObfuscatorCiphers seed config = Ok (c2s, s2c) ->
  int32_be (firstn 4 (fst (RC4.XORKeyStream c2s fields))) = OBFUSCATE_MAGIC_VALUE ->
  (int32_be (firstn 4 (skipn 4 (fst (RC4.XORKeyStream c2s fields)))) < 0
   \/ OBFUSCATE_MAX_PADDING
      < int32_be (firstn 4 (skipn 4 (fst (RC4.XORKeyStream c2s fields))))) ->
  readSeedMessage config w
  = (Err "invalid padding length",
     {| clientReader := rest; cryptoRand := cryptoRand w |}).
Proof.
  intros Hstream Hseed Hfields Hinit Hmagic Hlen.
  rewrite (readSeedMessage_header config w seed fields rest c2s s2c) by assumption.
  destruct (RC4.XORKeyStream c2s fields) as [plain c2s']. cbn [fst] in *.
  cbv zeta. rewrite Hmagic, Z.eqb_refl. cbn [negb].
  assert (Hbad : (int32_be (firstn 4 (skipn 4 plain)) <? 0)
                 || (OBFUSCATE_MAX_PADDING <? int32_be (firstn 4 (skipn 4 plain)))
                 = true).
  { apply orb_true_iff. destruct Hlen; [left|right]; by apply Z.ltb_lt. }
  rewrite Hbad. reflexivity.
Qed.

(** X4.  A client stream that ends before the 24 header bytes yields no server
    obfuscator, whatever it holds. *)
Theorem NewServerObfuscator_truncated (config : ObfuscatorConfig) (w : IO) :
  (length (clientReader w) < 24)%nat ->
  is_Ok (fst (NewServerObfuscator config w)) = false.
Proof.
  intros Hshort. unfold NewServerObfuscator, bind at 1.
  unfold readSeedMessage, bind at 1. unfold ReadFull_client at 1.
  change (Z.to_nat OBFUSCATE_SEED_LENGTH) with 16%nat.
  unfold read_full at 1.
  destruct (16 <=? length (clientReader w))%nat eqn:E16; [|reflexivity].
  apply Nat.leb_le in E16.
  destruct (initObfuscatorCiphers_total (firstn 16 (clientReader w)) config)
    as (c2s & s2c & Hinit).
  unfold bind at 1, lift at 1. rewrite Hinit.
  unfold bind at 1. unfold ReadFull_client at 1. cbn [clientReader cryptoRand].
  destruct (read_full_short (skipn 16 (clientReader w)) 8) as [e He].
  { rewrite length_skipn. lia. }
  rewrite He. reflexivity.
Qed.

End ObfuscatorRoundTrip.

(** ** The stream after the seed message *)

Section ObfuscateFacts.

Import Obfuscator ObfuscatorMethods.
Context {PRNG : Type}.

(** X5.  With the ciphers of the two sides in the same state, what the client
    obfuscates the server recovers with the same method, and likewise from the
    server to the client; afterwards the ciphers are in the same state again. *)
Theorem obfuscate_round_trip (client server : Obfuscator PRNG) (buffer : bytes) :
  clientToServerCipher client = clientToServerCipher server ->
  serverToClientCipher client = serverToClientCipher server ->
  let '(wire, client') := ObfuscateClientToServer client buffer in
  let '(plain, server') := ObfuscateClientToServer server wire in
  let '(back, server'') := ObfuscateServerToClient server' buffer in
  let '(plain', client'') := ObfuscateServerToClient client' back in
  plain = buffer /\ plain' = buffer
  /\ clientToServerCipher client'' = clientToServerCipher server''
  /\ serverToClientCipher client'' = serverToClientCipher server''.
Proof.
  intros Hc2s Hs2c.
  unfold ObfuscateClientToServer, ObfuscateServerToClient.
  rewrite <- Hc2s, <- Hs2c.
  pose proof (XORKeyStream_involutive buffer (clientToServerCipher client)) as H1.
  pose proof (XORKeyStream_involutive buffer (serverToClientCipher client)) as H2.
  destruct (RC4.XORKeyStream (clientToServerCipher client) buffer) as [wire c].
  cbn [fst snd] in H1. rewrite H1.
  cbn [serverToClientCipher clientToServerCipher].
  destruct (RC4.XORKeyStream (serverToClientCipher client) buffer) as [back c'].
  cbn [fst snd] in H2. rewrite H2. cbn. auto.
Qed.

(** X6.  Obfuscating a stream in two buffers gives the bytes, and the
    obfuscator, of obfuscating it in one. *)
Theorem obfuscate_in_pieces (obfuscator : Obfuscator PRNG) (a b : bytes) :
  let '(a', obfuscator') := ObfuscateClientToServer obfuscator a in
  let '(b', obfuscator'') := ObfuscateClientToServer obfuscator' b in
  ObfuscateClientToServer obfuscator (a ++ b) = (a' ++ b', obfuscator'').
Proof.
  unfold ObfuscateClientToServer. rewrite XORKeyStream_app.
  destruct (RC4.XORKeyStream (clientToServerCipher obfuscator) a) as [a' c].
  cbn [fst snd clientToServerCipher].
  destruct (RC4.XORKeyStream c b) as [b' c']. reflexivity.
Qed.

End ObfuscateFacts.

(** ** The seed message on concrete inputs *)

Section RoundTripExamplesFacts.

Import Obfuscator ObfuscatorMethods.

Lemma seed_message_round_trip_witness :
  exists (client : Obfuscator Z) (message : bytes),
    NewClientObfuscator Examples.config Examples.client_world
    = (Ok client, {| clientReader := clientReader Examples.client_world;
                     cryptoRand := [42] |})
    /\ fst (SendSeedMessage client) = Some message
    /\ forall rest random : bytes,
         exists server : Obfuscator Z,
           NewServerObfuscator Examples.out_of_range_config
             {| clientReader := message ++ rest; cryptoRand := random |}
           = (Ok server, {| clientReader := rest; cryptoRand := random |})
           /\ clientToServerCipher server = clientToServerCipher client
           /\ serverToClientCipher server = serverToClientCipher client
           /\ paddingPRNGSeed server
              = take (Z.to_nat SEED_LENGTH)
                  (fst (Padding (NewPRNGWithSeed (repeat 1 32))
                          (effective_minPadding (PRNG := Z) Examples.config)
                          (effective_maxPadding (PRNG := Z) Examples.config))).
Proof.
  apply (seed_message_round_trip (PRNG := Z) Examples.config
           Examples.out_of_range_config Examples.client_world
           (repeat 1 32) Examples.seed [42]).
  - vm_compute. discriminate.
  - reflexivity.
  - reflexivity.
  - reflexivity.
  - reflexivity.
Defined.

Lemma seed_message_layout_witness :
  exists (client : Obfuscator Z) (message : bytes),
    NewClientObfuscator Examples.config Examples.client_world
    = (Ok client, {| clientReader := clientReader Examples.client_world;
                     cryptoRand := [42] |})
    /\ fst (SendSeedMessage client) = Some message
    /\ take 16 message = Examples.seed
    /\ Z.of_nat (length message) = 16 + 8 + GetPaddingLength client
    /\ fst (SendSeedMessage (snd (SendSeedMessage client))) = None.
Proof.
  apply (seed_message_layout (PRNG := Z) Examples.config Examples.client_world
           (repeat 1 32) Examples.seed [42]); reflexivity.
Defined.

Lemma readSeedMessage_rejects_bad_length_witness :
  readSeedMessage (PRNG := Z) Examples.config
    (Examples.server_world
       (Examples.seed ++ RoundTripExamples.oversize_fields ++ [1; 2; 3]))
  = (Err "invalid padding length",
     {| clientReader := [1; 2; 3]; cryptoRand := repeat 7 40 |}).
Proof.
  apply (readSeedMessage_rejects_bad_length Examples.config
           (Examples.server_world
              (Examples.seed ++ RoundTripExamples.oversize_fields ++ [1; 2; 3]))
           Examples.seed RoundTripExamples.oversize_fields [1; 2; 3]
           (Examples.cipher_of Examples.clientToServerKey)
           (Examples.cipher_of Examples.serverToClientKey)).
  - reflexivity.
  - reflexivity.
  - reflexivity.
  - exact example_ciphers.
  - vm_compute. reflexivity.
  - right. vm_compute. reflexivity.
Defined.

Lemma NewServerObfuscator_truncated_witness :
  is_Ok (fst (NewServerObfuscator (PRNG := Z) Examples.config
                (Examples.server_world [1; 2; 3]))) = false.
Proof.
  apply (NewServerObfuscator_truncated (PRNG := Z) Examples.config
           (Examples.server_world [1; 2; 3])).
  cbn. lia.
Defined.

Lemma obfuscate_round_trip_witness :
  let buffer := bytes_of_string "SSH-2.0-OpenSSH" in
  let '(wire, client') :=
    ObfuscateClientToServer RoundTripExamples.client buffer in
  let '(plain, server') :=
    ObfuscateClientToServer RoundTripExamples.server wire in
  let '(back, server'') := ObfuscateServerToClient server' buffer in
  let '(plain', client'') := ObfuscateServerToClient client' back in
  plain = buffer /\ plain' = buffer
  /\ clientToServerCipher client'' = clientToServerCipher server''
  /\ serverToClientCipher client'' = serverToClientCipher server''.
Proof.
  intros buffer.
  apply (obfuscate_round_trip RoundTripExamples.client RoundTripExamples.server
           buffer); reflexivity.
Defined.

End RoundTripExamplesFacts.

(** ** The store: errors, lists of entries, counts and round trips *)

Section StoreAPIFacts.

Import DataStore DataStoreAPI.
Context `{ProtocolInterface} `{PRNGInterface PRNG}.

Lemma CloseDataStore_closed (w : World PRNG) :
  activeDatastoreDB (CloseDataStore w) = None.
Proof. unfold CloseDataStore. by destruct (activeDatastoreDB w) eqn:E. Qed.

Lemma datastoreUpdate_closed {A} (fn : M datastoreDB A) (w : World PRNG) :
  activeDatastoreDB w = None ->
  datastoreUpdate fn w = (Err "database not open", w).
Proof. intros Hw. unfold datastoreUpdate. by rewrite Hw. Qed.

Lemma datastoreView_closed {A} (fn : datastoreDB -> M (World PRNG) A)
    (w : World PRNG) :
  activeDatastoreDB w = None ->
  datastoreView fn w = (Err "database not open", w).
Proof. intros Hw. unfold datastoreView. by rewrite Hw. Qed.

(** X7.  Once the store is closed, every operation on it fails with "database
    not open" and leaves the world as it is; the count of server entries reads
    as 0, and an iterator that still holds identifiers is closed by the
    failure of [Next]. *)
Theorem closed_datastore_fails (w : World PRNG) (config : Config)
    (ipAddress networkID dialParams key value : string)
    (serverEntryFields : ServerEntryFields) (replaceIfExists : bool)
    (iterator : ServerEntryIterator) :
  let w' := CloseDataStore w in
  let closed {A} : result A * World PRNG := (Err "database not open", w') in
  PromoteServerEntry config ipAddress w' = closed
  /\ hasServerEntryFilterChanged config w' = closed
  /\ SetDialParameters ipAddress networkID dialParams w' = closed
  /\ DeleteDialParameters ipAddress networkID w' = closed
  /\ GetDialParameters (fun data => Ok data) ipAddress networkID w' = closed
  /\ SetKeyValue key value w' = closed
  /\ GetKeyValue key w' = closed
  /\ CountServerEntries w' = 0
  /\ (ValidateServerEntryFields serverEntryFields = Ok tt ->
      StoreServerEntry serverEntryFields replaceIfExists w' = closed)
  /\ (TargetServerEntry config = "" ->
      NewServerEntryIterator config w' = closed
      /\ NewTacticsServerEntryIterator config w' = closed)
  /\ (isTargetServerEntryIterator iterator = false ->
      (Z.to_nat (serverEntryIndex iterator) < length (serverEntryIDs iterator))%nat ->
      exists iterator',
        Next (iterator, w') = (Err "database not open", (iterator', w'))
        /\ serverEntryIDs iterator' = []).
Proof.
  intros w' closed.
  pose proof (CloseDataStore_closed w) as Hclosed. fold w' in Hclosed.
  clearbody w'.
  repeat match goal with |- _ /\ _ => split end.
  - unfold PromoteServerEntry. by apply datastoreUpdate_closed.
  - unfold hasServerEntryFilterChanged, bind, lift, makeServerEntryFilterValue.
    by apply datastoreView_closed.
  - unfold SetDialParameters. by apply datastoreUpdate_closed.
  - unfold DeleteDialParameters. by apply datastoreUpdate_closed.
  - unfold GetDialParameters, bind. by rewrite datastoreView_closed.
  - unfold SetKeyValue. by apply datastoreUpdate_closed.
  - unfold GetKeyValue. by apply datastoreView_closed.
  - unfold CountServerEntries, scanServerEntries.
    by rewrite datastoreView_closed.
  - intros Hvalid. unfold StoreServerEntry. rewrite Hvalid.
    by apply datastoreUpdate_closed.
  - intros Htarget. split.
    + unfold NewServerEntryIterator. rewrite Htarget. cbn [String.eqb negb].
      unfold bind, hasServerEntryFilterChanged, bind, lift,
        makeServerEntryFilterValue.
      by rewrite datastoreView_closed.
    + unfold NewTacticsServerEntryIterator. rewrite Htarget.
      cbn [String.eqb negb].
      unfold reset. cbn [Close set_ids isTargetServerEntryIterator].
      by rewrite datastoreView_closed.
  - intros Htarget Hpending. unfold Next. rewrite Htarget.
    destruct (drop (Z.to_nat (serverEntryIndex iterator)) (serverEntryIDs iterator))
      as [|serverEntryID pending] eqn:Hdrop.
    { apply (f_equal length) in Hdrop. rewrite length_drop in Hdrop.
      cbn in Hdrop. lia. }
    cbn [next_loop]. rewrite datastoreView_closed by assumption.
    eexists. split; reflexivity.
Qed.

(** What a store of a valid entry does on an open store, for both values of
    the flag. *)
Lemma StoreServerEntry_spec (serverEntryFields : ServerEntryFields)
    (replaceIfExists : bool) (w : World PRNG) (db : datastoreDB) :
  activeDatastoreDB w = Some db ->
  ValidateServerEntryFields serverEntryFields = Ok tt ->
  let ipAddress := GetIPAddress serverEntryFields in
  let update :=
    replaceIfExists
    || match existing_version db ipAddress with
       | Some v => bool_decide (v < GetConfigurationVersion serverEntryFields)
       | None => true
       end in
  StoreServerEntry serverEntryFields replaceIfExists w
  = (Ok tt,
     {| activeDatastoreDB :=
          Some (if update
                then {| serverEntries :=
                          <[ipAddress := JSON serverEntryFields]> (serverEntries db);
                        keyValues := keyValues db;
                        dialParameters := dialParameters db |}
                else db);
        defaultPRNG := defaultPRNG w |}).
Proof.
  intros Hdb Hvalid. cbv zeta.
  unfold StoreServerEntry. rewrite Hvalid.
  unfold datastoreUpdate. rewrite Hdb.
  unfold existing_version, stored_version, GetIPAddress, GetConfigurationVersion.
  destruct (serverEntries db !! IpAddress serverEntryFields) as [[existing|raw]|];
    cbn [json_Unmarshal].
  - destruct (Z.ltb_spec (-1) (ConfigurationVersion existing)) as [Hex|Hex];
      destruct (Z.leb_spec 0 (ConfigurationVersion existing)) as [Hnn|Hnn];
      try lia.
    + destruct (Z.ltb_spec (ConfigurationVersion existing)
                  (ConfigurationVersion serverEntryFields)) as [Hlt|Hge].
      * rewrite bool_decide_eq_true_2 by assumption.
        by destruct replaceIfExists.
      * rewrite bool_decide_eq_false_2 by lia.
        by destruct replaceIfExists.
    + by destruct replaceIfExists.
  - by destruct replaceIfExists.
  - by destruct replaceIfExists.
Qed.

(** X8.  When the address of a valid entry has no record, or has the record
    of a server entry, a store with [replaceIfExists] succeeds and the
    incoming entry is what the store holds for the address afterwards, also
    over a stored entry of a higher version; nothing else changes. *)
Theorem StoreServerEntry_replace (serverEntryFields : ServerEntryFields)
    (w : World PRNG) (db : datastoreDB) :
  activeDatastoreDB w = Some db ->
  ValidateServerEntryFields serverEntryFields = Ok tt ->
  serverEntries db !! GetIPAddress serverEntryFields = None
  \/ decodes (serverEntries db) (GetIPAddress serverEntryFields) = true ->
  exists db',
    StoreServerEntry serverEntryFields true w
    = (Ok tt, {| activeDatastoreDB := Some db'; defaultPRNG := defaultPRNG w |})
    /\ serverEntries db' !! GetIPAddress serverEntryFields
       = Some (JSON serverEntryFields)
    /\ (forall ipAddress, ipAddress <> GetIPAddress serverEntryFields ->
        serverEntries db' !! ipAddress = serverEntries db !! ipAddress)
    /\ keyValues db' = keyValues db
    /\ dialParameters db' = dialParameters db.
Proof.
  intros Hdb Hvalid _.
  rewrite (StoreServerEntry_spec serverEntryFields true w db Hdb Hvalid).
  cbn [orb]. eexists. split; [reflexivity|].
  cbn [serverEntries keyValues dialParameters].
  split; [apply lookup_insert_eq|]. split; [|done].
  intros ipAddress Hne. by apply lookup_insert_ne.
Qed.

(** X9.  Storing an entry a second time changes nothing and reports what the
    first store reported, whatever the flag, the entry and the state of the
    store. *)
Theorem StoreServerEntry_idempotent (serverEntryFields : ServerEntryFields)
    (replaceIfExists : bool) (w : World PRNG) :
  let w' := snd (StoreServerEntry serverEntryFields replaceIfExists w) in
  StoreServerEntry serverEntryFields replaceIfExists w'
  = (fst (StoreServerEntry serverEntryFields replaceIfExists w), w').
Proof.
  cbv zeta.
  destruct (ValidateServerEntryFields serverEntryFields) as [[]|e] eqn:Hvalid;
    [|unfold StoreServerEntry; by rewrite Hvalid].
  destruct (activeDatastoreDB w) as [db|] eqn:Hdb;
    [|unfold StoreServerEntry; rewrite Hvalid;
      by rewrite !(datastoreUpdate_closed _ w Hdb)].
  rewrite (StoreServerEntry_spec serverEntryFields replaceIfExists w db Hdb Hvalid).
  cbn [fst snd].
  match goal with |- context [Some (if ?u then ?a else ?b)] =>
    destruct u eqn:Hupdate; set (db' := a) in * end.
  - rewrite (fun e => StoreServerEntry_spec serverEntryFields replaceIfExists
                         {| activeDatastoreDB := Some db';
                            defaultPRNG := defaultPRNG w |} db' e Hvalid)
      by reflexivity.
    cbn [defaultPRNG]. do 3 f_equal.
    assert (Hsame : {| serverEntries :=
                         <[GetIPAddress serverEntryFields := JSON serverEntryFields]>
                           (serverEntries db');
                       keyValues := keyValues db';
                       dialParameters := dialParameters db' |} = db').
    { unfold db'. cbn [serverEntries keyValues dialParameters].
      by rewrite insert_insert_eq. }
    rewrite Hsame.
    match goal with |- (if ?b then _ else _) = _ => destruct b end; reflexivity.
  - rewrite (fun e => StoreServerEntry_spec serverEntryFields replaceIfExists
                         {| activeDatastoreDB := Some db;
                            defaultPRNG := defaultPRNG w |} db e Hvalid)
      by reflexivity.
    cbn [defaultPRNG]. by rewrite Hupdate.
Qed.

Lemma StoreServerEntries_app (a b : list ServerEntryFields)
    (replaceIfExists : bool) (w : World PRNG) :
  StoreServerEntries (a ++ b) replaceIfExists w
  = (let* _ := StoreServerEntries a replaceIfExists in
     StoreServerEntries b replaceIfExists) w.
Proof.
  revert w. induction a as [|x a IH]; intros w; [reflexivity|].
  cbn [app StoreServerEntries]. unfold bind in *.
  destruct (StoreServerEntry x replaceIfExists w) as [[[]|e] w1]; [|reflexivity].
  apply IH.
Qed.

(** Valid entries are all stored: the store stays open and only the
    server-entries bucket is written. *)
Lemma StoreServerEntries_valid (entries : list ServerEntryFields)
    (replaceIfExists : bool) : forall (w : World PRNG) (db : datastoreDB),
  activeDatastoreDB w = Some db ->
  Forall (fun fields => ValidateServerEntryFields fields = Ok tt) entries ->
  exists db',
    StoreServerEntries entries replaceIfExists w
    = (Ok tt, {| activeDatastoreDB := Some db'; defaultPRNG := defaultPRNG w |})
    /\ keyValues db' = keyValues db
    /\ dialParameters db' = dialParameters db.
Proof.
  induction entries as [|x entries IH]; intros w db Hdb Hvalid.
  - exists db. destruct w as [active g]. cbn in *. by subst active.
  - inversion Hvalid as [|? ? Hx Hrest]; subst.
    cbn [StoreServerEntries]. unfold bind.
    rewrite (StoreServerEntry_spec x replaceIfExists w db Hdb Hx).
    match goal with |- context [Some (if ?u then ?a else ?b)] =>
      set (db1 := if u then a else b) end.
    destruct (IH {| activeDatastoreDB := Some db1; defaultPRNG := defaultPRNG w |}
                db1 eq_refl Hrest) as (db' & Hrun & Hkv & Hdp).
    exists db'. split; [exact Hrun|].
    rewrite Hkv, Hdp. unfold db1. by case_match.
Qed.

(** X10.  [StoreServerEntries] is not atomic: at the first invalid entry it
    returns the error with the entries before it stored and the entries after
    it not looked at. *)
Theorem StoreServerEntries_stops_at_first_invalid
    (good rest : list ServerEntryFields) (bad : ServerEntryFields)
    (replaceIfExists : bool) (w : World PRNG) (db : datastoreDB) (e : string) :
  activeDatastoreDB w = Some db ->
  Forall (fun fields => ValidateServerEntryFields fields = Ok tt) good ->
  ValidateServerEntryFields bad = Err e ->
  exists w',
    StoreServerEntries good replaceIfExists w = (Ok tt, w')
    /\ StoreServerEntries (good ++ bad :: rest) replaceIfExists w
       = (Err ("invalid server entry: " +:+ e), w').
Proof.
  intros Hdb Hgood Hbad.
  destruct (StoreServerEntries_valid good replaceIfExists w db Hdb Hgood)
    as (db' & Hrun & _).
  eexists. split; [exact Hrun|].
  rewrite StoreServerEntries_app. unfold bind at 1. rewrite Hrun.
  cbn [StoreServerEntries]. unfold bind, StoreServerEntry. by rewrite Hbad.
Qed.

Lemma existing_version_stored (db : datastoreDB) (ipAddress : string) (v : Z) :
  existing_version db ipAddress = Some v ->
  stored_version db ipAddress = Some v /\ 0 <= v.
Proof.
  unfold existing_version.
  destruct (stored_version db ipAddress) as [v'|]; [|done].
  destruct (Z.leb_spec 0 v'); [|done]. by intros [= ->].
Qed.

Lemma stored_existing_version (db : datastoreDB) (ipAddress : string) (v : Z) :
  stored_version db ipAddress = Some v -> 0 <= v ->
  existing_version db ipAddress = Some v.
Proof.
  intros Hv Hnn. unfold existing_version. rewrite Hv.
  destruct (Z.leb_spec 0 v); [done|lia].
Qed.

Lemma stored_version_insert (db : datastoreDB) (fields : ServerEntryFields)
    (ipAddress : string) :
  stored_version
    {| serverEntries := <[GetIPAddress fields := JSON fields]> (serverEntries db);
       keyValues := keyValues db;
       dialParameters := dialParameters db |} ipAddress
  = if decide (ipAddress = GetIPAddress fields)
    then Some (GetConfigurationVersion fields)
    else stored_version db ipAddress.
Proof.
  unfold stored_version. cbn [serverEntries].
  destruct (decide (ipAddress = GetIPAddress fields)) as [->|Hne].
  - by rewrite lookup_insert_eq.
  - by rewrite lookup_insert_ne.
Qed.

(** A store without [replaceIfExists] never lowers a version that is not
    negative. *)
Lemma StoreServerEntry_monotone (fields : ServerEntryFields) (w : World PRNG)
    (db : datastoreDB) (ipAddress : string) (n v : Z) :
  activeDatastoreDB w = Some db ->
  ValidateServerEntryFields fields = Ok tt ->
  0 <= n <= v ->
  stored_version db ipAddress = Some v ->
  exists db' v',
    StoreServerEntry fields false w
    = (Ok tt, {| activeDatastoreDB := Some db'; defaultPRNG := defaultPRNG w |})
    /\ stored_version db' ipAddress = Some v' /\ n <= v'.
Proof.
  intros Hdb Hvalid Hn Hv.
  rewrite (StoreServerEntry_spec fields false w db Hdb Hvalid). cbn [orb].
  match goal with |- context [Some (if ?u then ?a else ?b)] =>
    set (update := u); set (db1 := if update then a else b) end.
  enough (Hgoal : exists v', stored_version db1 ipAddress = Some v' /\ n <= v').
  { destruct Hgoal as (v' & Hv' & Hn'). by exists db1, v'. }
  unfold db1, update.
  destruct (decide (ipAddress = GetIPAddress fields)) as [->|Hne].
  - rewrite (stored_existing_version db _ v Hv) by lia.
    destruct (decide (v < GetConfigurationVersion fields)) as [Hlt|Hge].
    + rewrite bool_decide_eq_true_2 by assumption.
      rewrite stored_version_insert, decide_True by reflexivity.
      eexists. split; [reflexivity|lia].
    + rewrite bool_decide_eq_false_2 by assumption.
      eexists. split; [eassumption|lia].
  - exists v. split; [|lia].
    case_match; [|exact Hv].
    by rewrite stored_version_insert, decide_False.
Qed.

Lemma StoreServerEntries_monotone (entries : list ServerEntryFields)
    (ipAddress : string) (n : Z) : forall (w : World PRNG) (db : datastoreDB) (v : Z),
  activeDatastoreDB w = Some db ->
  Forall (fun fields => ValidateServerEntryFields fields = Ok tt) entries ->
  0 <= n <= v ->
  stored_version db ipAddress = Some v ->
  exists db' v',
    StoreServerEntries entries false w
    = (Ok tt, {| activeDatastoreDB := Some db'; defaultPRNG := defaultPRNG w |})
    /\ stored_version db' ipAddress = Some v' /\ n <= v'.
Proof.
  induction entries as [|x entries IH]; intros w db v Hdb Hvalid Hn Hv.
  - exists db, v. destruct w as [active g]. cbn in *. subst active.
    split; [reflexivity|]. split; [assumption|lia].
  - inversion Hvalid as [|? ? Hx Hrest]; subst.
    destruct (StoreServerEntry_monotone x w db ipAddress n v Hdb Hx Hn Hv)
      as (db1 & v1 & Hrun1 & Hv1 & Hn1).
    cbn [StoreServerEntries]. unfold bind. rewrite Hrun1.
    destruct (IH {| activeDatastoreDB := Some db1; defaultPRNG := defaultPRNG w |}
                db1 v1 eq_refl Hrest ltac:(lia) Hv1)
      as (db' & v' & Hrun & Hv' & Hn').
    by exists db', v'.
Qed.

(** X11.  After a list of valid entries has been stored without
    [replaceIfExists], the store holds for each of them that has a version
    that is not negative a record of its address with that version or a later
    one. *)
Theorem StoreServerEntries_keeps_newest (entries : list ServerEntryFields) :
  forall (w : World PRNG) (db : datastoreDB),
  activeDatastoreDB w = Some db ->
  Forall (fun fields => ValidateServerEntryFields fields = Ok tt) entries ->
  exists db',
    StoreServerEntries entries false w
    = (Ok tt, {| activeDatastoreDB := Some db'; defaultPRNG := defaultPRNG w |})
    /\ forall fields, fields ∈ entries ->
         0 <= GetConfigurationVersion fields ->
         exists v, stored_version db' (GetIPAddress fields) = Some v
                   /\ GetConfigurationVersion fields <= v.
Proof.
  induction entries as [|x entries IH]; intros w db Hdb Hvalid.
  - exists db. destruct w as [active g]. cbn in *. subst active.
    split; [reflexivity|]. intros fields Hin. by apply elem_of_nil in Hin.
  - inversion Hvalid as [|? ? Hx Hrest]; subst.
    pose proof (StoreServerEntry_spec x false w db Hdb Hx) as Hrun1.
    cbv zeta in Hrun1. cbn [orb] in Hrun1.
    match type of Hrun1 with context [Some (if ?u then ?a else ?b)] =>
      set (update := u) in *; set (db1 := if update then a else b) in * end.
    set (w1 := {| activeDatastoreDB := Some db1; defaultPRNG := defaultPRNG w |}) in *.
    destruct (IH w1 db1 eq_refl Hrest) as (db' & Hrun & Hall).
    exists db'. split.
    { cbn [StoreServerEntries]. unfold bind. rewrite Hrun1. exact Hrun. }
    intros fields Hin Hnn. apply elem_of_cons in Hin as [->|Hin]; [|by apply Hall].
    assert (Hx1 : exists v, stored_version db1 (GetIPAddress x) = Some v
                            /\ GetConfigurationVersion x <= v).
    { unfold db1, update.
      destruct (existing_version db (GetIPAddress x)) as [v|] eqn:Hex.
      - destruct (decide (v < GetConfigurationVersion x)) as [Hlt|Hge].
        + rewrite bool_decide_eq_true_2 by assumption.
          rewrite stored_version_insert, decide_True by reflexivity.
          eexists. split; [reflexivity|lia].
        + rewrite bool_decide_eq_false_2 by assumption.
          apply existing_version_stored in Hex as [Hex _].
          eexists. split; [exact Hex|lia].
      - rewrite stored_version_insert, decide_True by reflexivity.
        eexists. split; [reflexivity|lia]. }
    destruct Hx1 as (v1 & Hv1 & Hle1).
    destruct (StoreServerEntries_monotone entries (GetIPAddress x)
                (GetConfigurationVersion x) w1 db1 v1 eq_refl Hrest
                ltac:(lia) Hv1) as (db'' & v' & Hrun' & Hv' & Hle').
    rewrite Hrun in Hrun'. injection Hrun' as <-. eauto.
Qed.

Lemma cursor_keys_Permutation {V} (bucket : gmap string V) :
  cursor_keys bucket ≡ₚ elements (dom bucket).
Proof. unfold cursor_keys. apply merge_sort_Permutation. Qed.

Lemma cursor_keys_NoDup {V} (bucket : gmap string V) : NoDup (cursor_keys bucket).
Proof. rewrite cursor_keys_Permutation. apply NoDup_elements. Qed.

Lemma elem_of_cursor_keys {V} (bucket : gmap string V) (key : string) :
  key ∈ cursor_keys bucket <-> is_Some (bucket !! key).
Proof.
  rewrite cursor_keys_Permutation, elem_of_elements. apply elem_of_dom.
Qed.

(** What [reset] collects before it shuffles: no identifier twice, every
    key of the bucket, and besides the keys only the affinity identifier. *)
Lemma collect_ids_spec (db : datastoreDB) (isInitialRound : bool)
    (iterator : ServerEntryIterator) :
  let ids := fst (collect_ids db isInitialRound iterator) in
  NoDup ids
  /\ (forall key, is_Some (serverEntries db !! key) -> key ∈ ids)
  /\ (forall id, id ∈ ids ->
      is_Some (serverEntries db !! id)
      \/ (isInitialRound = true /\ applyServerAffinity iterator = true
          /\ keyValues db !! datastoreAffinityServerEntryIDKey = Some id)).
Proof.
  unfold collect_ids.
  destruct (isInitialRound && applyServerAffinity iterator) eqn:Hflag.
  - apply andb_true_iff in Hflag as [-> Haffinity].
    destruct (keyValues db !! datastoreAffinityServerEntryIDKey) as [id|] eqn:Hid;
      cbn [fst app].
    + split; [|split].
      * apply NoDup_cons. split.
        -- intros Hin. apply list_elem_of_filter in Hin as [Hne _]. by apply Hne.
        -- apply NoDup_filter, cursor_keys_NoDup.
      * intros key Hkey. destruct (decide (key = id)) as [->|Hne];
          [by left|right].
        apply list_elem_of_filter. split; [congruence|].
        by apply elem_of_cursor_keys.
      * intros id' Hin. apply elem_of_cons in Hin as [->|Hin]; [by right|left].
        apply list_elem_of_filter in Hin as [_ Hin].
        by apply elem_of_cursor_keys.
    + rewrite filter_all by done. split; [apply cursor_keys_NoDup|].
      split; intros key Hkey.
      * by apply elem_of_cursor_keys.
      * left. by apply elem_of_cursor_keys.
  - cbn [fst app]. rewrite filter_all by done. split; [apply cursor_keys_NoDup|].
    split; intros key Hkey.
    + by apply elem_of_cursor_keys.
    + left. by apply elem_of_cursor_keys.
Qed.

(** A round of a store-backed iterator is a permutation of what the first
    pass collects. *)
Lemma reset_Permutation (iterator : ServerEntryIterator)
    (isInitialRound : bool) (w : World PRNG) (db : datastoreDB) :
  isTargetServerEntryIterator iterator = false ->
  activeDatastoreDB w = Some db ->
  exists (serverEntryIDs : list string) (g : PRNG),
    reset isInitialRound (iterator, w)
    = (Ok tt,
       (set_ids (Close iterator) serverEntryIDs 0,
        {| activeDatastoreDB := Some db; defaultPRNG := g |}))
    /\ serverEntryIDs ≡ₚ fst (collect_ids db isInitialRound (Close iterator)).
Proof.
  intros Htarget Hdb.
  pose proof (collect_ids_head db isInitialRound (Close iterator)) as Hhead.
  unfold reset. cbn [isTargetServerEntryIterator Close set_ids].
  rewrite Htarget. unfold datastoreView. rewrite Hdb.
  fold (Close iterator).
  destruct (collect_ids db isInitialRound (Close iterator))
    as [collected shuffleHead].
  cbn [fst snd] in *.
  pose proof (shuffle_spec shuffleHead collected (defaultPRNG w) ltac:(lia))
    as (Hperm & Hlen & _). cbv zeta in Hperm, Hlen.
  destruct (shuffle shuffleHead collected (defaultPRNG w)) as [shuffled g].
  cbn [fst snd] in *.
  cbn [config Close set_ids].
  set (ids := if isInitialRound && _ then _ else shuffled).
  exists ids, g. split; [reflexivity|].
  unfold ids. case_match; [|exact Hperm].
  pose proof (move_replay_candidates_spec db (NetworkID (config iterator))
                shuffleHead shuffled ltac:(lia)) as (Hmove & _).
  cbv zeta in Hmove. by rewrite Hmove.
Qed.

(** X12.  Every round of a store-backed iterator lists each stored server
    exactly once; the only identifier it can list besides is the affinity
    identifier of the first round, if its record has gone. *)
Theorem reset_lists_every_server_once (iterator : ServerEntryIterator)
    (isInitialRound : bool) (w : World PRNG) (db : datastoreDB) :
  isTargetServerEntryIterator iterator = false ->
  activeDatastoreDB w = Some db ->
  exists (serverEntryIDs : list string) (g : PRNG),
    reset isInitialRound (iterator, w)
    = (Ok tt,
       (set_ids (Close iterator) serverEntryIDs 0,
        {| activeDatastoreDB := Some db; defaultPRNG := g |}))
    /\ NoDup serverEntryIDs
    /\ (forall key, is_Some (serverEntries db !! key) -> key ∈ serverEntryIDs)
    /\ (forall id, id ∈ serverEntryIDs ->
        is_Some (serverEntries db !! id)
        \/ (isInitialRound = true /\ applyServerAffinity iterator = true
            /\ keyValues db !! datastoreAffinityServerEntryIDKey = Some id)).
Proof.
  intros Htarget Hdb.
  destruct (reset_Permutation iterator isInitialRound w db Htarget Hdb)
    as (ids & g & Hrun & Hids).
  destruct (collect_ids_spec db isInitialRound (Close iterator))
    as (Hnodup & Hall & Honly).
  exists ids, g. split; [exact Hrun|].
  split; [by rewrite Hids|]. split.
  - intros key Hkey. rewrite Hids. by apply Hall.
  - intros id Hin. rewrite Hids in Hin. by apply Honly.
Qed.

Lemma passes_filter_accepted (iterator : ServerEntryIterator)
    (serverEntry : ServerEntry) :
  passes_filter iterator serverEntry = true <-> accepted iterator serverEntry.
Proof.
  unfold passes_filter, accepted.
  destruct (isTacticsServerEntryIterator iterator).
  - destruct (GetSupportedTacticsProtocols serverEntry); cbn; split;
      (done || lia).
  - rewrite orb_true_iff, !String.eqb_eq. done.
Qed.

Lemma set_ids_same (iterator : ServerEntryIterator) :
  set_ids iterator (serverEntryIDs iterator) (serverEntryIndex iterator) = iterator.
Proof. by destruct iterator. Qed.

(** The loop of [Next] over identifiers without a record. *)
Lemma next_loop_missing (w : World PRNG) (db : datastoreDB)
    (missing pending : list string) :
  forall iterator : ServerEntryIterator,
  activeDatastoreDB w = Some db ->
  Forall (fun id => serverEntries db !! id = None) missing ->
  next_loop (missing ++ pending) false iterator w
  = next_loop pending false
      (set_ids iterator (serverEntryIDs iterator)
         (serverEntryIndex iterator + Z.of_nat (length missing))) w.
Proof.
  induction missing as [|id missing IH]; intros iterator Hdb Hmissing.
  - cbn [app length Z.of_nat]. by rewrite Z.add_0_r, set_ids_same.
  - apply Forall_cons in Hmissing as [Hid Hmissing].
    cbn [app next_loop]. unfold datastoreView, ret. rewrite Hdb, Hid.
    rewrite (IH _ Hdb Hmissing). cbn [serverEntryIDs serverEntryIndex set_ids].
    do 2 f_equal. cbn [length]. lia.
Qed.

(** X13.  [Next] on a store-backed iterator steps over the pending
    identifiers that have no record in the store.  When the first identifier
    with a record holds a server entry that passes the filter (the egress
    region, or for a tactics iterator the support of a tactics protocol),
    [Next] returns that entry, made compatible, and leaves the index just
    behind it; when no pending identifier has a record, it returns nothing,
    without an error, and leaves the index at the end.  The identifiers, the
    store and the generator are not touched. *)
Theorem Next_skips_missing_records (iterator : ServerEntryIterator)
    (w : World PRNG) (db : datastoreDB) (missing rest : list string)
    (id : string) (serverEntry : ServerEntry) :
  isTargetServerEntryIterator iterator = false ->
  activeDatastoreDB w = Some db ->
  Forall (fun id' => serverEntries db !! id' = None) missing ->
  let ids := serverEntryIDs iterator in
  let pending := drop (Z.to_nat (serverEntryIndex iterator)) ids in
  let skipped := serverEntryIndex iterator + Z.of_nat (length missing) in
  (pending = missing ->
   Next (iterator, w) = (Ok None, (set_ids iterator ids skipped, w)))
  /\ (pending = missing ++ id :: rest ->
      serverEntries db !! id = Some (JSON serverEntry) ->
      accepted iterator serverEntry ->
      Next (iterator, w)
      = (Ok (Some (MakeCompatibleServerEntry serverEntry)),
         (set_ids iterator ids (skipped + 1), w))).
Proof.
  intros Htarget Hdb Hmissing ids pending skipped.
  unfold Next. rewrite Htarget. fold ids. fold pending. split.
  - intros ->. rewrite <- (app_nil_r missing).
    by rewrite (next_loop_missing w db missing [] iterator Hdb Hmissing).
  - intros -> Hrecord Haccepted.
    rewrite (next_loop_missing w db missing (id :: rest) iterator Hdb Hmissing).
    cbn [next_loop]. unfold datastoreView, ret. rewrite Hdb, Hrecord.
    cbn [json_Unmarshal].
    assert (Hpass : passes_filter iterator serverEntry = true)
      by by apply passes_filter_accepted.
    change (passes_filter (set_ids _ _ _) serverEntry)
      with (passes_filter iterator serverEntry).
    rewrite Hpass. reflexivity.
Qed.

(** X14.  [MakeCompatibleServerEntry] changes the fronting addresses alone,
    and only when there is none and a fronting domain to copy; applying it a
    second time changes nothing. *)
Theorem MakeCompatibleServerEntry_idempotent (serverEntry : ServerEntry) :
  let compatible := MakeCompatibleServerEntry serverEntry in
  MakeCompatibleServerEntry compatible = compatible
  /\ IpAddress compatible = IpAddress serverEntry
  /\ Region compatible = Region serverEntry
  /\ ConfigurationVersion compatible = ConfigurationVersion serverEntry
  /\ Capabilities compatible = Capabilities serverEntry
  /\ MeekFrontingDomain compatible = MeekFrontingDomain serverEntry
  /\ MeekFrontingAddresses compatible
     = match MeekFrontingAddresses serverEntry with
       | [] => if decide (MeekFrontingDomain serverEntry = "") then []
               else [MeekFrontingDomain serverEntry]
       | addresses => addresses
       end.
Proof.
  cbv zeta. unfold MakeCompatibleServerEntry.
  destruct serverEntry as [ip region version caps domain [|address addresses]];
    cbn [MeekFrontingAddresses MeekFrontingDomain length Nat.eqb andb
         IpAddress Region ConfigurationVersion Capabilities].
  - destruct (decide (domain = "")) as [->|Hne].
    + cbn. done.
    + assert (Heq : String.eqb domain "" = false) by by apply String.eqb_neq.
      rewrite Heq. cbn. done.
  - done.
Qed.


(** X16.  A value set under a key is the value read back under it; the other
    keys read as before, and a key never set reads as the empty string. *)
Theorem KeyValue_round_trip (key value : string) (w : World PRNG)
    (db : datastoreDB) :
  activeDatastoreDB w = Some db ->
  exists w',
    SetKeyValue key value w = (Ok tt, w')
    /\ GetKeyValue key w' = (Ok value, w')
    /\ (forall key', key' <> key ->
        fst (GetKeyValue key' w') = fst (GetKeyValue key' w))
    /\ (forall key', keyValues db !! key' = None ->
        GetKeyValue key' w = (Ok "", w)).
Proof.
  intros Hdb. unfold SetKeyValue, GetKeyValue, datastoreUpdate, datastoreView.
  rewrite Hdb. cbn [put_keyValue].
  eexists. split; [reflexivity|]. cbn [activeDatastoreDB keyValues].
  split; [|split].
  - by rewrite lookup_insert_eq.
  - intros key' Hne. by rewrite lookup_insert_ne.
  - intros key' Hnone. by rewrite Hnone.
Qed.

(** X17.  Dial parameters set for a server and a network are read back for
    them, make the server a replay candidate on that network, and are gone
    after [DeleteDialParameters]; records under other keys stay. *)
Theorem DialParameters_round_trip {DialParameters : Type}
    (json_Marshal : DialParameters -> string)
    (json_Unmarshal : string -> result DialParameters)
    (serverIPAddress networkID : string) (dialParams : DialParameters)
    (w : World PRNG) (db : datastoreDB) :
  (forall p, json_Unmarshal (json_Marshal p) = Ok p) ->
  activeDatastoreDB w = Some db ->
  exists (db1 db2 : datastoreDB),
    let w1 := {| activeDatastoreDB := Some db1; defaultPRNG := defaultPRNG w |} in
    let w2 := {| activeDatastoreDB := Some db2; defaultPRNG := defaultPRNG w |} in
    SetDialParameters serverIPAddress networkID (json_Marshal dialParams) w
    = (Ok tt, w1)
    /\ GetDialParameters json_Unmarshal serverIPAddress networkID w1
       = (Ok (Some dialParams), w1)
    /\ has_dial_parameters db1 networkID serverIPAddress = true
    /\ DeleteDialParameters serverIPAddress networkID w1 = (Ok tt, w2)
    /\ GetDialParameters json_Unmarshal serverIPAddress networkID w2
       = (Ok None, w2)
    /\ has_dial_parameters db2 networkID serverIPAddress = false
    /\ forall key,
         key <> makeDialParametersKey serverIPAddress networkID ->
         dialParameters db1 !! key = dialParameters db !! key
         /\ dialParameters db2 !! key = dialParameters db !! key.
Proof.
  intros Hcodec Hdb.
  unfold SetDialParameters, DeleteDialParameters, GetDialParameters,
    has_dial_parameters, datastoreUpdate, datastoreView, bind, lift, ret.
  rewrite Hdb. cbn [put_dialParameters delete_dialParameters].
  set (key := makeDialParametersKey serverIPAddress networkID).
  exists {| serverEntries := serverEntries db;
            keyValues := keyValues db;
            dialParameters := <[key := json_Marshal dialParams]> (dialParameters db) |},
         {| serverEntries := serverEntries db;
            keyValues := keyValues db;
            dialParameters :=
              delete key (<[key := json_Marshal dialParams]> (dialParameters db)) |}.
  cbv zeta. cbn [activeDatastoreDB serverEntries keyValues dialParameters defaultPRNG].
  rewrite lookup_insert_eq, Hcodec, lookup_delete_eq.
  split; [reflexivity|]. split; [reflexivity|]. split.
  { apply bool_decide_eq_true_2. by eexists. }
  split; [reflexivity|]. split; [reflexivity|]. split.
  { apply bool_decide_eq_false_2. by intros [? ?]. }
  intros key' Hne. by rewrite lookup_delete_ne, lookup_insert_ne.
Qed.

(** X18.  A promote of a stored server records the server and the egress
    region it was promoted under: the filter reads as changed exactly for a
    configuration with another egress region. *)
Theorem PromoteServerEntry_records_filter (config config' : Config)
    (ipAddress : string) (w : World PRNG) (db : datastoreDB) :
  activeDatastoreDB w = Some db ->
  is_Some (serverEntries db !! ipAddress) ->
  exists w',
    PromoteServerEntry config ipAddress w = (Ok tt, w')
    /\ hasServerEntryFilterChanged config' w'
       = (Ok (bool_decide (EgressRegion config' <> EgressRegion config)), w')
    /\ GetKeyValue datastoreAffinityServerEntryIDKey w' = (Ok ipAddress, w').
Proof.
  intros Hdb [data Hstored].
  unfold PromoteServerEntry, datastoreUpdate. rewrite Hdb, Hstored.
  cbn [bind put_keyValue lift makeServerEntryFilterValue].
  eexists. split; [reflexivity|]. split.
  - rewrite (fun e => hasServerEntryFilterChanged_spec config' _ _ e)
      by reflexivity.
    cbn [keyValues]. rewrite lookup_insert_eq. do 2 f_equal.
    destruct (decide (EgressRegion config' = EgressRegion config)) as [Heq|Hne].
    + rewrite bool_decide_eq_true_2 by congruence.
      by rewrite bool_decide_eq_false_2 by auto.
    + rewrite bool_decide_eq_false_2 by congruence.
      by rewrite bool_decide_eq_true_2.
  - unfold GetKeyValue, datastoreView. cbn [activeDatastoreDB keyValues ret].
    rewrite lookup_insert_ne by discriminate. by rewrite lookup_insert_eq.
Qed.

Lemma filter_ext_elem_of {A} (P Q : A -> Prop) `{forall x, Decision (P x)}
    `{forall x, Decision (Q x)} (l : list A) :
  (forall x, x ∈ l -> P x <-> Q x) -> filter P l = filter Q l.
Proof.
  induction l as [|x l IH]; intros Hext; [reflexivity|].
  rewrite !filter_cons.
  assert (Hx : P x <-> Q x) by (apply Hext; by left).
  rewrite IH by (intros y Hy; apply Hext; by right).
  destruct (decide (P x)), (decide (Q x)); tauto || reflexivity.
Qed.

Lemma length_filter_one_more {A} `{EqDecision A} (P Q : A -> Prop)
    `{forall x, Decision (P x)} `{forall x, Decision (Q x)} (k : A) (l : list A) :
  NoDup l -> k ∈ l -> ~ P k -> Q k ->
  (forall x, x ∈ l -> x <> k -> P x <-> Q x) ->
  length (filter Q l) = S (length (filter P l)).
Proof.
  induction l as [|x l IH]; intros Hnodup Hin HP HQ Hext.
  - by apply elem_of_nil in Hin.
  - apply NoDup_cons in Hnodup as [Hx Hnodup]. rewrite !filter_cons.
    destruct (decide (x = k)) as [->|Hne].
    + rewrite decide_True, decide_False by assumption. cbn [length]. f_equal.
      f_equal. symmetry. apply filter_ext_elem_of.
      intros y Hy. apply Hext; [by right|]. intros ->. contradiction.
    + apply elem_of_cons in Hin as [->|Hin]; [done|].
      assert (Hxx : P x <-> Q x) by (apply Hext; [by left|done]).
      assert (IH' := IH Hnodup Hin HP HQ
                       (fun y Hy => Hext y (list_elem_of_further _ _ _ Hy))).
      destruct (decide (P x)), (decide (Q x)); try tauto; cbn [length]; lia.
Qed.

Lemma scan_count (bucket : gmap string document) (keys : list string) :
  forall count : Z,
  foldl (fun acc key =>
           match bucket !! key with
           | Some value =>
               match json_Unmarshal value with
               | Ok _ => acc + 1
               | Err _ => acc
               end
           | None => acc
           end) count keys
  = count + Z.of_nat (length (filter (fun key => decodes bucket key = true) keys)).
Proof.
  induction keys as [|key keys IH]; intros count; cbn [foldl]; [cbn; lia|].
  rewrite IH, filter_cons.
  assert (Hd : decodes bucket key
               = match bucket !! key with Some (JSON _) => true | _ => false end)
    by reflexivity.
  destruct (bucket !! key) as [[entry|raw]|]; cbn [json_Unmarshal].
  - rewrite decide_True by exact Hd. cbn [length]. lia.
  - rewrite decide_False by (rewrite Hd; discriminate). lia.
  - rewrite decide_False by (rewrite Hd; discriminate). lia.
Qed.

Lemma CountServerEntries_spec (w : World PRNG) (db : datastoreDB) :
  activeDatastoreDB w = Some db ->
  CountServerEntries w
  = Z.of_nat (length (filter (fun key => decodes (serverEntries db) key = true)
                        (cursor_keys (serverEntries db)))).
Proof.
  intros Hdb. unfold CountServerEntries, scanServerEntries, datastoreView, ret.
  rewrite Hdb. by rewrite scan_count.
Qed.

Lemma count_after_insert (bucket : gmap string document) (key : string)
    (entry : ServerEntry) :
  length (filter (fun k => decodes (<[key := JSON entry]> bucket) k = true)
            (cursor_keys (<[key := JSON entry]> bucket)))
  = (length (filter (fun k => decodes bucket k = true) (cursor_keys bucket))
     + (if decodes bucket key then 0 else 1))%nat.
Proof.
  assert (Hnew : decodes (<[key := JSON entry]> bucket) key = true)
    by (unfold decodes; by rewrite lookup_insert_eq).
  assert (Hother : forall k, k <> key ->
            decodes (<[key := JSON entry]> bucket) k = decodes bucket k)
    by (intros k Hne; unfold decodes; by rewrite lookup_insert_ne).
  destruct (bucket !! key) as [data|] eqn:Hold.
  - assert (Hkeys : cursor_keys (<[key := JSON entry]> bucket) = cursor_keys bucket).
    { unfold cursor_keys. by rewrite dom_insert_lookup_L. }
    rewrite Hkeys.
    destruct (decodes bucket key) eqn:Hdec.
    + rewrite Nat.add_0_r. f_equal. apply filter_ext_elem_of.
      intros k _. destruct (decide (k = key)) as [->|Hne].
      * by rewrite Hnew, Hdec.
      * by rewrite Hother.
    + rewrite Nat.add_1_r.
      apply (length_filter_one_more _ _ key).
      * apply cursor_keys_NoDup.
      * apply elem_of_cursor_keys. by rewrite Hold.
      * by rewrite Hdec.
      * exact Hnew.
      * intros k _ Hne. by rewrite Hother.
  - assert (Hdec : decodes bucket key = false) by (unfold decodes; by rewrite Hold).
    rewrite Hdec, Nat.add_1_r.
    assert (Hkeys : cursor_keys (<[key := JSON entry]> bucket)
                    ≡ₚ key :: cursor_keys bucket).
    { rewrite !cursor_keys_Permutation, dom_insert_L.
      apply elements_union_singleton. by apply not_elem_of_dom. }
    rewrite Hkeys, filter_cons, decide_True by exact Hnew. cbn [length]. f_equal.
    f_equal. apply filter_ext_elem_of.
    intros k Hk. rewrite Hother; [done|]. intros ->.
    apply elem_of_cursor_keys in Hk. rewrite Hold in Hk. by destruct Hk.
Qed.

Lemma cursor_keys_length {V} (bucket : gmap string V) :
  length (cursor_keys bucket) = size bucket.
Proof.
  rewrite (Permutation_length (cursor_keys_Permutation bucket)).
  change (size (dom bucket) = size bucket). apply size_dom.
Qed.

Lemma decodes_cursor_keys (bucket : gmap string document) :
  Forall (fun key => decodes bucket key = true) (cursor_keys bucket) ->
  forall key, is_Some (bucket !! key) -> decodes bucket key = true.
Proof.
  intros Hall key Hkey. rewrite Forall_forall in Hall.
  apply Hall. by apply elem_of_cursor_keys.
Qed.

(** X19.  On a store in which every record is that of a server entry,
    [CountServerEntries] is the number of records.  A store of a valid entry
    raises it by one when the address had no record, and leaves it as it is
    when it had one, whether the record is replaced or kept. *)
Theorem CountServerEntries_after_store (serverEntryFields : ServerEntryFields)
    (replaceIfExists : bool) (w : World PRNG) (db : datastoreDB) :
  activeDatastoreDB w = Some db ->
  ValidateServerEntryFields serverEntryFields = Ok tt ->
  (forall key, is_Some (serverEntries db !! key) ->
     decodes (serverEntries db) key = true) ->
  CountServerEntries w = Z.of_nat (size (serverEntries db))
  /\ CountServerEntries
       (snd (StoreServerEntry serverEntryFields replaceIfExists w))
     = CountServerEntries w
       + match serverEntries db !! GetIPAddress serverEntryFields with
         | Some _ => 0
         | None => 1
         end.
Proof.
  intros Hdb Hvalid Hentries.
  assert (Hcount : CountServerEntries w = Z.of_nat (size (serverEntries db))).
  { rewrite (CountServerEntries_spec w db Hdb), <- cursor_keys_length.
    do 2 f_equal.
    rewrite (filter_ext_elem_of _ (fun _ => True) (cursor_keys (serverEntries db))).
    - by apply filter_all.
    - intros key Hkey. apply elem_of_cursor_keys in Hkey.
      split; [done|]. intros _. by apply Hentries. }
  split; [exact Hcount|].
  rewrite (StoreServerEntry_spec serverEntryFields replaceIfExists w db Hdb Hvalid).
  cbn [snd].
  assert (Hdec : decodes (serverEntries db) (GetIPAddress serverEntryFields)
                 = match serverEntries db !! GetIPAddress serverEntryFields with
                   | Some _ => true
                   | None => false
                   end).
  { destruct (serverEntries db !! GetIPAddress serverEntryFields) as [data|] eqn:Hget.
    - apply Hentries. by rewrite Hget.
    - unfold decodes. by rewrite Hget. }
  rewrite (CountServerEntries_spec w db Hdb).
  match goal with |- context [Some (if ?u then ?a else ?b)] =>
    destruct u eqn:Hupdate end.
  - rewrite (fun e => CountServerEntries_spec _ _ e) by reflexivity.
    cbn [serverEntries]. rewrite count_after_insert, Hdec.
    destruct (serverEntries db !! GetIPAddress serverEntryFields); lia.
  - rewrite (fun e => CountServerEntries_spec _ db e) by reflexivity.
    apply orb_false_iff in Hupdate as [_ Hexisting].
    destruct (existing_version db (GetIPAddress serverEntryFields)) as [v|] eqn:Hv;
      [|discriminate].
    apply existing_version_stored in Hv as [Hv _].
    unfold stored_version in Hv.
    destruct (serverEntries db !! GetIPAddress serverEntryFields); [lia|discriminate].
Qed.

(** X20.  A tactics iterator takes no notice of server affinity: its first
    round lists the stored servers and nothing else, each once, whatever a
    promote has recorded. *)
Theorem NewTacticsServerEntryIterator_lists_stored (config : Config)
    (w : World PRNG) (db : datastoreDB) :
  TargetServerEntry config = "" ->
  activeDatastoreDB w = Some db ->
  exists (iterator : ServerEntryIterator) (g : PRNG),
    NewTacticsServerEntryIterator config w
    = (Ok iterator, {| activeDatastoreDB := Some db; defaultPRNG := g |})
    /\ isTacticsServerEntryIterator iterator = true
    /\ serverEntryIndex iterator = 0
    /\ serverEntryIDs iterator ≡ₚ cursor_keys (serverEntries db).
Proof.
  intros Htarget Hdb.
  unfold NewTacticsServerEntryIterator. rewrite Htarget. cbn [String.eqb negb].
  set (iterator := {| DataStore.config := config; applyServerAffinity := false |}).
  destruct (reset_Permutation iterator true w db eq_refl Hdb)
    as (ids & g & Hrun & Hids).
  rewrite Hrun. eexists. eexists. split; [reflexivity|].
  cbn [isTacticsServerEntryIterator serverEntryIndex serverEntryIDs set_ids Close
       iterator].
  split; [reflexivity|]. split; [reflexivity|].
  rewrite Hids. unfold collect_ids. cbn [applyServerAffinity Close set_ids andb fst app].
  by rewrite filter_all.
Qed.

End StoreAPIFacts.

(** ** The store's interface on concrete inputs *)

Section StoreAPIExamplesFacts.

Import DataStore DataStoreAPI StoreExamples StoreAPIExamples.

Lemma StoreServerEntry_replace_witness :
  let fields := entry "10.0.0.1" "US" 0 in
  let w := stale_affinity_world in
  exists db',
    StoreServerEntry fields true w
    = (Ok tt, {| activeDatastoreDB := Some db'; defaultPRNG := defaultPRNG w |})
    /\ serverEntries db' !! GetIPAddress fields = Some (JSON fields)
    /\ (forall ipAddress, ipAddress <> GetIPAddress fields ->
        serverEntries db' !! ipAddress = serverEntries (db_of w) !! ipAddress)
    /\ keyValues db' = keyValues (db_of w)
    /\ dialParameters db' = dialParameters (db_of w).
Proof.
  intros fields w.
  apply (StoreServerEntry_replace fields w (db_of w)).
  - vm_compute. reflexivity.
  - vm_compute. reflexivity.
  - right. vm_compute. reflexivity.
Defined.

Lemma StoreServerEntries_stops_at_first_invalid_witness :
  exists w',
    StoreServerEntries [entry "10.0.0.3" "US" 0] false replay_world = (Ok tt, w')
    /\ StoreServerEntries
         ([entry "10.0.0.3" "US" 0] ++ nameless :: [entry "10.0.0.4" "US" 0])
         false replay_world
       = (Err ("invalid server entry: " +:+ "server entry has invalid ipAddress"),
          w').
Proof.
  apply (StoreServerEntries_stops_at_first_invalid (PRNG := Z)
           [entry "10.0.0.3" "US" 0] [entry "10.0.0.4" "US" 0] nameless false
           replay_world (db_of replay_world)).
  - vm_compute. reflexivity.
  - repeat constructor.
  - reflexivity.
Defined.

Lemma StoreServerEntries_keeps_newest_witness :
  exists db',
    StoreServerEntries batch false empty_world
    = (Ok tt, {| activeDatastoreDB := Some db';
                 defaultPRNG := defaultPRNG empty_world |})
    /\ forall fields, fields ∈ batch ->
         0 <= GetConfigurationVersion fields ->
         exists v, stored_version db' (GetIPAddress fields) = Some v
                   /\ GetConfigurationVersion fields <= v.
Proof.
  apply (StoreServerEntries_keeps_newest batch empty_world (db_of empty_world)).
  - reflexivity.
  - repeat constructor.
Defined.

Lemma reset_lists_every_server_once_witness :
  let iterator := fresh_iterator config_US in
  let db := db_of affinity_world in
  exists (serverEntryIDs : list string) (g : Z),
    reset true (iterator, affinity_world)
    = (Ok tt,
       (set_ids (Close iterator) serverEntryIDs 0,
        {| activeDatastoreDB := Some db; defaultPRNG := g |}))
    /\ NoDup serverEntryIDs
    /\ (forall key, is_Some (serverEntries db !! key) -> key ∈ serverEntryIDs)
    /\ (forall id, id ∈ serverEntryIDs ->
        is_Some (serverEntries db !! id)
        \/ (true = true /\ applyServerAffinity iterator = true
            /\ keyValues db !! datastoreAffinityServerEntryIDKey = Some id)).
Proof.
  intros iterator db.
  apply (reset_lists_every_server_once iterator true affinity_world db).
  - reflexivity.
  - vm_compute. reflexivity.
Defined.

Lemma Next_skips_missing_records_witness :
  let iterator := listed_iterator in
  let w := second_server_world in
  let serverEntry := entry "10.0.0.2" "US" 0 in
  let ids := serverEntryIDs iterator in
  let pending := drop (Z.to_nat (serverEntryIndex iterator)) ids in
  (pending = ["10.0.0.1"] ->
   Next (iterator, w) = (Ok None, (set_ids iterator ids 1, w)))
  /\ (pending = ["10.0.0.1"] ++ "10.0.0.2" :: [] ->
      serverEntries (db_of w) !! "10.0.0.2" = Some (JSON serverEntry) ->
      accepted iterator serverEntry ->
      Next (iterator, w)
      = (Ok (Some (MakeCompatibleServerEntry serverEntry)),
         (set_ids iterator ids 2, w))).
Proof.
  intros iterator w serverEntry.
  apply (Next_skips_missing_records iterator w (db_of w) ["10.0.0.1"] []
           "10.0.0.2" serverEntry).
  - reflexivity.
  - vm_compute. reflexivity.
  - repeat constructor.
Defined.

(** When the last record [Next] looks at is one that [json.Unmarshal]
    rejects, [Next] returns nothing and the deferred function, which finds
    the error of the decoding, closes the iterator. *)
Example Next_closes_after_rejected_record :
  Next (listed_iterator, truncated_record_world)
  = (Ok None, (Close listed_iterator, truncated_record_world)).
Proof. vm_compute. reflexivity. Qed.


Lemma KeyValue_round_trip_witness :
  exists w',
    SetKeyValue "lastConnected" "2019-03-01T10:00:00Z" replay_world = (Ok tt, w')
    /\ GetKeyValue "lastConnected" w' = (Ok "2019-03-01T10:00:00Z", w')
    /\ (forall key', key' <> "lastConnected" ->
        fst (GetKeyValue key' w') = fst (GetKeyValue key' replay_world))
    /\ (forall key', keyValues (db_of replay_world) !! key' = None ->
        GetKeyValue key' replay_world = (Ok "", replay_world)).
Proof.
  apply (KeyValue_round_trip (PRNG := Z) "lastConnected" "2019-03-01T10:00:00Z"
           replay_world (db_of replay_world)).
  vm_compute. reflexivity.
Defined.

Lemma DialParameters_round_trip_witness :
  let json_Marshal := fun dialParams : string => dialParams in
  let json_Unmarshal := fun data : string => Ok data in
  let w := empty_world in
  exists (db1 db2 : datastoreDB),
    let w1 := {| activeDatastoreDB := Some db1; defaultPRNG := defaultPRNG w |} in
    let w2 := {| activeDatastoreDB := Some db2; defaultPRNG := defaultPRNG w |} in
    SetDialParameters "10.0.0.1" "wifi" (json_Marshal "{}") w = (Ok tt, w1)
    /\ GetDialParameters json_Unmarshal "10.0.0.1" "wifi" w1 = (Ok (Some "{}"), w1)
    /\ has_dial_parameters db1 "wifi" "10.0.0.1" = true
    /\ DeleteDialParameters "10.0.0.1" "wifi" w1 = (Ok tt, w2)
    /\ GetDialParameters json_Unmarshal "10.0.0.1" "wifi" w2 = (Ok None, w2)
    /\ has_dial_parameters db2 "wifi" "10.0.0.1" = false
    /\ forall key,
         key <> makeDialParametersKey "10.0.0.1" "wifi" ->
         dialParameters db1 !! key = dialParameters (db_of w) !! key
         /\ dialParameters db2 !! key = dialParameters (db_of w) !! key.
Proof.
  intros json_Marshal json_Unmarshal w.
  apply (DialParameters_round_trip (PRNG := Z) json_Marshal json_Unmarshal
           "10.0.0.1" "wifi" "{}" w (db_of w)).
  - reflexivity.
  - reflexivity.
Defined.

Lemma PromoteServerEntry_records_filter_witness :
  exists w',
    PromoteServerEntry config_US "10.0.0.1" replay_world = (Ok tt, w')
    /\ hasServerEntryFilterChanged config_target w'
       = (Ok (bool_decide (EgressRegion config_target <> EgressRegion config_US)),
          w')
    /\ GetKeyValue datastoreAffinityServerEntryIDKey w' = (Ok "10.0.0.1", w').
Proof.
  apply (PromoteServerEntry_records_filter (PRNG := Z) config_US config_target
           "10.0.0.1" replay_world (db_of replay_world)).
  - vm_compute. reflexivity.
  - eexists. vm_compute. reflexivity.
Defined.

Lemma CountServerEntries_after_store_witness :
  let fields := entry "10.0.0.3" "US" 0 in
  let w := replay_world in
  CountServerEntries w = Z.of_nat (size (serverEntries (db_of w)))
  /\ CountServerEntries (snd (StoreServerEntry fields false w))
     = CountServerEntries w
       + match serverEntries (db_of w) !! GetIPAddress fields with
         | Some _ => 0
         | None => 1
         end.
Proof.
  intros fields w.
  apply (CountServerEntries_after_store fields false w (db_of w)).
  - vm_compute. reflexivity.
  - vm_compute. reflexivity.
  - apply decodes_cursor_keys. vm_compute. repeat constructor.
Defined.

Lemma NewTacticsServerEntryIterator_lists_stored_witness :
  let db := db_of affinity_world in
  exists (iterator : ServerEntryIterator) (g : Z),
    NewTacticsServerEntryIterator config_US affinity_world
    = (Ok iterator, {| activeDatastoreDB := Some db; defaultPRNG := g |})
    /\ isTacticsServerEntryIterator iterator = true
    /\ serverEntryIndex iterator = 0
    /\ serverEntryIDs iterator ≡ₚ cursor_keys (serverEntries db).
Proof.
  intros db.
  apply (NewTacticsServerEntryIterator_lists_stored config_US affinity_world db).
  - reflexivity.
  - vm_compute. reflexivity.
Defined.

End StoreAPIExamplesFacts.

(** ** The custom TLS dialer: profile selection, success and cancellation *)

Section DialerFacts.

Import TLSDialer.
Context `{TLSProfileInterface} `{PRNGInterface PRNG}.

Lemma index_elem_of (l : list string) (i : Z) :
  0 <= i < Z.of_nat (length l) -> index "" l i ∈ l.
Proof.
  intros Hi. unfold index.
  destruct (l !! Z.to_nat i) as [x|] eqn:Hx.
  - cbn. by eapply list_elem_of_lookup_2.
  - apply lookup_ge_None in Hx. lia.
Qed.

(** X21.  [SelectTLSProfile] returns a supported profile that the limit list
    allows (every supported profile when the list is empty), and the empty
    string, without drawing from the generator, when there is none. *)
Theorem SelectTLSProfile_selects_candidate (limitTLSProfiles : list string)
    (w : World PRNG) :
  exists (tlsProfile : string) (g : PRNG),
    SelectTLSProfile limitTLSProfiles w
    = (Ok tlsProfile,
       {| rawConnOpen := rawConnOpen w;
          rawConnCloseCalls := rawConnCloseCalls w;
          secureRandom := secureRandom w;
          defaultPRNG := g |})
    /\ ((tlsProfile ∈ SupportedTLSProfiles
         /\ (limitTLSProfiles = [] \/ tlsProfile ∈ limitTLSProfiles))
        \/ (tlsProfile = "" /\ g = defaultPRNG w
            /\ forall p, p ∈ SupportedTLSProfiles ->
                 limitTLSProfiles <> [] /\ p ∉ limitTLSProfiles)).
Proof.
  unfold SelectTLSProfile.
  set (candidates := filter _ SupportedTLSProfiles).
  assert (Hcandidates : forall p, p ∈ candidates <->
            p ∈ SupportedTLSProfiles
            /\ (limitTLSProfiles = [] \/ p ∈ limitTLSProfiles)).
  { intros p. unfold candidates. rewrite list_elem_of_filter.
    split.
    - intros [Hallowed Hin]. split; [assumption|].
      destruct limitTLSProfiles as [|x l]; [by left|right].
      destruct (decide (p ∈ x :: l)) as [|Hout]; [assumption|].
      exfalso. apply Hallowed. split; [cbn; lia|assumption].
    - intros [Hin Hor]. split; [|assumption].
      intros [Hlen Hout]. destruct Hor as [->|Hin']; [cbn in Hlen; lia|done]. }
  clearbody candidates.
  destruct (length candidates =? 0)%nat eqn:E.
  - apply Nat.eqb_eq, nil_length_inv in E. subst candidates.
    exists "", (defaultPRNG w). split.
    + unfold ret. f_equal. by destruct w.
    + right. split; [reflexivity|]. split; [reflexivity|].
      intros p Hp.
      assert (Hnot : ~ (limitTLSProfiles = [] \/ p ∈ limitTLSProfiles)).
      { intros Hor. assert (Hin : p ∈ @nil string) by (apply Hcandidates; auto).
        by apply elem_of_nil in Hin. }
      split; [intros ->; apply Hnot; by left|intros Hin; apply Hnot; by right].
  - apply Nat.eqb_neq in E.
    unfold bind, prng_Intn, ret.
    pose proof (Intn_range (defaultPRNG w) (Z.of_nat (length candidates))
                  ltac:(lia)) as Hrange.
    destruct (Intn (defaultPRNG w) (Z.of_nat (length candidates))) as [choice g].
    cbn [fst] in Hrange. eexists. eexists. split; [reflexivity|].
    left. apply Hcandidates. by apply index_elem_of.
Qed.

Lemma bind_Ok {S A B} (m : M S A) (k : A -> M S B) (w w' : S) (b : B) :
  bind m k w = (Ok b, w') ->
  exists (a : A) (w1 : S), m w = (Ok a, w1) /\ k a w1 = (Ok b, w').
Proof.
  unfold bind. destruct (m w) as [[a|e] w1]; [eauto|discriminate].
Qed.

Lemma SelectTLSProfile_raw (limit : list string) (w w' : World PRNG) r :
  SelectTLSProfile limit w = (r, w') ->
  rawConnOpen w' = rawConnOpen w /\ rawConnCloseCalls w' = rawConnCloseCalls w.
Proof.
  destruct (SelectTLSProfile_selects_candidate limit w) as (p & g & -> & _).
  by intros [= <- <-].
Qed.

Lemma prng_NewSeed_raw (w w' : World PRNG) r :
  prng_NewSeed w = (r, w') ->
  rawConnOpen w' = rawConnOpen w /\ rawConnCloseCalls w' = rawConnCloseCalls w.
Proof.
  unfold prng_NewSeed. destruct (read_full _ _) as [r0 rest].
  by intros [= <- <-].
Qed.

(** What a successful run of [CustomTLSDial] has gone through. *)
Lemma CustomTLSDial_Ok_inv (env : Environment) (network addr : string)
    (config : CustomTLSConfig) (w w' : World PRNG) (conn : tlsConn) :
  CustomTLSDial env network addr config w = (Ok conn, w') ->
  exists hostname port : string,
    SplitHostPort env
      (if negb (String.eqb (DialAddr config) "") then DialAddr config else addr)
    = Ok (hostname, port)
    /\ rawConnOpen w' = true
    /\ rawConnCloseCalls w' = rawConnCloseCalls w
    /\ select env = HandshakeReturns
    /\ Handshake env (conn_config conn) = Ok (conn_state conn)
    /\ (ServerName (conn_config conn), InsecureSkipVerify (conn_config conn))
       = (if UseDialAddrSNI config then (hostname, SkipVerify config)
          else if negb (String.eqb (SNIServerName config) "")
                  && bool_decide (VerifyLegacyCertificate config = None)
          then (SNIServerName config, SkipVerify config)
          else ("", true))
    /\ (negb (SkipVerify config) && InsecureSkipVerify (conn_config conn) = true ->
        match VerifyLegacyCertificate config with
        | Some expected => verifyLegacyCertificate conn expected = Ok tt
        | None => verifyServerCerts env conn hostname = Ok tt
        end).
Proof.
  unfold CustomTLSDial. intros Hrun.
  apply bind_Ok in Hrun as ([] & w1 & Hdial & Hrun).
  assert (Hw1 : rawConnOpen w1 = true /\ rawConnCloseCalls w1 = rawConnCloseCalls w).
  { unfold config_Dial in Hdial. destruct (Dial env network _); [|discriminate].
    by injection Hdial as <-. }
  clear Hdial.
  destruct (SplitHostPort env _) as [[hostname port]|e];
    [|apply bind_Ok in Hrun as (? & ? & _ & Hrun); discriminate].
  exists hostname, port. split; [reflexivity|].
  apply bind_Ok in Hrun as (selectedTLSProfile & w2 & Hselect & Hrun).
  assert (Hw2 : rawConnOpen w2 = true /\ rawConnCloseCalls w2 = rawConnCloseCalls w).
  { destruct (String.eqb (TLSProfile config) "").
    - apply SelectTLSProfile_raw in Hselect as [-> ->]. exact Hw1.
    - injection Hselect as <- <-. exact Hw1. }
  clear Hselect Hw1 w1.
  destruct (if UseDialAddrSNI config then _ else _) as [name insecure] eqn:Hsni.
  apply bind_Ok in Hrun as (key & w3 & Hkey & Hrun).
  assert (w3 = w2) as ->.
  { unfold ret, fail in Hkey. repeat case_match; try discriminate Hkey;
      by injection Hkey. }
  clear Hkey.
  apply bind_Ok in Hrun as (tlsRootCAs & w3 & Hca & Hrun).
  assert (w3 = w2) as ->.
  { unfold ret, fail in Hca. repeat case_match; try discriminate Hca;
      by injection Hca. }
  clear Hca.
  apply bind_Ok in Hrun as (seed & w3 & Hseed & Hrun).
  assert (Hw3 : rawConnOpen w3 = true /\ rawConnCloseCalls w3 = rawConnCloseCalls w).
  { destruct (TLSProfileIsRandomized _ && _).
    - apply bind_Ok in Hseed as (? & w4 & Hnew & Hret).
      injection Hret as _ <-.
      apply prng_NewSeed_raw in Hnew as [-> ->]. exact Hw2.
    - injection Hseed as _ <-. exact Hw2. }
  clear Hseed Hw2 w2.
  apply bind_Ok in Hrun as (conn_tlsConfig & w4 & Hconfig & Hrun).
  assert (w4 = w3
          /\ ServerName conn_tlsConfig = name
          /\ InsecureSkipVerify conn_tlsConfig = insecure) as (-> & Hname & Hinsecure).
  { destruct (useUTLS selectedTLSProfile).
    - apply bind_Ok in Hconfig as (st & w5 & Hst & Hret).
      injection Hret as <- <-. cbn. split; [|done].
      unfold ret, fail in Hst. repeat case_match; try discriminate Hst;
        by injection Hst.
    - destruct (negb (TLSProfileIsTLS13 selectedTLSProfile)); [discriminate|].
      by injection Hconfig as <- <-. }
  clear Hconfig.
  apply bind_Ok in Hrun as (handshake & w5 & Hhandshake & Hrun).
  destruct (select env) as [|err] eqn:Hselect.
  - injection Hhandshake as <- <-.
    destruct (Handshake env conn_tlsConfig) as [state|e] eqn:Hstate;
      [|apply bind_Ok in Hrun as (? & ? & _ & Hrun); discriminate].
    destruct (if negb (SkipVerify config) && insecure then _ else _)
      as [[]|e] eqn:Hverify;
      [|apply bind_Ok in Hrun as (? & ? & _ & Hrun); discriminate].
    injection Hrun as <- <-. cbn [conn_config conn_state].
    destruct Hw3 as [Hopen Hcalls].
    split; [exact Hopen|]. split; [exact Hcalls|]. split; [reflexivity|].
    split; [exact Hstate|]. split; [by rewrite Hname, Hinsecure|].
    rewrite Hinsecure. intros Hmanual. rewrite Hmanual in Hverify.
    by destruct (VerifyLegacyCertificate config).
  - apply bind_Ok in Hhandshake as ([] & w6 & _ & Hret).
    injection Hret as <- <-.
    apply bind_Ok in Hrun as (? & ? & _ & Hrun). discriminate.
Qed.

(** X22.  A successful [CustomTLSDial] hands out the raw connection open:
    [Close] was not called on it during the dial, the context was not done,
    and the state of the connection is what the handshake under the returned
    configuration gave. *)
Theorem CustomTLSDial_success_keeps_connection (env : Environment)
    (network addr : string) (config : CustomTLSConfig) (w w' : World PRNG)
    (conn : tlsConn) :
  CustomTLSDial env network addr config w = (Ok conn, w') ->
  rawConnOpen w' = true
  /\ rawConnCloseCalls w' = rawConnCloseCalls w
  /\ select env = HandshakeReturns
  /\ Handshake env (conn_config conn) = Ok (conn_state conn).
Proof.
  intros Hrun.
  destruct (CustomTLSDial_Ok_inv env network addr config w w' conn Hrun)
    as (hostname & port & _ & Hopen & Hcalls & Hselect & Hstate & _).
  auto.
Qed.

(** X23.  With a legacy certificate to verify, no [SkipVerify] and no SNI
    taken from the dial address, a connection is only returned when the first
    certificate the peer presented is byte-for-byte the expected one; the
    handshake itself was then run without SNI and without chain verification. *)
Theorem CustomTLSDial_pins_legacy_certificate (env : Environment)
    (network addr : string) (config : CustomTLSConfig) (w w' : World PRNG)
    (conn : tlsConn) (expected : Certificate) :
  CustomTLSDial env network addr config w = (Ok conn, w') ->
  SkipVerify config = false ->
  UseDialAddrSNI config = false ->
  VerifyLegacyCertificate config = Some expected ->
  ServerName (conn_config conn) = ""
  /\ InsecureSkipVerify (conn_config conn) = true
  /\ exists (cert : Certificate) (intermediates : list Certificate),
       GetPeerCertificates conn = cert :: intermediates
       /\ Raw cert = Raw expected.
Proof.
  intros Hrun Hskip Hsni Hlegacy.
  destruct (CustomTLSDial_Ok_inv env network addr config w w' conn Hrun)
    as (hostname & port & _ & _ & _ & _ & _ & Hconfig & Hverify).
  rewrite Hsni, Hlegacy, Hskip in *.
  rewrite bool_decide_eq_false_2, andb_false_r in Hconfig by discriminate.
  injection Hconfig as Hname Hinsecure.
  split; [exact Hname|]. split; [exact Hinsecure|].
  rewrite Hinsecure in Hverify. specialize (Hverify eq_refl).
  unfold verifyLegacyCertificate in Hverify.
  destruct (GetPeerCertificates conn) as [|cert intermediates]; [discriminate|].
  exists cert, intermediates. split; [reflexivity|].
  destruct (bool_decide (Raw cert = Raw expected)) eqn:Hraw; [|discriminate].
  by apply bool_decide_eq_true_1 in Hraw.
Qed.

(** X24.  When the context is done before the handshake returns,
    [CustomTLSDial] returns no connection, whatever the peer and the
    configuration. *)
Theorem CustomTLSDial_context_done (env : Environment) (network addr : string)
    (config : CustomTLSConfig) (w : World PRNG) (err : string) :
  select env = ContextDone err ->
  is_Ok (fst (CustomTLSDial env network addr config w)) = false.
Proof.
  intros Hdone.
  destruct (CustomTLSDial env network addr config w) as [[conn|e] w'] eqn:Hrun;
    [|reflexivity].
  destruct (CustomTLSDial_Ok_inv env network addr config w w' conn Hrun)
    as (_ & _ & _ & _ & _ & Hselect & _).
  congruence.
Qed.

End DialerFacts.

(** ** Randomized ClientHello assembly: ciphers, shuffles and extensions *)

Section ParrotFacts.

Import UTLS.
Context `{UTLSInterface} `{PRNGInterface PRNG}.

Lemma remove_at_sublist {A} (s : list A) (n : nat) :
  take n s ++ drop (S n) s `sublist_of` s.
Proof.
  rewrite <- (take_drop n s) at 3.
  apply sublist_app; [reflexivity|].
  rewrite <- (Nat.add_1_r n), <- drop_drop. apply sublist_drop.
Qed.

Lemma remove_at_head {A} (s : list A) (n : nat) :
  (0 < n)%nat -> head (take n s ++ drop (S n) s) = head s.
Proof. intros Hn. destruct s as [|x s], n as [|n]; (lia || reflexivity). Qed.

Lemma removeRandomCiphers_loop_spec (maxRemovalProbability floatLen : float32)
    (g : PRNG) (s : list Z) (sliceLen i : Z) :
  0 < i ->
  let r := fst (removeRandomCiphers_loop maxRemovalProbability floatLen g s
                  sliceLen i) in
  r `sublist_of` s /\ head r = head s.
Proof.
  intros Hi. cbv zeta.
  funelim (removeRandomCiphers_loop maxRemovalProbability floatLen g s sliceLen i).
  - done.
  - match goal with IH : 0 < i -> _ |- _ => destruct (IH Hi) as [Hsub Hhead] end.
    replace (Z.to_nat (i + 1)) with (S (Z.to_nat i)) in * by lia.
    split.
    + etrans; [exact Hsub|]. apply remove_at_sublist.
    + rewrite Hhead. apply remove_at_head. lia.
  - match goal with IH : 0 < i + 1 -> _ |- _ => apply IH end. lia.
Qed.

(** X25.  [removeRandomCiphers] only removes: what it returns is its argument
    with some elements left out, in the same order, and the first cipher is
    never among those. *)
Theorem removeRandomCiphers_keeps_first (g : PRNG) (s : list Z)
    (maxRemovalProbability : float32) :
  let r := fst (removeRandomCiphers g s maxRemovalProbability) in
  r `sublist_of` s /\ head r = head s.
Proof.
  cbv zeta. unfold removeRandomCiphers.
  destruct (length s <=? 1)%nat; [done|].
  by apply removeRandomCiphers_loop_spec.
Qed.

Lemma sort_insert_Permutation (c : sortableCipher) (l : list sortableCipher) :
  sort_insert c l ≡ₚ c :: l.
Proof.
  induction l as [|x l IH]; [reflexivity|]. cbn [sort_insert].
  destruct (Less x c); [|reflexivity].
  rewrite IH. apply Permutation_swap.
Qed.

Lemma sort_Sort_Permutation (l : list sortableCipher) : sort_Sort l ≡ₚ l.
Proof.
  induction l as [|x l IH]; [reflexivity|]. unfold sort_Sort in *.
  cbn [fold_right]. by rewrite sort_insert_Permutation, IH.
Qed.

Lemma sort_insert_modern_first (c : sortableCipher) (l : list sortableCipher) :
  modern_first l -> modern_first (sort_insert c l).
Proof.
  induction l as [|x l IH]; intros Hl.
  - cbn. split; [done|]. intros _. constructor.
  - destruct Hl as [Hl Hx]. cbn [sort_insert].
    destruct (Less x c) eqn:Hless.
    + cbn [modern_first]. split; [by apply IH|].
      intros Hobs. rewrite sort_insert_Permutation. constructor; [|by apply Hx].
      unfold Less in Hless. rewrite Hobs in Hless.
      destruct (isObsolete c); [reflexivity|discriminate].
    + cbn [modern_first]. split; [by split|].
      intros Hobs. unfold Less in Hless. rewrite Hobs in Hless.
      destruct (isObsolete x) eqn:Hx'; [|discriminate].
      constructor; [exact Hx'|by apply Hx].
Qed.

Lemma sort_Sort_modern_first (l : list sortableCipher) : modern_first (sort_Sort l).
Proof.
  induction l as [|x l IH]; [done|]. unfold sort_Sort in *. cbn [fold_right].
  by apply sort_insert_modern_first.
Qed.

Lemma modern_first_split (l : list sortableCipher) :
  modern_first l ->
  l = filter (fun c => isObsolete c = false) l
      ++ filter (fun c => isObsolete c = true) l.
Proof.
  induction l as [|x l IH]; [reflexivity|]. intros [Hl Hx].
  rewrite !filter_cons. destruct (isObsolete x) eqn:Hobs.
  - rewrite decide_False, decide_True by done.
    specialize (Hx eq_refl).
    assert (Hnone : filter (fun c => isObsolete c = false) l = []).
    { clear -Hx. induction Hx as [|y l Hy _ IH]; [reflexivity|].
      rewrite filter_cons, decide_False by (rewrite Hy; discriminate). exact IH. }
    assert (Hall : filter (fun c => isObsolete c = true) l = l).
    { clear -Hx. induction Hx as [|y l Hy _ IH]; [reflexivity|].
      rewrite filter_cons, decide_True by exact Hy. by rewrite IH. }
    by rewrite Hnone, Hall.
  - rewrite decide_True, decide_False by done. cbn [app]. f_equal. by apply IH.
Qed.

Lemma sortable_suites (f : nat -> Z) (suites : list cipherSuite) (obsolete : bool) :
  forall k : nat,
  map suite
    (filter (fun c => isObsolete c = obsolete)
       (imap (fun i s =>
                {| suite := suite_id s;
                   isObsolete := Z.land (suite_flags s) suiteTLS12 =? 0;
                   randomTag := f (k + i)%nat |}) suites))
  = map suite_id
      (filter (fun s => (Z.land (suite_flags s) suiteTLS12 =? 0) = obsolete) suites).
Proof.
  induction suites as [|s suites IH]; intros k; [reflexivity|].
  cbn [imap].
  assert (Hshift :
    imap ((fun i s0 =>
             {| isObsolete := Z.land (suite_flags s0) suiteTLS12 =? 0;
                randomTag := f (k + i)%nat;
                suite := suite_id s0 |}) ∘ S) suites
    = imap (fun i s0 =>
              {| isObsolete := Z.land (suite_flags s0) suiteTLS12 =? 0;
                 randomTag := f (S k + i)%nat;
                 suite := suite_id s0 |}) suites).
  { apply imap_ext. intros i x _. cbn. do 2 f_equal. lia. }
  rewrite Hshift, !filter_cons. cbn [isObsolete].
  destruct (decide ((Z.land (suite_flags s) suiteTLS12 =? 0) = obsolete));
    cbn [map suite]; by rewrite IH.
Qed.

(** X26.  [shuffledCiphers] returns the identifiers of every suite of the
    table: first those of the suites flagged for TLS 1.2, in some order, then
    those of the other suites, in some order. *)
Theorem shuffledCiphers_modern_first (g : PRNG) :
  exists modern obsolete : list Z,
    fst (shuffledCiphers g) = Ok (modern ++ obsolete)
    /\ modern
       ≡ₚ map suite_id
            (filter (fun s => (Z.land (suite_flags s) suiteTLS12 =? 0) = false)
               cipherSuites)
    /\ obsolete
       ≡ₚ map suite_id
            (filter (fun s => (Z.land (suite_flags s) suiteTLS12 =? 0) = true)
               cipherSuites).
Proof.
  unfold shuffledCiphers.
  destruct (Perm g (length cipherSuites)) as [perm g']. cbn [fst].
  set (ciphers := imap _ cipherSuites).
  exists (map suite (filter (fun c => isObsolete c = false) (sort_Sort ciphers))),
         (map suite (filter (fun c => isObsolete c = true) (sort_Sort ciphers))).
  split; [|split].
  - rewrite <- map_app. do 2 f_equal.
    apply modern_first_split, sort_Sort_modern_first.
  - rewrite sort_Sort_Permutation.
    by rewrite <- (sortable_suites (fun i => Z.of_nat (nth i perm 0%nat))
                     cipherSuites false 0).
  - rewrite sort_Sort_Permutation.
    by rewrite <- (sortable_suites (fun i => Z.of_nat (nth i perm 0%nat))
                     cipherSuites true 0).
Qed.

Lemma shuffle_swaps_Permutation {A} (is_ perm : list nat) (s : list A) :
  shuffle_swaps is_ perm s ≡ₚ s.
Proof.
  revert s. induction is_ as [|i is_ IH]; intros s; [reflexivity|].
  cbn [shuffle_swaps]. by rewrite IH, swap_Permutation.
Qed.

Lemma shuffles_permute_helper (g : PRNG) (extensions : list TLSExtension)
    (signatures : list SignatureAndHash) :
  fst (shuffleTLSExtensions g extensions) ≡ₚ extensions
  /\ fst (shuffleSignatures g signatures) ≡ₚ signatures.
Proof.
  unfold shuffleTLSExtensions, shuffleSignatures. split.
  - destruct (Perm g (length extensions)) as [perm g'].
    apply shuffle_swaps_Permutation.
  - destruct (Perm g (length signatures)) as [perm g'].
    apply shuffle_swaps_Permutation.
Qed.

(** X27.  The two in-place shuffles return their argument rearranged: nothing
    is lost or duplicated, whatever the generator answers. *)
Theorem shuffles_permute (g : PRNG) (extensions : list TLSExtension)
    (signatures : list SignatureAndHash) :
  fst (shuffleTLSExtensions g extensions) ≡ₚ extensions
  /\ fst (shuffleSignatures g signatures) ≡ₚ signatures.
Proof. exact (shuffles_permute_helper g extensions signatures). Qed.

Lemma read_full_Ok (n : nat) (r x rest : bytes) :
  read_full n r = (Ok x, rest) -> r = x ++ rest /\ length x = n.
Proof.
  unfold read_full. destruct (n <=? length r)%nat eqn:E; [|discriminate].
  apply Nat.leb_le in E. intros [= <- <-]. split.
  - by rewrite take_drop.
  - rewrite length_take. lia.
Qed.

(** What a successful [fillClientHelloHeader] leaves. *)
Lemma fillClientHelloHeader_inv (st st' : State PRNG) :
  fillClientHelloHeader st = (Ok tt, st') ->
  exists random rest : bytes,
    length random = 32%nat
    /\ ((Random (Hello (uconn st)) = [] /\ config_rand st = random ++ rest)
        \/ (Random (Hello (uconn st)) = random /\ config_rand st = rest))
    /\ st'
       = {| uconn :=
              set_Hello (uconn st)
                {| Vers := if Vers (Hello (uconn st)) =? 0 then VersionTLS12
                           else Vers (Hello (uconn st));
                   Random := random;
                   SessionId := SessionId (Hello (uconn st));
                   CipherSuites :=
                     if (length (CipherSuites (Hello (uconn st))) =? 0)%nat
                     then defaultCipherSuites
                     else CipherSuites (Hello (uconn st));
                   CompressionMethods :=
                     if (length (CompressionMethods (Hello (uconn st))) =? 0)%nat
                     then [compressionNone]
                     else CompressionMethods (Hello (uconn st)) |};
            config_rand := rest;
            defaultPRNG := defaultPRNG st |}.
Proof.
  unfold fillClientHelloHeader, bind, get_uconn, put_uconn, ret, fail,
    rand_ReadFull.
  rewrite match_random_length.
  destruct (decide (length (Random (Hello (uconn st))) = 0%nat)) as [Hempty|Hne].
  - destruct (read_full 32 (config_rand st)) as [[random|e] rest] eqn:Hread;
      [|discriminate].
    apply read_full_Ok in Hread as [Hrand Hlen].
    intros [= <-]. exists random, rest. split; [exact Hlen|].
    split; [|reflexivity]. left. split; [|exact Hrand].
    by apply nil_length_inv.
  - destruct (decide (length (Random (Hello (uconn st))) = 32%nat)) as [Hlen|];
      [|discriminate].
    intros [= <-]. exists (Random (Hello (uconn st))), (config_rand st).
    split; [exact Hlen|]. split; [by right|reflexivity].
Qed.

(** X28.  After a successful [fillClientHelloHeader] the hello has a version,
    a client random of 32 bytes, cipher suites unless the default list is
    empty, and a compression method. What the caller had set is kept; a
    missing random is the next 32 bytes of the configuration's random source,
    which is not read otherwise. *)
Theorem fillClientHelloHeader_fills (st st' : State PRNG) :
  fillClientHelloHeader st = (Ok tt, st') ->
  let before := Hello (uconn st) in
  let after := Hello (uconn st') in
  length (Random after) = 32%nat
  /\ (Random before = [] /\ config_rand st = Random after ++ config_rand st'
      \/ Random before = Random after /\ config_rand st = config_rand st')
  /\ Vers after = (if Vers before =? 0 then VersionTLS12 else Vers before)
  /\ CipherSuites after
     = match CipherSuites before with
       | [] => defaultCipherSuites
       | suites => suites
       end
  /\ CompressionMethods after
     = match CompressionMethods before with
       | [] => [compressionNone]
       | methods => methods
       end
  /\ SessionId after = SessionId before
  /\ Extensions (uconn st') = Extensions (uconn st)
  /\ defaultPRNG st' = defaultPRNG st.
Proof.
  intros Hrun.
  apply fillClientHelloHeader_inv in Hrun as (random & rest & Hlen & Hsource & ->).
  cbn. split; [exact Hlen|]. split; [exact Hsource|]. split; [reflexivity|].
  split; [by destruct (CipherSuites (Hello (uconn st)))|].
  split; [by destruct (CompressionMethods (Hello (uconn st)))|]. done.
Qed.

Lemma if_append {A} (c : bool) (l : list A) (x : A) :
  (if c then l ++ [x] else l) = l ++ (if c then [x] else []).
Proof. destruct c; [reflexivity|by rewrite app_nil_r]. Qed.

Ltac choose_coins :=
  repeat match goal with
         | |- context [if ?c then _ else _] => destruct c
         end;
  repeat constructor.

(** What a successful [parrotRandomizedNoALPN] leaves in the connection. *)
Lemma parrotRandomizedNoALPN_inv (st st' : State PRNG) :
  parrotRandomizedNoALPN st = (Ok tt, st') ->
  exists (signatures extra : list SignatureAndHash) (before after : list Z)
         (optional : list TLSExtension),
    Extensions (uconn st')
    ≡ₚ [ SNIExtension (config_ServerName (uconn st));
         SessionTicketExtension (Session (uconn st));
         SignatureAlgorithmsExtension signatures;
         SupportedPointsExtension [pointFormatUncompressed];
         SupportedCurvesExtension (before ++ [CurveP256; CurveP384] ++ after) ]
       ++ optional
    /\ optional
       `sublist_of` [ utlsPaddingExtension; StatusRequestExtension; SCTExtension;
                      RenegotiationInfoExtension RenegotiateOnceAsClient ]
    /\ signatures
       ≡ₚ [ {| sah_hash := hashSHA256; sah_signature := signatureECDSA |};
            {| sah_hash := hashSHA256; sah_signature := signatureRSA |};
            {| sah_hash := hashSHA384; sah_signature := signatureECDSA |};
            {| sah_hash := hashSHA384; sah_signature := signatureRSA |};
            {| sah_hash := hashSHA1; sah_signature := signatureRSA |} ] ++ extra
    /\ extra
       `sublist_of` [ {| sah_hash := disabledHashSHA512; sah_signature := signatureECDSA |};
                      {| sah_hash := disabledHashSHA512; sah_signature := signatureRSA |};
                      {| sah_hash := hashSHA1; sah_signature := signatureECDSA |} ]
    /\ before `sublist_of` [X25519]
    /\ after `sublist_of` [CurveP521]
    /\ length (Random (Hello (uconn st'))) = 32%nat
    /\ config_NextProtos (uconn st') = config_NextProtos (uconn st)
    /\ clientHelloPRNGSeed (uconn st') = clientHelloPRNGSeed (uconn st).
Proof.
  unfold parrotRandomizedNoALPN, bind at 1. unfold get_uconn at 1.
  destruct (clientHelloPRNGSeed (uconn st)) as [seed|] eqn:Hseed; [|discriminate].
  destruct (shuffledCiphers (NewPRNGWithSeed seed)) as [[shuffled|e] g0];
    [|discriminate].
  destruct (removeRandomCiphers g0 shuffled (f32_lit 4 10)) as [suites g1].
  unfold bind at 1. unfold put_uconn at 1.
  unfold bind at 1.
  destruct (fillClientHelloHeader _) as [[[]|e] st1] eqn:Hfill; [|discriminate].
  apply fillClientHelloHeader_inv in Hfill as (random & rest & Hlen & _ & ->).
  unfold bind at 1. unfold get_uconn at 1. cbn [uconn].
  repeat match goal with
         | |- context [tossBiasedCoin ?g ?p] =>
             destruct (tossBiasedCoin g p) as [? ?]; rewrite ?if_append
         end.
  match goal with |- context [shuffleSignatures ?g ?l] =>
    pose proof (proj2 (shuffles_permute_helper g [] l)) as Hsigs;
    destruct (shuffleSignatures g l) as [signatures ?] end.
  repeat match goal with
         | |- context [tossBiasedCoin ?g ?p] =>
             destruct (tossBiasedCoin g p) as [? ?]; rewrite ?if_append
         end.
  match goal with |- context [shuffleTLSExtensions ?g ?l] =>
    pose proof (proj1 (shuffles_permute_helper g l [])) as Hexts;
    destruct (shuffleTLSExtensions g l) as [extensions ?] end.
  cbn [fst] in Hsigs, Hexts.
  unfold put_uconn. intros [= <-]. cbn. cbn in Hexts.
  rewrite <- !app_assoc in Hsigs. rewrite <- !app_assoc in Hexts.
  match type of Hsigs with _ ≡ₚ _ ++ ?extra => exists signatures, extra end.
  match type of Hexts with
  | _ ≡ₚ _ :: _ :: _ :: _ :: SupportedCurvesExtension (?before ++ _ ++ ?after)
         :: ?optional =>
      exists before, after, optional
  end.
  split; [exact Hexts|].
  split; [choose_coins|].
  split; [exact Hsigs|].
  split; [choose_coins|].
  split; [choose_coins|].
  split; [choose_coins|].
  split; [exact Hlen|]. split; [reflexivity|]. exact Hseed.
Qed.

(** X29.  Whatever the seed, a hello assembled by [parrotRandomizedNoALPN]
    carries the five extensions server name, session ticket, signature
    algorithms, point formats and curves, and beside them only some of
    padding, status request, signed certificate timestamp and renegotiation
    info, each at most once. The curves always include P-256 and P-384 in this
    order; the signature algorithms always include the five fixed pairs. The
    extension order is shuffled. *)
Theorem parrotRandomizedNoALPN_extensions (st st' : State PRNG) :
  parrotRandomizedNoALPN st = (Ok tt, st') ->
  exists (signatures extra : list SignatureAndHash) (before after : list Z)
         (optional : list TLSExtension),
    Extensions (uconn st')
    ≡ₚ [ SNIExtension (config_ServerName (uconn st));
         SessionTicketExtension (Session (uconn st));
         SignatureAlgorithmsExtension signatures;
         SupportedPointsExtension [pointFormatUncompressed];
         SupportedCurvesExtension (before ++ [CurveP256; CurveP384] ++ after) ]
       ++ optional
    /\ optional
       `sublist_of` [ utlsPaddingExtension; StatusRequestExtension; SCTExtension;
                      RenegotiationInfoExtension RenegotiateOnceAsClient ]
    /\ signatures
       ≡ₚ [ {| sah_hash := hashSHA256; sah_signature := signatureECDSA |};
            {| sah_hash := hashSHA256; sah_signature := signatureRSA |};
            {| sah_hash := hashSHA384; sah_signature := signatureECDSA |};
            {| sah_hash := hashSHA384; sah_signature := signatureRSA |};
            {| sah_hash := hashSHA1; sah_signature := signatureRSA |} ] ++ extra
    /\ extra
       `sublist_of` [ {| sah_hash := disabledHashSHA512; sah_signature := signatureECDSA |};
                      {| sah_hash := disabledHashSHA512; sah_signature := signatureRSA |};
                      {| sah_hash := hashSHA1; sah_signature := signatureECDSA |} ]
    /\ before `sublist_of` [X25519]
    /\ after `sublist_of` [CurveP521].
Proof.
  intros Hrun.
  destruct (parrotRandomizedNoALPN_inv st st' Hrun)
    as (signatures & extra & before & after & optional
        & Hexts & Hoptional & Hsigs & Hextra & Hbefore & Hafter & _).
  by exists signatures, extra, before, after, optional.
Qed.

(** X30.  [parrotRandomizedALPN] puts the ALPN extension last, after the
    shuffled extensions, and it is the only ALPN extension of the hello. It
    offers the configured protocols, and h2 and http/1.1 when none are
    configured, which it also writes to the configuration. *)
Theorem parrotRandomizedALPN_alpn_last (st st' : State PRNG) :
  parrotRandomizedALPN st = (Ok tt, st') ->
  let protos := match config_NextProtos (uconn st) with
                | [] => ["h2"; "http/1.1"]
                | configured => configured
                end in
  exists shuffled : list TLSExtension,
    Extensions (uconn st') = shuffled ++ [ALPNExtension protos]
    /\ (forall offered, ALPNExtension offered ∉ shuffled)
    /\ config_NextProtos (uconn st') = protos.
Proof.
  unfold parrotRandomizedALPN.
  destruct (parrotRandomizedNoALPN st) as [[[]|e] st1] eqn:Hinner;
    [|discriminate].
  destruct (parrotRandomizedNoALPN_inv st st1 Hinner)
    as (signatures & extra & before & after & optional
        & Hexts & Hoptional & _ & _ & _ & _ & _ & Hprotos & _).
  intros [= <-]. cbn [uconn]. rewrite <- Hprotos.
  exists (Extensions (uconn st1)). split; [|split].
  - by destruct (config_NextProtos (uconn st1)) eqn:E; cbn; rewrite ?E.
  - intros offered Hin. rewrite Hexts in Hin.
    apply elem_of_app in Hin as [Hin|Hin].
    + repeat (apply elem_of_cons in Hin as [Hin|Hin]; [discriminate|]).
      by apply elem_of_nil in Hin.
    + apply (fun Hx => elem_of_sublist _ _ _ Hx Hoptional) in Hin.
      repeat (apply elem_of_cons in Hin as [Hin|Hin]; [discriminate|]).
      by apply elem_of_nil in Hin.
  - by destruct (config_NextProtos (uconn st1)) eqn:E; cbn; rewrite ?E.
Qed.

End ParrotFacts.

(** ** The dialer and the assembly on concrete inputs *)

Section DialerExamplesFacts.

Import TLSDialer UTLS.

Lemma CustomTLSDial_success_keeps_connection_witness :
  exists (conn : tlsConn) (w' : World Z),
    CustomTLSDial DialExamples.cooperative "tcp" "example.org:443"
      DialExamples.config DialExamples.world
    = (Ok conn, w')
    /\ rawConnOpen w' = true
    /\ rawConnCloseCalls w' = rawConnCloseCalls DialExamples.world
    /\ select DialExamples.cooperative = HandshakeReturns
    /\ Handshake DialExamples.cooperative (conn_config conn)
       = Ok (conn_state conn).
Proof.
  eexists _, _. split; [reflexivity|].
  eapply (CustomTLSDial_success_keeps_connection DialExamples.cooperative
            "tcp" "example.org:443" DialExamples.config DialExamples.world).
  reflexivity.
Defined.

Lemma CustomTLSDial_pins_legacy_certificate_witness :
  exists (conn : tlsConn) (w' : World Z),
    CustomTLSDial DialExamples.cooperative "tcp" "example.org:443"
      DialerExamples.legacy_config DialExamples.world
    = (Ok conn, w')
    /\ ServerName (conn_config conn) = ""
    /\ InsecureSkipVerify (conn_config conn) = true
    /\ exists (cert : Certificate) (intermediates : list Certificate),
         GetPeerCertificates conn = cert :: intermediates
         /\ Raw cert = Raw DialExamples.certificate.
Proof.
  eexists _, _. split; [reflexivity|].
  eapply (CustomTLSDial_pins_legacy_certificate DialExamples.cooperative
            "tcp" "example.org:443" DialerExamples.legacy_config
            DialExamples.world).
  - reflexivity.
  - reflexivity.
  - reflexivity.
  - reflexivity.
Defined.

Lemma CustomTLSDial_context_done_witness :
  is_Ok (fst (CustomTLSDial DialerExamples.cancelled "tcp" "example.org:443"
                DialExamples.config DialExamples.world)) = false.
Proof.
  apply (CustomTLSDial_context_done DialerExamples.cancelled "tcp"
           "example.org:443" DialExamples.config DialExamples.world
           "context canceled").
  reflexivity.
Defined.

Lemma fillClientHelloHeader_fills_witness :
  let st := HelloExamples.state_1 in
  let st' := snd (fillClientHelloHeader st) in
  let before := Hello (uconn st) in
  let after := Hello (uconn st') in
  length (Random after) = 32%nat
  /\ (Random before = [] /\ config_rand st = Random after ++ config_rand st'
      \/ Random before = Random after /\ config_rand st = config_rand st')
  /\ Vers after = (if Vers before =? 0 then VersionTLS12 else Vers before)
  /\ CipherSuites after
     = match CipherSuites before with
       | [] => defaultCipherSuites
       | suites => suites
       end
  /\ CompressionMethods after
     = match CompressionMethods before with
       | [] => [compressionNone]
       | methods => methods
       end
  /\ SessionId after = SessionId before
  /\ Extensions (uconn st') = Extensions (uconn st)
  /\ defaultPRNG st' = defaultPRNG st.
Proof.
  intros st st'.
  apply (fillClientHelloHeader_fills st st').
  reflexivity.
Defined.

Lemma parrotRandomizedNoALPN_extensions_witness :
  let st := HelloExamples.state_1 in
  let st' := snd (parrotRandomizedNoALPN st) in
  exists (signatures extra : list SignatureAndHash) (before after : list Z)
         (optional : list TLSExtension),
    Extensions (uconn st')
    ≡ₚ [ SNIExtension (config_ServerName (uconn st));
         SessionTicketExtension (Session (uconn st));
         SignatureAlgorithmsExtension signatures;
         SupportedPointsExtension [pointFormatUncompressed];
         SupportedCurvesExtension (before ++ [CurveP256; CurveP384] ++ after) ]
       ++ optional
    /\ optional
       `sublist_of` [ utlsPaddingExtension; StatusRequestExtension; SCTExtension;
                      RenegotiationInfoExtension RenegotiateOnceAsClient ]
    /\ signatures
       ≡ₚ [ {| sah_hash := hashSHA256; sah_signature := signatureECDSA |};
            {| sah_hash := hashSHA256; sah_signature := signatureRSA |};
            {| sah_hash := hashSHA384; sah_signature := signatureECDSA |};
            {| sah_hash := hashSHA384; sah_signature := signatureRSA |};
            {| sah_hash := hashSHA1; sah_signature := signatureRSA |} ] ++ extra
    /\ extra
       `sublist_of` [ {| sah_hash := disabledHashSHA512; sah_signature := signatureECDSA |};
                      {| sah_hash := disabledHashSHA512; sah_signature := signatureRSA |};
                      {| sah_hash := hashSHA1; sah_signature := signatureECDSA |} ]
    /\ before `sublist_of` [X25519]
    /\ after `sublist_of` [CurveP521].
Proof.
  intros st st'.
  apply (parrotRandomizedNoALPN_extensions st st').
  vm_compute. reflexivity.
Defined.

Lemma parrotRandomizedALPN_alpn_last_witness :
  let st := HelloExamples.state_1 in
  let st' := snd (parrotRandomizedALPN st) in
  exists shuffled : list TLSExtension,
    Extensions (uconn st') = shuffled ++ [ALPNExtension ["h2"; "http/1.1"]]
    /\ (forall offered, ALPNExtension offered ∉ shuffled)
    /\ config_NextProtos (uconn st') = ["h2"; "http/1.1"].
Proof.
  intros st st'.
  apply (parrotRandomizedALPN_alpn_last st st').
  vm_compute. reflexivity.
Defined.

End DialerExamplesFacts.
